(** * The detelecine filter of libavfilter (vf_detelecine.c)

    A shallow embedding of [init], [query_formats], [config_input],
    [config_output] and [filter_frame] of [libavfilter/vf_detelecine.c], and
    the properties of the pattern compiler and of the field reassembly
    engine that its specification states, with further properties that the
    code has.

    Conventions of the embedding.
    - C [int] and [int64_t] values are integers of [Z]; signed arithmetic is
      modelled where C defines it (no signed overflow).  The timestamp of
      an output frame, an [int64_t] sum, is kept modulo [2^64] ([to_int64]).
      The two [unsigned int] fields of the context, [pattern_pos] and
      [nskip_fields], wrap modulo [2^32] ([to_uint]).
    - The pattern is a [string]; as a C string it ends at its first NUL
      character or at its end, where the terminator is read ([char_at]).
      Characters are their codes, 0 to 255; the code only computes with
      those it has found to be digits.
    - A picture plane is a flat list of bytes addressed by an offset and a
      line size, as [data[i]] and [linesize[i]] are in an [AVFrame].
    - What the framework does during one call of [filter_frame] (whether
      [av_frame_clone] succeeds, what the next filter returns) is an
      argument of the call ([call_env]). *)

From Stdlib Require Import ZArith List String Ascii Bool Lia.
Import ListNotations.
Local Open Scope Z_scope.

Set Implicit Arguments.

(** ** Constants and small helpers *)

Definition INT64_MIN : Z := - 2 ^ 63.
Definition INT64_MAX : Z := 2 ^ 63 - 1.
Definition AV_NOPTS_VALUE : Z := INT64_MIN.

(** Conversion to [int64_t], and the values that it leaves as they are. *)
Definition to_int64 (x : Z) : Z := (x + 2 ^ 63) mod 2 ^ 64 - 2 ^ 63.

Definition in_int64 (x : Z) : Prop := INT64_MIN <= x <= INT64_MAX.

(** [AVERROR_INVALIDDATA] is [-MKTAG('I','N','D','A')]. *)
Definition AVERROR_INVALIDDATA : Z := - 1094995529.
Definition ENOMEM : Z := 12.
Definition EINVAL : Z := 22.
Definition AVERROR (e : Z) : Z := - e.

(** Conversion to [unsigned int]. *)
Definition to_uint (x : Z) : Z := x mod 2 ^ 32.

(** The C operator [!] on an [int]. *)
Definition lnot (x : Z) : Z := if x =? 0 then 1 else 0.

Definition FFMAX (a b : Z) : Z := if a >? b then a else b.

(** [AV_CEIL_RSHIFT(a, b)] is [-((-(a)) >> (b))]. *)
Definition AV_CEIL_RSHIFT (a b : Z) : Z := - Z.shiftr (- a) b.

Fixpoint upd_nth {A : Type} (l : list A) (i : nat) (x : A) : list A :=
  match l, i with
  | [], _ => []
  | _ :: t, O => x :: t
  | h :: t, S j => h :: upd_nth t j x
  end.

(** ** Rationals *)

Record AVRational := { num : Z; den : Z }.

Definition av_inv_q (q : AVRational) : AVRational :=
  {| num := den q; den := num q |}.

(** Modelled from the spec: [av_mul_q] of libavutil/rational.c is not among
    the sources.  The product is exact; it is kept in lowest terms with a
    non-negative denominator and the sign on the numerator. *)
Definition av_mul_q (b c : AVRational) : AVRational :=
  let n := num b * num c in
  let d := den b * den c in
  let g := Z.gcd n d in
  {| num := (if xorb (n <? 0) (d <? 0) then -1 else 1) * (Z.abs n / g);
     den := Z.abs d / g |}.

(** Modelled from the spec: [av_rescale] of libavutil/mathematics.c is not
    among the sources.  [av_rescale a b c] is [a * b / c] rounded to the
    nearest integer, halves away from zero; outside [0 <= b], [0 < c] the
    library gives [INT64_MIN]. *)
Definition av_rescale (a b c : Z) : Z :=
  if (c <=? 0) || (b <? 0) then INT64_MIN
  else if a <? 0 then - ((- a * b + c / 2) / c)
  else (a * b + c / 2) / c.

(** Two rationals with the same value. *)
Definition q_eq (a b : AVRational) : Prop :=
  den a <> 0 /\ den b <> 0 /\ num a * den b = num b * den a.

(** ** The pattern as a C string *)

Definition char_code (c : ascii) : Z := Z.of_N (N_of_ascii c).

(** [pattern[i]]: the character at index [i], the terminator behind the last
    one. *)
Definition char_at (p : string) (i : Z) : Z :=
  match String.get (Z.to_nat i) p with
  | Some c => char_code c
  | None => 0
  end.

Fixpoint strlen (p : string) : Z :=
  match p with
  | EmptyString => 0
  | String c p' => if char_code c =? 0 then 0 else 1 + strlen p'
  end.

Definition av_isdigit (c : Z) : bool := (48 <=? c) && (c <=? 57).

(** The sum of the digit values of the pattern, and whether it has digits
    only. *)
Fixpoint digit_sum (p : string) : Z :=
  match p with
  | EmptyString => 0
  | String c p' =>
      if char_code c =? 0 then 0 else (char_code c - 48) + digit_sum p'
  end.

Fixpoint all_digits (p : string) : bool :=
  match p with
  | EmptyString => true
  | String c p' =>
      if char_code c =? 0 then true
      else av_isdigit (char_code c) && all_digits p'
  end.

(** ** Frames, links and the filter context *)

Record AVFrame := {
  data : list (list Z);     (* the bytes of each plane *)
  linesize : list Z;        (* bytes from one row to the next, per plane *)
  pts : Z;
  props : Z                 (* the metadata av_frame_copy_props carries over *)
}.

Record AVFilterLink := {
  format : Z;
  w : Z;
  h : Z;
  frame_rate : AVRational;
  time_base : AVRational;
  frame_count_in : Z;       (* frames that have been passed into the link *)
  delivered : list AVFrame  (* those frames, oldest first *)
}.

Record DetelecineContext := {
  first_field : Z;
  pattern : string;
  start_frame : Z;
  init_len : Z;
  pattern_pos : Z;
  nskip_fields : Z;
  start_time : Z;
  pts_mul : AVRational;     (* the field [pts] of the C struct *)
  ts_unit : AVRational;
  occupied : Z;
  nb_planes : Z;
  planeheight : list Z;
  stride : list Z;
  frame : list (option AVFrame);
  temp : option AVFrame
}.

Definition set_init_len (s : DetelecineContext) (v : Z) :=
  {| first_field := first_field s; pattern := pattern s;
     start_frame := start_frame s; init_len := v;
     pattern_pos := pattern_pos s; nskip_fields := nskip_fields s;
     start_time := start_time s; pts_mul := pts_mul s; ts_unit := ts_unit s;
     occupied := occupied s; nb_planes := nb_planes s;
     planeheight := planeheight s; stride := stride s; frame := frame s;
     temp := temp s |}.

Definition set_pattern_pos (s : DetelecineContext) (v : Z) :=
  {| first_field := first_field s; pattern := pattern s;
     start_frame := start_frame s; init_len := init_len s;
     pattern_pos := v; nskip_fields := nskip_fields s;
     start_time := start_time s; pts_mul := pts_mul s; ts_unit := ts_unit s;
     occupied := occupied s; nb_planes := nb_planes s;
     planeheight := planeheight s; stride := stride s; frame := frame s;
     temp := temp s |}.

Definition set_nskip_fields (s : DetelecineContext) (v : Z) :=
  {| first_field := first_field s; pattern := pattern s;
     start_frame := start_frame s; init_len := init_len s;
     pattern_pos := pattern_pos s; nskip_fields := v;
     start_time := start_time s; pts_mul := pts_mul s; ts_unit := ts_unit s;
     occupied := occupied s; nb_planes := nb_planes s;
     planeheight := planeheight s; stride := stride s; frame := frame s;
     temp := temp s |}.

Definition set_start_time (s : DetelecineContext) (v : Z) :=
  {| first_field := first_field s; pattern := pattern s;
     start_frame := start_frame s; init_len := init_len s;
     pattern_pos := pattern_pos s; nskip_fields := nskip_fields s;
     start_time := v; pts_mul := pts_mul s; ts_unit := ts_unit s;
     occupied := occupied s; nb_planes := nb_planes s;
     planeheight := planeheight s; stride := stride s; frame := frame s;
     temp := temp s |}.

Definition set_pts_mul (s : DetelecineContext) (v : AVRational) :=
  {| first_field := first_field s; pattern := pattern s;
     start_frame := start_frame s; init_len := init_len s;
     pattern_pos := pattern_pos s; nskip_fields := nskip_fields s;
     start_time := start_time s; pts_mul := v; ts_unit := ts_unit s;
     occupied := occupied s; nb_planes := nb_planes s;
     planeheight := planeheight s; stride := stride s; frame := frame s;
     temp := temp s |}.

Definition set_ts_unit (s : DetelecineContext) (v : AVRational) :=
  {| first_field := first_field s; pattern := pattern s;
     start_frame := start_frame s; init_len := init_len s;
     pattern_pos := pattern_pos s; nskip_fields := nskip_fields s;
     start_time := start_time s; pts_mul := pts_mul s; ts_unit := v;
     occupied := occupied s; nb_planes := nb_planes s;
     planeheight := planeheight s; stride := stride s; frame := frame s;
     temp := temp s |}.

Definition set_occupied (s : DetelecineContext) (v : Z) :=
  {| first_field := first_field s; pattern := pattern s;
     start_frame := start_frame s; init_len := init_len s;
     pattern_pos := pattern_pos s; nskip_fields := nskip_fields s;
     start_time := start_time s; pts_mul := pts_mul s; ts_unit := ts_unit s;
     occupied := v; nb_planes := nb_planes s;
     planeheight := planeheight s; stride := stride s; frame := frame s;
     temp := temp s |}.

Definition set_geometry (s : DetelecineContext)
    (n : Z) (ph : list Z) (st : list Z) :=
  {| first_field := first_field s; pattern := pattern s;
     start_frame := start_frame s; init_len := init_len s;
     pattern_pos := pattern_pos s; nskip_fields := nskip_fields s;
     start_time := start_time s; pts_mul := pts_mul s; ts_unit := ts_unit s;
     occupied := occupied s; nb_planes := n;
     planeheight := ph; stride := st; frame := frame s;
     temp := temp s |}.

Definition set_frame (s : DetelecineContext) (v : list (option AVFrame)) :=
  {| first_field := first_field s; pattern := pattern s;
     start_frame := start_frame s; init_len := init_len s;
     pattern_pos := pattern_pos s; nskip_fields := nskip_fields s;
     start_time := start_time s; pts_mul := pts_mul s; ts_unit := ts_unit s;
     occupied := occupied s; nb_planes := nb_planes s;
     planeheight := planeheight s; stride := stride s; frame := v;
     temp := temp s |}.

Definition set_temp (s : DetelecineContext) (v : option AVFrame) :=
  {| first_field := first_field s; pattern := pattern s;
     start_frame := start_frame s; init_len := init_len s;
     pattern_pos := pattern_pos s; nskip_fields := nskip_fields s;
     start_time := start_time s; pts_mul := pts_mul s; ts_unit := ts_unit s;
     occupied := occupied s; nb_planes := nb_planes s;
     planeheight := planeheight s; stride := stride s; frame := frame s;
     temp := v |}.

(** The private context as the framework hands it to [init]: zeroed, with
    the three options set. *)
Definition new_context (ff : Z) (pat : string) (sf : Z) : DetelecineContext :=
  {| first_field := ff; pattern := pat; start_frame := sf;
     init_len := 0; pattern_pos := 0; nskip_fields := 0; start_time := 0;
     pts_mul := {| num := 0; den := 0 |}; ts_unit := {| num := 0; den := 0 |};
     occupied := 0; nb_planes := 0;
     planeheight := [0; 0; 0; 0]; stride := [0; 0; 0; 0];
     frame := [None; None]; temp := None |}.

(** ** init *)

(** The three ways [init] fails, named after what it logs; each returns
    [AVERROR_INVALIDDATA]. *)
Inductive init_error :=
| NoPatternProvided
| NonNumericPattern
| StartFrameTooBig.

Inductive init_result :=
| InitError (e : init_error)
| InitOk (s : DetelecineContext).

Definition init_ret (r : init_result) : Z :=
  match r with
  | InitError _ => AVERROR_INVALIDDATA
  | InitOk _ => 0
  end.

(** The first loop of [init] over the characters from [p] on: [None] at a
    character that is no digit, else the sum, the maximum and the
    accumulated [pts]. *)
Fixpoint init_scan (p : string) (sum max : Z) (q : AVRational)
  : option (Z * Z * AVRational) :=
  match p with
  | EmptyString => Some (sum, max, q)
  | String c p' =>
      let ch := char_code c in
      if ch =? 0 then Some (sum, max, q)
      else if negb (av_isdigit ch) then None
      else init_scan p' (sum + (ch - 48)) (FFMAX (ch - 48) max)
             {| num := num q + (ch - 48); den := den q + 2 |}
  end.

(** The second loop of [init], run when [start_frame != 0]: gives
    [pattern_pos] and [init_len]. *)
Fixpoint init_walk (p : string) (sf nfields pos len : Z) : Z * Z :=
  match p with
  | EmptyString => (pos, len)
  | String c p' =>
      let ch := char_code c in
      if ch =? 0 then (pos, len)
      else
        let nfields := nfields + (ch - 48) in
        let pos := to_uint (pos + 1) in
        if nfields >=? 2 * sf then (pos, nfields - 2 * sf)
        else init_walk p' sf nfields pos len
  end.

Definition init (s : DetelecineContext) : init_result :=
  if strlen (pattern s) =? 0 then InitError NoPatternProvided
  else
    match init_scan (pattern s) 0 0 (pts_mul s) with
    | None => InitError NonNumericPattern
    | Some (sum, max, q) =>
        let s := set_pts_mul s q in
        if start_frame s >=? sum then InitError StartFrameTooBig
        else
          let s := set_nskip_fields s 0 in
          let s := set_pattern_pos s 0 in
          let s := set_start_time s AV_NOPTS_VALUE in
          let s := set_init_len s 0 in
          if negb (start_frame s =? 0) then
            let '(pos, len) :=
              init_walk (pattern s) (start_frame s) 0 (pattern_pos s)
                        (init_len s) in
            InitOk (set_init_len (set_pattern_pos s pos) len)
          else InitOk s
    end.

(** ** config_input *)

Notation "x <- c ;; k" :=
  (match c with Some x => k | None => None end)
  (at level 61, c at next level, right associativity, only parsing).

Record AVPixFmtDescriptor := { log2_chroma_h : Z }.

Section StreamGeometry.

(** The pixel format tables of libavutil, which the filter only reads. *)
Variable av_pix_fmt_desc_get : Z -> option AVPixFmtDescriptor.
(** [av_image_fill_linesizes] gives the four line sizes it writes and its
    return value. *)
Variable av_image_fill_linesizes : Z -> Z -> list Z * Z.
Variable av_pix_fmt_count_planes : Z -> Z.

(** [get_buffer k] is what the [k]-th call of [ff_get_video_buffer]
    returns.  The result is [None] where the C code dereferences a null
    descriptor. *)
Definition config_input (get_buffer : nat -> option AVFrame)
    (s : DetelecineContext) (inlink : AVFilterLink)
  : option (DetelecineContext * Z) :=
  let desc := av_pix_fmt_desc_get (format inlink) in
  let s := set_temp s (get_buffer 0%nat) in
  match temp s with
  | None => Some (s, AVERROR ENOMEM)
  | Some _ =>
  let s := set_frame s (upd_nth (frame s) 0 (get_buffer 1%nat)) in
  match nth 0 (frame s) None with
  | None => Some (s, AVERROR ENOMEM)
  | Some _ =>
  let s := set_frame s (upd_nth (frame s) 1 (get_buffer 2%nat)) in
  match nth 1 (frame s) None with
  | None => Some (s, AVERROR ENOMEM)
  | Some _ =>
  let '(sizes, ret) :=
    av_image_fill_linesizes (format inlink) (w inlink) in
  let s := set_geometry s (nb_planes s) (planeheight s) sizes in
  if ret <? 0 then Some (s, ret)
  else
    d <- desc ;;
    let ch := AV_CEIL_RSHIFT (h inlink) (log2_chroma_h d) in
    let ph := upd_nth (upd_nth (planeheight s) 2 ch) 1 ch in
    let ph := upd_nth (upd_nth ph 3 (h inlink)) 0 (h inlink) in
    let s := set_geometry s (nb_planes s) ph (stride s) in
    let s :=
      set_geometry s (av_pix_fmt_count_planes (format inlink))
                   (planeheight s) (stride s) in
    Some (s, 0)
  end end end.

End StreamGeometry.

(** ** config_output *)

Definition set_rate (l : AVFilterLink) (fr tb : AVRational) : AVFilterLink :=
  {| format := format l; w := w l; h := h l; frame_rate := fr;
     time_base := tb; frame_count_in := frame_count_in l;
     delivered := delivered l |}.

Definition config_output (s : DetelecineContext)
    (inlink outlink : AVFilterLink)
  : DetelecineContext * AVFilterLink * Z :=
  let fps := frame_rate inlink in
  if (num fps =? 0) || (den fps =? 0) then (s, outlink, AVERROR EINVAL)
  else
    let fps := av_mul_q fps (av_inv_q (pts_mul s)) in
    let outlink := set_rate outlink fps (time_base outlink) in
    let outlink :=
      set_rate outlink (frame_rate outlink)
               (av_mul_q (time_base inlink) (pts_mul s)) in
    let s := set_ts_unit s (av_inv_q (av_mul_q fps (time_base outlink))) in
    (s, outlink, 0).

(** ** Plane copies *)

(** [memcpy (dst + d, src + s, n)] on the bytes of two planes. *)
Definition memcpy (dst : list Z) (d : Z) (src : list Z) (s : Z) (n : Z)
  : list Z :=
  firstn (Z.to_nat d) dst
  ++ firstn (Z.to_nat n) (skipn (Z.to_nat s) src)
  ++ skipn (Z.to_nat d + Z.to_nat n) dst.

Fixpoint copy_rows (height : nat) (dst : list Z) (d dst_linesize : Z)
    (src : list Z) (s src_linesize : Z) (bytewidth : Z) : list Z :=
  match height with
  | O => dst
  | S height' =>
      copy_rows height' (memcpy dst d src s bytewidth)
                (d + dst_linesize) dst_linesize
                src (s + src_linesize) src_linesize bytewidth
  end.

(** Modelled from the spec: [av_image_copy_plane] of libavutil/imgutils.c is
    not among the sources.  It copies [height] rows of [bytewidth] bytes,
    from [src + s] to [dst + d], advancing by the two line sizes; the result
    is the destination plane. *)
Definition av_image_copy_plane (dst : list Z) (d dst_linesize : Z)
    (src : list Z) (s src_linesize : Z) (bytewidth height : Z) : list Z :=
  copy_rows (Z.to_nat height) dst d dst_linesize src s src_linesize bytewidth.

Definition set_data (f : AVFrame) (v : list (list Z)) : AVFrame :=
  {| data := v; linesize := linesize f; pts := pts f; props := props f |}.

(** The loop that copies a whole picture, plane by plane, which
    [filter_frame] writes out five times:
    [for (i = 0; i < s->nb_planes; i++) av_image_copy_plane(dst->data[i],
    dst->linesize[i], src->data[i], src->linesize[i], s->stride[i],
    s->planeheight[i]);]
    [copy_planes] is the loop on the three fields of the context it reads. *)
Definition copy_planes (nb_planes : Z) (stride planeheight : list Z)
    (dst src : AVFrame) : AVFrame :=
  fold_left
    (fun (dst : AVFrame) (i : nat) =>
       set_data dst
         (upd_nth (data dst) i
            (av_image_copy_plane
               (nth i (data dst) []) 0 (nth i (linesize dst) 0)
               (nth i (data src) []) 0 (nth i (linesize src) 0)
               (nth i stride 0) (nth i planeheight 0))))
    (seq 0 (Z.to_nat nb_planes)) dst.

Definition copy_picture (s : DetelecineContext) (dst src : AVFrame)
  : AVFrame :=
  copy_planes (nb_planes s) (stride s) (planeheight s) dst src.

(** The loop that builds a frame from two fields: the earlier field from the
    new input frame [inp], the later from the buffered frame [tmp]. *)
Definition weave_planes (first_field nb_planes : Z)
    (stride planeheight : list Z) (dst inp tmp : AVFrame) : AVFrame :=
  fold_left
    (fun (dst : AVFrame) (i : nat) =>
       let ff := first_field in
       let dst :=
         set_data dst
           (upd_nth (data dst) i
              (av_image_copy_plane
                 (nth i (data dst) []) (nth i (linesize dst) 0 * ff)
                 (nth i (linesize dst) 0 * 2)
                 (nth i (data inp) []) (nth i (linesize inp) 0 * ff)
                 (nth i (linesize inp) 0 * 2)
                 (nth i stride 0)
                 (Z.quot (nth i planeheight 0 - ff + 1) 2))) in
       set_data dst
         (upd_nth (data dst) i
            (av_image_copy_plane
               (nth i (data dst) []) (nth i (linesize dst) 0 * lnot ff)
               (nth i (linesize dst) 0 * 2)
               (nth i (data tmp) []) (nth i (linesize tmp) 0 * lnot ff)
               (nth i (linesize tmp) 0 * 2)
               (nth i stride 0)
               (Z.quot (nth i planeheight 0 - lnot ff + 1) 2))))
    (seq 0 (Z.to_nat nb_planes)) dst.

Definition weave_picture (s : DetelecineContext) (dst inp tmp : AVFrame)
  : AVFrame :=
  weave_planes (first_field s) (nb_planes s) (stride s) (planeheight s)
               dst inp tmp.

(** ** filter_frame *)

(** What the framework does during one call: whether the [i]-th
    [av_frame_clone] of the call succeeds, and what the next filter returns
    for the [i]-th frame handed to it. *)
Record call_env := { clone_ok : nat -> bool; next_ret : nat -> Z }.

(** Modelled from the spec: [ff_filter_frame] of libavfilter/avfilter.c is
    not among the sources.  It hands the frame to the next filter and counts
    it in the link; [r] is what the next filter returns. *)
Definition ff_filter_frame (r : Z) (link : AVFilterLink) (f : AVFrame)
  : AVFilterLink * Z :=
  ({| format := format link; w := w link; h := h link;
      frame_rate := frame_rate link; time_base := time_base link;
      frame_count_in := frame_count_in link + 1;
      delivered := delivered link ++ [f] |}, r).

(** The result of a call: the context and the output link after it, the
    return value, and whether the call released the input frame
    ([av_frame_free(&inpicref)]). *)
Record step_result := {
  r_ctx : DetelecineContext;
  r_outlink : AVFilterLink;
  r_ret : Z;
  r_freed : bool
}.

(** The loop [while(!len && s->pattern[s->pattern_pos])]: the new [len] and
    [pattern_pos]; [None] when [fuel] iterations do not end it.  The loop
    needs fuel because the cursor is a 32-bit unsigned: on a run of zeros
    that covers 2^32 characters it wraps and never stops. *)
Fixpoint find_len (fuel : nat) (p : string) (len pos : Z) : option (Z * Z) :=
  match fuel with
  | O => None
  | S fuel' =>
      if (len =? 0) && negb (char_at p pos =? 0) then
        find_len fuel' p (char_at p pos - 48) (to_uint (pos + 1))
      else Some (len, pos)
  end.

(** The fuel [filter_frame] gives the loop: enough whenever the cursor does
    not wrap, see [find_len_total]. *)
Definition find_len_fuel (p : string) : nat := S (Z.to_nat (strlen p)).

(** [if (!s->pattern[s->pattern_pos]) s->pattern_pos = 0;] *)
Definition rewind (s : DetelecineContext) : DetelecineContext :=
  if char_at (pattern s) (pattern_pos s) =? 0 then set_pattern_pos s 0 else s.

(** [((s->start_time == AV_NOPTS_VALUE) ? 0 : s->start_time) +
    av_rescale(outlink->frame_count_in, s->ts_unit.num, s->ts_unit.den)]
    The two terms and their sum are [int64_t].  A sum outside the range of
    the type is kept modulo 2^64, which is what the machine addition gives;
    C leaves it undefined, and the properties of the timestamps below are
    stated for sums within the range. *)
Definition frame_pts (start_time frame_count_in : Z) (ts_unit : AVRational)
  : Z :=
  to_int64
    ((if start_time =? AV_NOPTS_VALUE then 0 else start_time)
     + av_rescale frame_count_in (num ts_unit) (den ts_unit)).

(** The loop at the end of [filter_frame], from index [i] with [n] frames
    left to send: the output link, the return value.  [av_frame_clone] gives
    a new reference to the buffers of [s->frame[i]]; the frame recorded in
    the link is the picture at the moment it is handed over. *)
Fixpoint send_frames (e : call_env) (s : DetelecineContext)
    (inpicref : AVFrame) (n : nat) (i : nat) (outlink : AVFilterLink)
    (ret : Z) : option (AVFilterLink * Z) :=
  match n with
  | O => Some (outlink, ret)
  | S n' =>
      fi <- nth i (frame s) None ;;
      if negb (clone_ok e i) then Some (outlink, AVERROR ENOMEM)
      else
        let f :=
          {| data := data fi; linesize := linesize fi;
             props := props inpicref;
             pts := frame_pts (start_time s) (frame_count_in outlink)
                              (ts_unit s) |} in
        let '(outlink, ret) := ff_filter_frame (next_ret e i) outlink f in
        send_frames e s inpicref n' (S i) outlink ret
  end.

Definition is_set (x : Z) : bool := negb (x =? 0).

(** The block [if (len == 1 && s->occupied) { ... }]: the buffered frame goes
    out as it is and the next [len] is looked up. *)
Definition flush_buffered (s : DetelecineContext) (len : Z) (out : nat)
  : option (DetelecineContext * Z * nat) :=
  if (len =? 1) && is_set (occupied s) then
    let s := set_occupied s 0 in
    fo <- nth out (frame s) None ;;
    t <- temp s ;;
    let s := set_frame s (upd_nth (frame s) out (Some (copy_picture s fo t))) in
    let len := 0 in
    match find_len (find_len_fuel (pattern s)) (pattern s) len (pattern_pos s)
    with
    | None => None
    | Some (len, pos) =>
        let s := rewind (set_pattern_pos s pos) in
        let s := set_occupied s 0 in
        Some (s, len, S out)
    end
  else Some (s, len, out).

(** The block [if (s->occupied) { ... } else { ... }]. *)
Definition build_frame (s : DetelecineContext) (inpicref : AVFrame)
    (len : Z) (out : nat) : option (DetelecineContext * Z * nat) :=
  if is_set (occupied s) then
    fo <- nth out (frame s) None ;;
    t <- temp s ;;
    let s :=
      set_frame s (upd_nth (frame s) out
                     (Some (weave_picture s fo inpicref t))) in
    let s := set_occupied s 0 in
    s <- (if len <=? 2 then
            t <- temp s ;;
            Some (set_occupied
                    (set_temp s (Some (copy_picture s t inpicref))) 1)
          else Some s) ;;
    Some (s, (if len >=? 3 then len - 3 else 0), S out)
  else if len >=? 2 then
    fo <- nth out (frame s) None ;;
    let s :=
      set_frame s (upd_nth (frame s) out (Some (copy_picture s fo inpicref))) in
    Some (s, len - 2, S out)
  else if len =? 1 then
    fo <- nth out (frame s) None ;;
    let s :=
      set_frame s (upd_nth (frame s) out (Some (copy_picture s fo inpicref))) in
    t <- temp s ;;
    let s := set_temp s (Some (copy_picture s t inpicref)) in
    let s := set_occupied s 1 in
    Some (s, len - 1, S out)
  else Some (s, len, out).

(** The end of [filter_frame], from [s->nskip_fields = len;] on. *)
Definition finish (e : call_env) (s : DetelecineContext)
    (outlink : AVFilterLink) (inpicref : AVFrame) (len : Z) (out : nat)
  : option step_result :=
  let s := set_nskip_fields s (to_uint len) in
  match send_frames e s inpicref out 0 outlink 0 with
  | None => None
  | Some (outlink, ret) =>
      Some {| r_ctx := s; r_outlink := outlink; r_ret := ret;
              r_freed := true |}
  end.

(** [if (s->start_time == AV_NOPTS_VALUE) s->start_time = inpicref->pts;]
    [captured_start_time] is the value of [s->start_time] after the
    statement. *)
Definition captured_start_time (start_time pts : Z) : Z :=
  if start_time =? AV_NOPTS_VALUE then pts else start_time.

Definition capture_start_time (s : DetelecineContext) (inpicref : AVFrame)
  : DetelecineContext :=
  set_start_time s (captured_start_time (start_time s) (pts inpicref)).

(** One call of [filter_frame].  The result is [None] when the call does
    not return (the cursor loop runs out of fuel) or when it dereferences a
    buffer that [config_input] has not allocated. *)
Definition filter_frame (e : call_env) (s : DetelecineContext)
    (outlink : AVFilterLink) (inpicref : AVFrame) : option step_result :=
  let s := capture_start_time s inpicref in
  if nskip_fields s >=? 2 then
    let s := set_nskip_fields s (to_uint (nskip_fields s - 2)) in
    Some {| r_ctx := s; r_outlink := outlink; r_ret := 0; r_freed := false |}
  else if nskip_fields s >=? 1 then
    t <- temp s ;;
    let s := set_temp s (Some (copy_picture s t inpicref)) in
    let s := set_occupied s 1 in
    let s := set_nskip_fields s (to_uint (nskip_fields s - 1)) in
    Some {| r_ctx := s; r_outlink := outlink; r_ret := 0; r_freed := false |}
  else if nskip_fields s =? 0 then
    let len := init_len s in
    let s := set_init_len s 0 in
    match find_len (find_len_fuel (pattern s)) (pattern s) len (pattern_pos s)
    with
    | None => None
    | Some (len, pos) =>
        let s := rewind (set_pattern_pos s pos) in
        if len =? 0 then
          Some {| r_ctx := s; r_outlink := outlink; r_ret := 0;
                  r_freed := true |}
        else
          match flush_buffered s len 0 with
          | None => None
          | Some (s, len, out) =>
              match build_frame s inpicref len out with
              | None => None
              | Some (s, len, out) =>
                  if (len =? 1) && is_set (occupied s) then
                    finish e (set_occupied s 0) outlink inpicref (len - 1) out
                  else finish e s outlink inpicref len out
              end
          end
    end
  else finish e s outlink inpicref 0 0.

(** Feeding a list of frames, each with what the framework does during its
    call. *)
Fixpoint run (s : DetelecineContext) (outlink : AVFilterLink)
    (inputs : list (call_env * AVFrame))
  : option (DetelecineContext * AVFilterLink) :=
  match inputs with
  | [] => Some (s, outlink)
  | (e, f) :: rest =>
      match filter_frame e s outlink f with
      | None => None
      | Some r => run (r_ctx r) (r_outlink r) rest
      end
  end.

(** ** Streams: the states the filter can be in *)

(** A context and an output link as they are before the first frame: [init]
    has accepted the options (whose ranges are those of the option table),
    [config_input] and [config_output] have succeeded, and nothing has been
    sent down the output link yet. *)
Definition started (s : DetelecineContext) (outlink : AVFilterLink) : Prop :=
  exists desc_get fill_linesizes count_planes get_buffer
         ff pat sf s1 s2 inlink outlink0,
    0 <= ff <= 1 /\ 0 <= sf <= 13 /\
    init (new_context ff pat sf) = InitOk s1 /\
    config_input desc_get fill_linesizes count_planes get_buffer s1 inlink
      = Some (s2, 0) /\
    frame_count_in outlink0 = 0 /\ delivered outlink0 = [] /\
    config_output s2 inlink outlink0 = (s, outlink, 0).

Inductive reachable : DetelecineContext -> AVFilterLink -> Prop :=
| reachable_start : forall s l, started s l -> reachable s l
| reachable_step : forall s l e f r,
    reachable s l -> filter_frame e s l f = Some r ->
    reachable (r_ctx r) (r_outlink r).

(** The frames a call has sent: those the output link has received since. *)
Definition sent_by (before after : AVFilterLink) : list AVFrame :=
  skipn (List.length (delivered before)) (delivered after).

(** The pattern multiplier of the specification, (sum of the digits) :
    (2 x length), and the exact product of two rationals. *)
Definition pattern_multiplier (pat : string) : AVRational :=
  {| num := digit_sum pat; den := 2 * strlen pat |}.

Definition q_mul (a b : AVRational) : AVRational :=
  {| num := num a * num b; den := den a * den b |}.

(** The byte of a frame at row [r] and column [c] of plane [i]. *)
Definition pixel (f : AVFrame) (i : nat) (r c : Z) : Z :=
  nth (Z.to_nat (r * nth i (linesize f) 0 + c)) (nth i (data f) []) 0.

(** Two frames show the same picture: the same bytes in every row of every
    plane of the stream's geometry. *)
Definition same_picture (s : DetelecineContext) (a b : AVFrame) : Prop :=
  forall i r c,
    (i < Z.to_nat (nb_planes s))%nat ->
    0 <= r < nth i (planeheight s) 0 ->
    0 <= c < nth i (stride s) 0 ->
    pixel a i r c = pixel b i r c.

(** A frame has room for a picture of the stream's geometry. *)
Definition holds_picture (s : DetelecineContext) (f : AVFrame) : Prop :=
  (Z.to_nat (nb_planes s) <= List.length (data f))%nat /\
  forall i,
    (i < Z.to_nat (nb_planes s))%nat ->
    0 <= nth i (stride s) 0 <= nth i (linesize f) 0 /\
    nth i (planeheight s) 0 * nth i (linesize f) 0
      <= Z.of_nat (List.length (nth i (data f) [])).

(** The three picture buffers of the context are allocated. *)
Definition buffers_allocated (s : DetelecineContext) : Prop :=
  temp s <> None /\ nth 0 (frame s) None <> None
  /\ nth 1 (frame s) None <> None.

(** The fields of the context that drive the engine, apart from the picture
    buffers and the geometry. *)
Definition engine_fields (s : DetelecineContext) :=
  (first_field s, pattern s, start_frame s, init_len s, pattern_pos s,
   nskip_fields s, start_time s, pts_mul s, ts_unit s, occupied s).

(** What a call of [filter_frame] leaves as it is: the options, the start
    time once the call has looked at it, the rationals, the geometry, and
    the buffers stay allocated. *)
Definition stable (s s' : DetelecineContext) : Prop :=
  first_field s' = first_field s /\ pattern s' = pattern s
  /\ start_frame s' = start_frame s /\ start_time s' = start_time s
  /\ pts_mul s' = pts_mul s /\ ts_unit s' = ts_unit s
  /\ nb_planes s' = nb_planes s /\ planeheight s' = planeheight s
  /\ stride s' = stride s
  /\ (buffers_allocated s -> buffers_allocated s').

(** The cursor is at a character of the pattern or at its terminator; it is
    at a character while fields are being skipped. *)
Definition cursor_ok (s : DetelecineContext) : Prop :=
  1 <= strlen (pattern s)
  /\ 0 <= pattern_pos s <= strlen (pattern s)
  /\ (nskip_fields s <> 0 -> pattern_pos s < strlen (pattern s)).

(** The start time a frame is stamped with. *)
Definition start_or_zero (s : DetelecineContext) : Z :=
  if start_time s =? AV_NOPTS_VALUE then 0 else start_time s.

(** The frames of a link are counted, and the frame of index [n] is stamped
    [base + av_rescale n u], as an [int64_t]. *)
Definition stamped (base : Z) (u : AVRational) (l : AVFilterLink) : Prop :=
  frame_count_in l = Z.of_nat (List.length (delivered l))
  /\ forall n g, nth_error (delivered l) n = Some g ->
       pts g = to_int64 (base + av_rescale (Z.of_nat n) (num u) (den u)).

(** The timestamp of the first frame of a list of inputs, 0 without one. *)
Definition first_pts (inputs : list (call_env * AVFrame)) : Z :=
  match inputs with
  | [] => 0
  | (_, f) :: _ => pts f
  end.

(** [s->start_time] after calls with the frames of [inputs], from the value
    that [init] gives it: the timestamp of the first frame that has one. *)
Definition start_time_after (inputs : list (call_env * AVFrame)) : Z :=
  fold_left (fun t ef => captured_start_time t (pts (snd ef))) inputs
            AV_NOPTS_VALUE.

(** The start time that the frames sent by the last call of [inputs] are
    stamped with. *)
Definition stamp_base (inputs : list (call_env * AVFrame)) : Z :=
  if start_time_after inputs =? AV_NOPTS_VALUE then 0
  else start_time_after inputs.

(** [av_rescale n u] and its sum with [base] are values of [int64_t]. *)
Definition representable (base : Z) (u : AVRational) (n : nat) : Prop :=
  in_int64 (av_rescale (Z.of_nat n) (num u) (den u))
  /\ in_int64 (base + av_rescale (Z.of_nat n) (num u) (den u)).

(** A frame woven from two: the rows of the first field from [inp], the
    other rows from [tmp]. *)
Definition woven (s : DetelecineContext) (o inp tmp : AVFrame) : Prop :=
  forall i r c,
    (i < Z.to_nat (nb_planes s))%nat ->
    0 <= r < nth i (planeheight s) 0 ->
    0 <= c < nth i (stride s) 0 ->
    pixel o i r c
    = if r mod 2 =? first_field s then pixel inp i r c else pixel tmp i r c.

(** The geometry two contexts share. *)
Definition same_geometry (s s' : DetelecineContext) : Prop :=
  nb_planes s' = nb_planes s /\ planeheight s' = planeheight s
  /\ stride s' = stride s /\ first_field s' = first_field s.

(** The three buffers of the context have room for a picture. *)
Definition buffers_hold (s : DetelecineContext) : Prop :=
  forall b, temp s = Some b \/ In (Some b) (frame s) -> holds_picture s b.

(** Every [av_frame_clone] of the call succeeds. *)
Definition all_cloned (e : call_env) : Prop :=
  forall i, clone_ok e i = true.

(** The frames the output link has received after the inputs. *)
Definition outputs (s : DetelecineContext) (l : AVFilterLink)
    (inputs : list (call_env * AVFrame)) : option (list AVFrame) :=
  match run s l inputs with
  | Some (_, l') => Some (delivered l')
  | None => None
  end.

(** The plane heights [config_input] writes over [l]. *)
Definition set_planeheights (l : list Z) (chroma luma : Z) : list Z :=
  upd_nth (upd_nth (upd_nth (upd_nth l 2 chroma) 1 chroma) 3 luma) 0 luma.

(** ** A small stream for the examples *)

Module Example.

(** Two pixel formats: 0 is yuv420p, 8 is gray8. *)
Definition desc_get (fmt : Z) : option AVPixFmtDescriptor :=
  if fmt =? 0 then Some {| log2_chroma_h := 1 |}
  else if fmt =? 8 then Some {| log2_chroma_h := 0 |}
  else None.

Definition fill_linesizes (fmt width : Z) : list Z * Z :=
  if fmt =? 0 then
    ([width; AV_CEIL_RSHIFT width 1; AV_CEIL_RSHIFT width 1; 0], 0)
  else if fmt =? 8 then ([width; 0; 0; 0], 0)
  else ([0; 0; 0; 0], AVERROR EINVAL).

Definition count_planes (fmt : Z) : Z :=
  if fmt =? 0 then 3 else if fmt =? 8 then 1 else AVERROR EINVAL.

(** A gray8 frame of 2 x 4 pixels whose bytes count up from [b]. *)
Definition gray (b t : Z) : AVFrame :=
  {| data := [[b; b + 1; b + 2; b + 3; b + 4; b + 5; b + 6; b + 7]];
     linesize := [2]; pts := t; props := b |}.

Definition get_buffer (k : nat) : option AVFrame := Some (gray 0 0).

Definition inlink : AVFilterLink :=
  {| format := 8; w := 2; h := 4;
     frame_rate := {| num := 30; den := 1 |};
     time_base := {| num := 1; den := 30 |};
     frame_count_in := 0; delivered := [] |}.

Definition outlink : AVFilterLink :=
  {| format := 8; w := 2; h := 4;
     frame_rate := {| num := 0; den := 1 |};
     time_base := {| num := 0; den := 1 |};
     frame_count_in := 0; delivered := [] |}.

Definition env : call_env :=
  {| clone_ok := fun _ => true; next_ret := fun _ => 0 |}.

(** The filter set up for this stream. *)
Definition setup (ff : Z) (pat : string) (sf : Z)
  : option (DetelecineContext * AVFilterLink) :=
  match init (new_context ff pat sf) with
  | InitError _ => None
  | InitOk s =>
      match config_input desc_get fill_linesizes count_planes get_buffer
                         s inlink with
      | Some (s, 0) =>
          let '(s, l, ret) := config_output s inlink outlink in
          if ret =? 0 then Some (s, l) else None
      | _ => None
      end
  end.

(** The context after [init]. *)
Definition initialized (ff : Z) (pat : string) (sf : Z)
  : DetelecineContext :=
  match init (new_context ff pat sf) with
  | InitError _ => new_context ff pat sf
  | InitOk s => s
  end.

(** The context after [init] and [config_input]. *)
Definition configured (ff : Z) (pat : string) (sf : Z)
  : DetelecineContext :=
  match init (new_context ff pat sf) with
  | InitError _ => new_context ff pat sf
  | InitOk s =>
      match config_input desc_get fill_linesizes count_planes get_buffer
                         s inlink with
      | Some (s', _) => s'
      | None => s
      end
  end.

(** The filter after the frames [fs]. *)
Definition feed (ff : Z) (pat : string) (sf : Z) (fs : list AVFrame)
  : option (DetelecineContext * AVFilterLink) :=
  match setup ff pat sf with
  | None => None
  | Some (s, l) => run s l (map (fun f => (env, f)) fs)
  end.

Definition ctx_after (ff : Z) (pat : string) (sf : Z) (fs : list AVFrame)
  : DetelecineContext :=
  match feed ff pat sf fs with
  | Some (s, _) => s
  | None => new_context ff pat sf
  end.

Definition link_after (ff : Z) (pat : string) (sf : Z) (fs : list AVFrame)
  : AVFilterLink :=
  match feed ff pat sf fs with
  | Some (_, l) => l
  | None => outlink
  end.

End Example.

(** ** Definitions for the further properties *)

(** The fields of the first [k] characters of the pattern: the sum of their
    digit values. *)
Fixpoint fields_before (p : string) (k : nat) : Z :=
  match k, p with
  | S k', String c p' =>
      if char_code c =? 0 then 0 else (char_code c - 48) + fields_before p' k'
  | _, _ => 0
  end.

(** The counters of the engine stay in range: at most 7 fields to skip, the
    buffer flag 0 or 1, at most 8 stray fields, none while fields are
    skipped; the pattern has digits only. *)
Definition engine_bounds (s : DetelecineContext) : Prop :=
  0 <= nskip_fields s <= 7
  /\ (occupied s = 0 \/ occupied s = 1)
  /\ 0 <= init_len s <= 8
  /\ (nskip_fields s <> 0 -> init_len s = 0)
  /\ all_digits (pattern s) = true.

(** The frame [send_frames] hands to the next filter for the buffer [b]
    during a call with the input frame [inpicref]. *)
Definition sent_frame (s : DetelecineContext) (l : AVFilterLink)
    (inpicref b : AVFrame) : AVFrame :=
  {| data := data b; linesize := linesize b; props := props inpicref;
     pts := frame_pts (start_time s) (frame_count_in l) (ts_unit s) |}.

(** [holds_picture] and [buffers_hold] as tests. *)
Definition fits (s : DetelecineContext) (f : AVFrame) : bool :=
  (Z.to_nat (nb_planes s) <=? List.length (data f))%nat
  && forallb
       (fun i =>
          (0 <=? nth i (stride s) 0)
          && (nth i (stride s) 0 <=? nth i (linesize f) 0)
          && (nth i (planeheight s) 0 * nth i (linesize f) 0
              <=? Z.of_nat (List.length (nth i (data f) []))))
       (seq 0 (Z.to_nat (nb_planes s))).

Definition buffers_fit (s : DetelecineContext) : bool :=
  forallb (fun o => match o with Some b => fits s b | None => true end)
          (temp s :: frame s).

(** A pattern of entries '2' only: every frame has its two fields. *)
Fixpoint all_twos (p : string) : bool :=
  match p with
  | EmptyString => true
  | String c p' =>
      if char_code c =? 0 then true else (char_code c =? 50) && all_twos p'
  end.

(** ** query_formats *)

(** Modelled from the spec: the flag bits of a pixel format descriptor are
    those of libavutil/pixdesc.h, which is not among the sources. *)
Definition AV_PIX_FMT_FLAG_PAL : Z := Z.shiftl 1 1.
Definition AV_PIX_FMT_FLAG_BITSTREAM : Z := Z.shiftl 1 2.
Definition AV_PIX_FMT_FLAG_HWACCEL : Z := Z.shiftl 1 3.

(** [desc->flags & AV_PIX_FMT_FLAG_HWACCEL || desc->flags &
    AV_PIX_FMT_FLAG_PAL || desc->flags & AV_PIX_FMT_FLAG_BITSTREAM] *)
Definition packs_unconventionally (flags : Z) : bool :=
  negb (Z.land flags AV_PIX_FMT_FLAG_HWACCEL =? 0)
  || negb (Z.land flags AV_PIX_FMT_FLAG_PAL =? 0)
  || negb (Z.land flags AV_PIX_FMT_FLAG_BITSTREAM =? 0).

Section Formats.

(** The [flags] of the descriptor [av_pix_fmt_desc_get] gives for a pixel
    format, [None] where it gives NULL. *)
Variable desc_flags : Z -> option Z.
(** What [ff_add_format] returns when it is asked to add a format. *)
Variable add_ret : Z -> Z.
(** What [ff_set_common_formats] returns for a list of formats. *)
Variable set_common_ret : list Z -> Z.

(** Modelled from the spec: [ff_add_format] of libavfilter/formats.c is not
    among the sources.  It appends the format to the list and returns 0, or
    returns a negative error code. *)
Definition ff_add_format (pix_fmts : list Z) (fmt : Z) : list Z * Z :=
  let ret := add_ret fmt in
  if ret <? 0 then (pix_fmts, ret) else (pix_fmts ++ [fmt], ret).

(** The loop [for (fmt = 0; av_pix_fmt_desc_get(fmt); fmt++)] of
    [query_formats] from [fmt] on, and the call of
    [ff_set_common_formats] behind it: the list handed to
    [ff_set_common_formats], if the function gets there, and the return
    value.  The result is [None] when [fuel] formats do not end the
    loop. *)
Fixpoint query_formats_from (fuel : nat) (fmt : Z) (pix_fmts : list Z)
  : option (option (list Z) * Z) :=
  match fuel with
  | O => None
  | S fuel' =>
      match desc_flags fmt with
      | None => Some (Some pix_fmts, set_common_ret pix_fmts)
      | Some flags =>
          if negb (packs_unconventionally flags) then
            let '(pix_fmts, ret) := ff_add_format pix_fmts fmt in
            if ret <? 0 then Some (None, ret)
            else query_formats_from fuel' (fmt + 1) pix_fmts
          else query_formats_from fuel' (fmt + 1) pix_fmts
      end
  end.

Definition query_formats (fuel : nat) : option (option (list Z) * Z) :=
  query_formats_from fuel 0 [].

(** The formats the filter takes: those with a descriptor whose flags have
    none of the three bits. *)
Definition conventional (fmt : Z) : bool :=
  match desc_flags fmt with
  | Some flags => negb (packs_unconventionally flags)
  | None => false
  end.

(** The formats [fmt], [fmt + 1], ..., [fmt + n - 1]. *)
Definition formats_from (fmt : Z) (n : nat) : list Z :=
  map (fun i => fmt + Z.of_nat i) (seq 0 n).

End Formats.

(** A table of eight formats for the examples: planar YUV, packed YUV, RGB,
    gray, a bitstream format, a palette format with alpha, a hardware
    format and a big-endian planar format. *)
Module ExampleFormats.

Definition desc_flags (fmt : Z) : option Z :=
  nth (Z.to_nat fmt)
      (if fmt <? 0 then []
       else [Some 16; Some 0; Some 32; Some 0; Some 4; Some 130; Some 8;
             Some 17])
      None.

Definition add_ok (fmt : Z) : Z := 0.

Definition add_fails_at (bad fmt : Z) : Z :=
  if fmt =? bad then AVERROR ENOMEM else 0.

Definition set_common_ok (pix_fmts : list Z) : Z := 0.

End ExampleFormats.

(** ** The accounts of the engine *)

(** The number of fields of the pattern entry [i], the pattern being read
    cyclically as the cursor reads it. *)
Definition entry (p : string) (i : Z) : Z := char_at p (i mod strlen p) - 48.

(** The fields of the [k] entries from the entry [i] on. *)
Fixpoint fields_from (p : string) (i : Z) (k : nat) : Z :=
  match k with
  | O => 0
  | S k' => entry p i + fields_from p (i + 1) k'
  end.

(** A pattern of the digits 1 to 9. *)
Fixpoint no_zero (p : string) : bool :=
  match p with
  | EmptyString => true
  | String c p' =>
      if char_code c =? 0 then true
      else (49 <=? char_code c) && (char_code c <=? 57) && no_zero p'
  end.

(** The engine between two calls, for a stream with the pattern and the
    geometry of [g]; [prev] is the input frame of the call before.  The
    buffers have room for a picture, the stray fields are used up, the
    cursor is on an entry, a frame is buffered only while no field is left
    to skip, and the buffered frame shows the picture of [prev]. *)
Definition between_calls (g s : DetelecineContext) (prev : AVFrame) : Prop :=
  same_geometry g s /\ pattern s = pattern g
  /\ buffers_allocated s
  /\ (forall b, temp s = Some b \/ In (Some b) (frame s) -> holds_picture g b)
  /\ init_len s = 0
  /\ 0 <= pattern_pos s < strlen (pattern g)
  /\ 0 <= nskip_fields s <= 7
  /\ (occupied s = 0 \/ occupied s = 1)
  /\ (nskip_fields s <> 0 -> occupied s = 0)
  /\ (occupied s = 1 -> exists t, temp s = Some t /\ same_picture g t prev).

(** What a call with the input frame [f] has done when it has taken the
    engine from [s] to [s'] and sent the frames [new]: it has passed one
    pattern entry per frame sent, and the fields of these entries are the
    two fields of [f], the field that was buffered and the fields it no
    longer has to skip, less the field it has buffered and the fields it
    has left to skip.  Every frame sent shows [f], or, when a frame was
    buffered, [prev] or the first field of [f] woven with the second of
    [prev]. *)
Definition call_accounts (g s : DetelecineContext) (prev f : AVFrame)
    (s' : DetelecineContext) (new : list AVFrame) : Prop :=
  between_calls g s' f
  /\ pattern_pos s'
     = (pattern_pos s + Z.of_nat (List.length new)) mod strlen (pattern g)
  /\ fields_from (pattern g) (pattern_pos s) (List.length new)
     = 2 + nskip_fields s' - nskip_fields s + occupied s - occupied s'
  /\ Forall (fun o =>
               props o = props f
               /\ (same_picture g o f
                   \/ (occupied s = 1
                       /\ (same_picture g o prev \/ woven g o f prev))))
            new.

(** A frame made of the input frames [fs]: it shows one of them, or the
    first field of one woven with the second field of the one before it. *)
Definition from_inputs (g : DetelecineContext) (fs : list AVFrame)
    (o : AVFrame) : Prop :=
  exists i f,
    nth_error fs i = Some f
    /\ (same_picture g o f
        \/ exists f', nth_error fs (S i) = Some f' /\ woven g o f' f).

(** The accounts of a stream after the calls [done]: the entries passed,
    one per frame sent, have as many fields as the input frames, two each,
    less the fields left to skip plus the field that is buffered. *)
Definition stream_accounts (g : DetelecineContext)
    (done : list (call_env * AVFrame))
    (s : DetelecineContext) (l : AVFilterLink) : Prop :=
  2 * Z.of_nat (List.length done)
  = fields_from (pattern g) 0 (List.length (delivered l))
    - nskip_fields s + occupied s
  /\ pattern_pos s
     = Z.of_nat (List.length (delivered l)) mod strlen (pattern g)
  /\ (occupied s = 1 -> done <> [])
  /\ Forall (from_inputs g (map snd done)) (delivered l).

(** The frame without planes, for want of an input frame. *)
Definition no_frame : AVFrame :=
  {| data := []; linesize := []; pts := 0; props := 0 |}.

(** * Properties *)

(** ** The pattern as a C string *)

Lemma strlen_nonneg : forall p, 0 <= strlen p.
Proof.
  induction p as [|c p IH]; cbn [strlen]; [lia|].
  destruct (char_code c =? 0); lia.
Qed.

Lemma char_at_strlen : forall p, char_at p (strlen p) = 0.
Proof.
  unfold char_at.
  induction p as [|c p IH]; cbn [strlen]; [reflexivity|].
  destruct (char_code c =? 0) eqn:E.
  - simpl. now apply Z.eqb_eq in E.
  - pose proof (strlen_nonneg p).
    replace (Z.to_nat (1 + strlen p)) with (S (Z.to_nat (strlen p))) by lia.
    exact IH.
Qed.

Lemma char_at_cursor : forall p i,
  0 <= i <= strlen p -> char_at p i <> 0 -> i < strlen p.
Proof.
  intros p i Hi Hc.
  destruct (Z.eq_dec i (strlen p)) as [->|]; [|lia].
  now rewrite char_at_strlen in Hc.
Qed.

Lemma to_uint_succ : forall n i, 0 <= i < n -> 0 <= to_uint (i + 1) <= n.
Proof.
  intros n i Hi. unfold to_uint.
  pose proof (Z.mod_pos_bound (i + 1) (2 ^ 32) ltac:(lia)).
  pose proof (Z.mod_le (i + 1) (2 ^ 32) ltac:(lia) ltac:(lia)).
  lia.
Qed.

Lemma to_uint_small : forall x, 0 <= x < 2 ^ 32 -> to_uint x = x.
Proof. intros x Hx. unfold to_uint. now apply Z.mod_small. Qed.

(** ** init *)

Lemma init_scan_sum : forall p sum max q sum' max' q',
  init_scan p sum max q = Some (sum', max', q') ->
  sum' = sum + digit_sum p /\
  num q' = num q + digit_sum p /\
  den q' = den q + 2 * strlen p /\
  0 <= digit_sum p.
Proof.
  induction p as [|c p IH]; cbn [init_scan digit_sum strlen];
    intros sum max q sum' max' q' H.
  - inversion H; subst. lia.
  - destruct (char_code c =? 0).
    + inversion H; subst. lia.
    + destruct (av_isdigit (char_code c)) eqn:D; cbn [negb] in H;
        [|discriminate].
      apply IH in H. cbn [num den] in H.
      unfold av_isdigit in D. apply andb_true_iff in D.
      destruct D as [D1 D2]. apply Z.leb_le in D1. lia.
Qed.

Lemma init_scan_digits : forall p sum max q,
  init_scan p sum max q <> None <-> all_digits p = true.
Proof.
  induction p as [|c p IH]; simpl; intros sum max q.
  - split; [reflexivity | discriminate].
  - destruct (char_code c =? 0); [split; [reflexivity | discriminate]|].
    destruct (av_isdigit (char_code c)); simpl.
    + apply IH.
    + split; [congruence | discriminate].
Qed.

Lemma init_walk_cursor : forall p sf nfields pos len pos' len',
  init_walk p sf nfields pos len = (pos', len') ->
  0 <= pos -> 0 <= pos' <= pos + strlen p.
Proof.
  induction p as [|c p IH]; cbn [init_walk strlen];
    intros sf nfields pos len pos' len' H Hp.
  - inversion H; subst. lia.
  - destruct (char_code c =? 0).
    + inversion H; subst. lia.
    + pose proof (strlen_nonneg p).
      pose proof (@to_uint_succ (pos + 1) pos ltac:(lia)).
      destruct (_ >=? _).
      * inversion H; subst. lia.
      * apply IH in H; lia.
Qed.

(** What a context that [init] accepted looks like. *)
Lemma init_ok : forall ff pat sf s,
  init (new_context ff pat sf) = InitOk s ->
  pattern s = pat /\ first_field s = ff /\ start_frame s = sf /\
  1 <= strlen pat /\ all_digits pat = true /\ sf < digit_sum pat /\
  pts_mul s = pattern_multiplier pat /\
  nskip_fields s = 0 /\ start_time s = AV_NOPTS_VALUE /\ occupied s = 0 /\
  0 <= pattern_pos s <= strlen pat /\
  temp s = None /\ frame s = [None; None].
Proof.
  intros ff pat sf s. unfold init. cbn -[init_scan init_walk Z.add Z.mul].
  destruct (strlen pat =? 0) eqn:L; [discriminate|].
  apply Z.eqb_neq in L. pose proof (strlen_nonneg pat).
  destruct (init_scan pat 0 0 _) as [[[sum max] q]|] eqn:S; [|discriminate].
  assert (D : all_digits pat = true)
    by (eapply init_scan_digits; rewrite S; discriminate).
  apply init_scan_sum in S. cbn [num den] in S. destruct S as (-> & Hn & Hd & Hs).
  assert (Q : q = pattern_multiplier pat)
    by (destruct q; unfold pattern_multiplier; cbn [num den] in *; f_equal; lia).
  destruct (sf >=? 0 + digit_sum pat) eqn:G; [discriminate|].
  rewrite Z.geb_leb in G. apply Z.leb_gt in G.
  destruct (sf =? 0); cbn [negb].
  - intros E. inversion E; subst; cbn. repeat split; try lia; auto.
  - destruct (init_walk pat sf 0 0 0) as [pos len] eqn:W.
    apply init_walk_cursor in W; [|lia].
    intros E. inversion E; subst; cbn. repeat split; try lia; auto.
Qed.

(** [init] reports a start frame that is too big exactly when it reaches the
    sum of the digits. *)
Lemma init_start_frame_too_big : forall ff pat sf,
  1 <= strlen pat -> all_digits pat = true ->
  (init (new_context ff pat sf) = InitError StartFrameTooBig
   <-> digit_sum pat <= sf).
Proof.
  intros ff pat sf L D. unfold init.
  cbn -[init_scan init_walk Z.add Z.mul].
  destruct (strlen pat =? 0) eqn:E; [apply Z.eqb_eq in E; lia|].
  destruct (init_scan pat 0 0 _) as [[[sum max] q]|] eqn:S.
  - apply init_scan_sum in S. destruct S as (-> & _).
    rewrite Z.geb_leb.
    destruct (0 + digit_sum pat <=? sf) eqn:G.
    + apply Z.leb_le in G. split; [lia | reflexivity].
    + apply Z.leb_gt in G.
      split; [|lia].
      destruct (negb (sf =? 0)); [|discriminate].
      destruct (init_walk pat sf 0 0 0); discriminate.
  - exfalso. revert S. apply init_scan_digits. exact D.
Qed.

(** ** Rationals *)

Lemma av_mul_q_exact : forall b c,
  den b <> 0 -> den c <> 0 -> q_eq (av_mul_q b c) (q_mul b c).
Proof.
  intros [nb db] [nc dc]. unfold q_eq, av_mul_q, q_mul. cbn [num den].
  intros Hb Hc.
  set (n := nb * nc). set (d := db * dc).
  assert (Hd : d <> 0) by (unfold d; nia).
  pose proof (Z.gcd_nonneg n d) as Hg.
  assert (Hg0 : Z.gcd n d <> 0).
  { intros G. apply Z.gcd_eq_0_r in G. contradiction. }
  destruct (Z.gcd_divide_l n d) as [n' Hn'].
  destruct (Z.gcd_divide_r n d) as [d' Hd'].
  set (g := Z.gcd n d) in *.
  assert (An : Z.abs n / g = Z.abs n').
  { rewrite Hn', Z.abs_mul, (Z.abs_eq g) by lia. now apply Z.div_mul. }
  assert (Ad : Z.abs d / g = Z.abs d').
  { rewrite Hd', Z.abs_mul, (Z.abs_eq g) by lia. now apply Z.div_mul. }
  rewrite An, Ad.
  assert (d' <> 0) by (intros ->; lia).
  repeat split; [lia | exact Hd |].
  destruct (n <? 0) eqn:Sn; destruct (d <? 0) eqn:Sd; cbn [xorb];
    [apply Z.ltb_lt in Sn | apply Z.ltb_lt in Sn | apply Z.ltb_ge in Sn
     | apply Z.ltb_ge in Sn];
    [apply Z.ltb_lt in Sd | apply Z.ltb_ge in Sd | apply Z.ltb_lt in Sd
     | apply Z.ltb_ge in Sd].
  - rewrite (Z.abs_neq n'), (Z.abs_neq d') by nia. rewrite Hn', Hd'. ring.
  - rewrite (Z.abs_neq n'), (Z.abs_eq d') by nia. rewrite Hn', Hd'. ring.
  - rewrite (Z.abs_eq n'), (Z.abs_neq d') by nia. rewrite Hn', Hd'. ring.
  - rewrite (Z.abs_eq n'), (Z.abs_eq d') by nia. rewrite Hn', Hd'. ring.
Qed.

Lemma av_mul_q_positive : forall b c,
  0 < num b -> 0 < den b -> 0 < num c -> 0 < den c ->
  0 < num (av_mul_q b c) /\ 0 < den (av_mul_q b c).
Proof.
  intros [nb db] [nc dc]. unfold av_mul_q. cbn [num den].
  intros Hnb Hdb Hnc Hdc.
  set (n := nb * nc). set (d := db * dc).
  assert (Hn : 0 < n) by (unfold n; nia).
  assert (Hd : 0 < d) by (unfold d; nia).
  pose proof (Z.gcd_nonneg n d) as Hg.
  assert (Hg0 : Z.gcd n d <> 0).
  { intros G. apply Z.gcd_eq_0_r in G. lia. }
  destruct (Z.gcd_divide_l n d) as [n' Hn'].
  destruct (Z.gcd_divide_r n d) as [d' Hd'].
  set (g := Z.gcd n d) in *.
  replace (n <? 0) with false by (symmetry; apply Z.ltb_ge; lia).
  replace (d <? 0) with false by (symmetry; apply Z.ltb_ge; lia).
  cbn [xorb].
  rewrite (Z.abs_eq n), (Z.abs_eq d) by lia.
  rewrite Hn' at 1. rewrite Hd' at 1.
  rewrite !Z.div_mul by lia. nia.
Qed.

(** ** config_input and config_output *)

Lemma config_input_engine :
  forall desc_get fill count get_buffer s inlink s' ret,
    config_input desc_get fill count get_buffer s inlink = Some (s', ret) ->
    engine_fields s' = engine_fields s
    /\ (ret = 0 -> buffers_allocated s').
Proof.
  intros desc_get fill count get_buffer s inlink s' ret.
  unfold config_input, buffers_allocated.
  cbn [temp set_temp frame set_frame].
  destruct (get_buffer 0%nat) as [b0|] eqn:B0;
    [|intros H; inversion H; subst; split;
      [reflexivity | unfold AVERROR, ENOMEM; lia]].
  destruct (nth 0 (upd_nth (frame s) 0 (get_buffer 1%nat)) None)
    as [b1|] eqn:B1;
    [|intros H; inversion H; subst; split;
      [reflexivity | unfold AVERROR, ENOMEM; lia]].
  destruct (nth 1 (upd_nth (upd_nth (frame s) 0 (get_buffer 1%nat)) 1
                     (get_buffer 2%nat)) None) as [b2|] eqn:B2;
    [|intros H; inversion H; subst; split;
      [reflexivity | unfold AVERROR, ENOMEM; lia]].
  destruct (fill (format inlink) (w inlink)) as [sizes r].
  destruct (r <? 0) eqn:R.
  - apply Z.ltb_lt in R.
    intros H; inversion H; subst; split; [reflexivity | lia].
  - destruct (desc_get (format inlink)) as [d|]; [|discriminate].
    intros H; inversion H; subst. cbn. split; [reflexivity|].
    intros _. rewrite B2. repeat split; try discriminate.
    destruct (frame s) as [|x [|y t]]; cbn in *; congruence.
Qed.

Lemma config_output_engine : forall s inlink outlink s' outlink' ret,
  config_output s inlink outlink = (s', outlink', ret) ->
  (first_field s', pattern s', start_frame s', init_len s', pattern_pos s',
   nskip_fields s', start_time s', pts_mul s', occupied s')
  = (first_field s, pattern s, start_frame s, init_len s, pattern_pos s,
     nskip_fields s, start_time s, pts_mul s, occupied s)
  /\ temp s' = temp s /\ frame s' = frame s
  /\ nb_planes s' = nb_planes s /\ planeheight s' = planeheight s
  /\ stride s' = stride s
  /\ frame_count_in outlink' = frame_count_in outlink
  /\ delivered outlink' = delivered outlink.
Proof.
  intros s inlink outlink s' outlink' ret. unfold config_output.
  destruct (_ || _); intros H; inversion H; subst; cbn; repeat split.
Qed.

(** For positive rates the frame interval [config_output] derives is a
    positive rational. *)
Lemma config_output_ts_unit : forall s inlink outlink,
  0 < num (pts_mul s) -> 0 < den (pts_mul s) ->
  0 < num (frame_rate inlink) -> 0 < den (frame_rate inlink) ->
  0 < num (time_base inlink) -> 0 < den (time_base inlink) ->
  exists s' outlink',
    config_output s inlink outlink = (s', outlink', 0)
    /\ 0 < num (ts_unit s') /\ 0 < den (ts_unit s').
Proof.
  intros s inlink outlink Pn Pd Rn Rd Tn Td. unfold config_output.
  replace ((num (frame_rate inlink) =? 0) || (den (frame_rate inlink) =? 0))
    with false
    by (symmetry; apply orb_false_iff; split; apply Z.eqb_neq; lia).
  eexists _, _. split; [reflexivity|].
  cbn [ts_unit set_ts_unit time_base frame_rate set_rate av_inv_q num den].
  assert (F : 0 < num (av_mul_q (frame_rate inlink) (av_inv_q (pts_mul s)))
              /\ 0 < den (av_mul_q (frame_rate inlink)
                                   (av_inv_q (pts_mul s))))
    by (apply av_mul_q_positive; cbn [av_inv_q num den]; lia).
  assert (T : 0 < num (av_mul_q (time_base inlink) (pts_mul s))
              /\ 0 < den (av_mul_q (time_base inlink) (pts_mul s)))
    by (apply av_mul_q_positive; lia).
  destruct (av_mul_q_positive _ _ (proj1 F) (proj2 F) (proj1 T) (proj2 T)).
  lia.
Qed.

(** C1, as the code has it.  For a pattern that [init] accepted, with digit
    sum S and length L, and an input link with a constant frame rate r and a
    time base t, [config_output] succeeds; the output frame rate is
    r x (2L : S), the input rate multiplied by the inverse of the pattern
    multiplier S : 2L, and the output time base is t x (S : 2L), both as
    exact rationals. *)
Theorem config_output_rates :
  forall desc_get fill count get_buffer ff pat sf s1 s2 inlink outlink,
    0 <= sf ->
    init (new_context ff pat sf) = InitOk s1 ->
    config_input desc_get fill count get_buffer s1 inlink = Some (s2, 0) ->
    num (frame_rate inlink) <> 0 -> den (frame_rate inlink) <> 0 ->
    den (time_base inlink) <> 0 ->
    exists s3 outlink',
      config_output s2 inlink outlink = (s3, outlink', 0)
      /\ q_eq (frame_rate outlink')
              (q_mul (frame_rate inlink) (av_inv_q (pattern_multiplier pat)))
      /\ q_eq (time_base outlink')
              (q_mul (time_base inlink) (pattern_multiplier pat)).
Proof.
  intros desc_get fill count get_buffer ff pat sf s1 s2 inlink outlink
         Hsf Hinit Hcfg Hn Hd Ht.
  apply init_ok in Hinit.
  destruct Hinit as (_ & _ & _ & HL & _ & HS & HQ & _).
  apply config_input_engine in Hcfg. destruct Hcfg as [Heng _].
  assert (HQ2 : pts_mul s2 = pattern_multiplier pat).
  { unfold engine_fields in Heng. inversion Heng. congruence. }
  unfold config_output.
  replace ((num (frame_rate inlink) =? 0) || (den (frame_rate inlink) =? 0))
    with false
    by (symmetry; apply orb_false_iff; split; now apply Z.eqb_neq).
  eexists _, _. split; [reflexivity|].
  cbn [frame_rate time_base set_rate]. rewrite HQ2.
  split; apply av_mul_q_exact; auto;
    unfold pattern_multiplier, av_inv_q; cbn [num den]; lia.
Qed.

(** C1, witness: the pattern "23" on a stream of 30 frames per second. *)
Lemma config_output_rates_witness :
  exists s3 outlink',
    config_output (Example.configured 0 "23" 0)
                  Example.inlink Example.outlink = (s3, outlink', 0)
    /\ q_eq (frame_rate outlink')
            (q_mul (frame_rate Example.inlink)
                   (av_inv_q (pattern_multiplier "23")))
    /\ q_eq (time_base outlink')
            (q_mul (time_base Example.inlink) (pattern_multiplier "23")).
Proof.
  eapply (@config_output_rates Example.desc_get Example.fill_linesizes
            Example.count_planes Example.get_buffer 0 "23" 0).
  - lia.
  - vm_compute. reflexivity.
  - vm_compute. reflexivity.
  - vm_compute. discriminate.
  - vm_compute. discriminate.
  - vm_compute. discriminate.
Defined.

(** C1, counterexample: with the pattern "23" (S = 5, L = 2) and 30 frames
    per second in a time base of 1/30, the output frame rate is 24, not
    30 x 5/4, and the output time base is 1/24, not 1/30 x 4/5. *)
Lemma config_output_rate_is_not_multiplied :
  match Example.setup 0 "23" 0 with
  | Some (_, l) =>
      frame_rate l = {| num := 24; den := 1 |}
      /\ time_base l = {| num := 1; den := 24 |}
      /\ ~ q_eq (frame_rate l)
             (q_mul (frame_rate Example.inlink) (pattern_multiplier "23"))
      /\ ~ q_eq (time_base l)
             (q_mul (time_base Example.inlink)
                    (av_inv_q (pattern_multiplier "23")))
  | None => False
  end.
Proof.
  vm_compute. repeat split; intros (_ & _ & H); discriminate H.
Qed.

(** ** The cursor loop *)

Lemma find_len_cursor : forall fuel p len pos len' pos',
  find_len fuel p len pos = Some (len', pos') ->
  0 <= pos <= strlen p -> 0 <= pos' <= strlen p.
Proof.
  induction fuel as [|fuel IH]; cbn [find_len]; intros p len pos len' pos' H Hp;
    [discriminate|].
  destruct ((len =? 0) && negb (char_at p pos =? 0)) eqn:C.
  - apply andb_true_iff in C. destruct C as [_ C].
    apply negb_true_iff, Z.eqb_neq in C.
    apply IH in H; [exact H|].
    apply to_uint_succ. split; [lia|]. now apply char_at_cursor.
  - inversion H; subst. exact Hp.
Qed.

Lemma find_len_total : forall fuel p len pos,
  strlen p < 2 ^ 32 -> 0 <= pos <= strlen p ->
  strlen p - pos < Z.of_nat fuel ->
  exists r, find_len fuel p len pos = Some r.
Proof.
  induction fuel as [|fuel IH]; cbn [find_len]; intros p len pos L Hp Hf;
    [lia|].
  destruct ((len =? 0) && negb (char_at p pos =? 0)) eqn:C; [|eauto].
  apply andb_true_iff in C. destruct C as [_ C].
  apply negb_true_iff, Z.eqb_neq in C.
  pose proof (char_at_cursor p Hp C).
  rewrite to_uint_small by lia.
  apply IH; lia.
Qed.

Lemma find_len_fuel_enough : forall p len pos,
  strlen p < 2 ^ 32 -> 0 <= pos <= strlen p ->
  exists r, find_len (find_len_fuel p) p len pos = Some r.
Proof.
  intros p len pos L Hp. apply find_len_total; auto.
  unfold find_len_fuel. lia.
Qed.

(** ** The blocks of filter_frame *)

Ltac break_hyp H :=
  match type of H with
  | context [match ?x with _ => _ end] =>
      lazymatch x with
      | context [match _ with _ => _ end] => fail
      | _ => let E := fresh "E" in destruct x eqn:E; try discriminate H
      end
  end.

Lemma stable_refl : forall s, stable s s.
Proof. unfold stable. intuition. Qed.

Lemma stable_trans : forall a b c, stable a b -> stable b c -> stable a c.
Proof. unfold stable. intros a b c H1 H2. intuition congruence. Qed.

Lemma nth_upd_nth_allocated : forall (l : list (option AVFrame)) i j x,
  nth i l None <> None -> nth i (upd_nth l j (Some x)) None <> None.
Proof.
  induction l as [|y l IH]; intros i j x H; [exact H|].
  destruct j, i; cbn in *; try discriminate; auto.
Qed.

Lemma stable_set_frame : forall s s0 j x,
  frame s0 = frame s ->
  stable s (set_frame s (upd_nth (frame s0) j (Some x))).
Proof.
  unfold stable, buffers_allocated. intros s s0 j x ->. cbn.
  repeat split; try tauto; apply nth_upd_nth_allocated; tauto.
Qed.

Lemma stable_set_temp : forall s x, stable s (set_temp s (Some x)).
Proof.
  unfold stable, buffers_allocated. intros s x. cbn.
  repeat split; try tauto. discriminate.
Qed.

Lemma stable_set_occupied : forall s v, stable s (set_occupied s v).
Proof. unfold stable, buffers_allocated. intros. cbn. tauto. Qed.

Lemma stable_set_pattern_pos : forall s v, stable s (set_pattern_pos s v).
Proof. unfold stable, buffers_allocated. intros. cbn. tauto. Qed.

Lemma stable_set_nskip_fields : forall s v, stable s (set_nskip_fields s v).
Proof. unfold stable, buffers_allocated. intros. cbn. tauto. Qed.

Lemma stable_set_init_len : forall s v, stable s (set_init_len s v).
Proof. unfold stable, buffers_allocated. intros. cbn. tauto. Qed.

Lemma stable_rewind : forall s, stable s (rewind s).
Proof.
  intros s. unfold rewind.
  destruct (_ =? 0); [apply stable_set_pattern_pos | apply stable_refl].
Qed.

Ltac stable_step :=
  first [ (apply stable_set_frame; reflexivity) | apply stable_set_temp
        | apply stable_set_occupied | apply stable_set_pattern_pos
        | apply stable_set_nskip_fields | apply stable_set_init_len
        | apply stable_rewind ].

Ltac stable_chain :=
  repeat first
    [ apply stable_refl | (eapply stable_trans; [|stable_step]) ].

Lemma rewind_cursor : forall s pos,
  1 <= strlen (pattern s) -> 0 <= pos <= strlen (pattern s) ->
  0 <= pattern_pos (rewind (set_pattern_pos s pos)) < strlen (pattern s).
Proof.
  intros s pos L Hp. unfold rewind. cbn [pattern pattern_pos set_pattern_pos].
  destruct (char_at (pattern s) pos =? 0) eqn:C; cbn; [lia|].
  apply Z.eqb_neq in C. split; [lia|]. now apply char_at_cursor.
Qed.

Lemma flush_buffered_spec : forall s len out s' len' out',
  flush_buffered s len out = Some (s', len', out') ->
  stable s s'
  /\ (out <= out' <= S out)%nat
  /\ nskip_fields s' = nskip_fields s
  /\ (1 <= strlen (pattern s) ->
      0 <= pattern_pos s < strlen (pattern s) ->
      0 <= pattern_pos s' < strlen (pattern s)).
Proof.
  intros s len out s' len' out'. unfold flush_buffered.
  destruct ((len =? 1) && is_set (occupied s)).
  - intros H. repeat break_hyp H. inversion H; subst; clear H.
    split; [|split; [lia|split; [unfold rewind; cbn; now destruct (_ =? 0)|]]].
    + stable_chain.
    + intros L Hp.
      match goal with E : find_len _ _ _ _ = Some _ |- _ =>
        apply find_len_cursor in E; [|cbn; lia] end.
      cbn [pattern_pos set_occupied].
      match goal with |- context [rewind (set_pattern_pos ?a ?b)] =>
        apply (@rewind_cursor a b); cbn; auto end.
  - intros H. inversion H; subst. split; [apply stable_refl|].
    split; [lia|]. split; [reflexivity|]. auto.
Qed.

Lemma build_frame_spec : forall s inpicref len out s' len' out',
  build_frame s inpicref len out = Some (s', len', out') ->
  stable s s'
  /\ (out <= out' <= S out)%nat
  /\ nskip_fields s' = nskip_fields s
  /\ pattern_pos s' = pattern_pos s.
Proof.
  intros s inpicref len out s' len' out'. unfold build_frame.
  intros H. repeat break_hyp H; inversion H; subst; clear H;
    (split; [stable_chain | split; [lia | split; reflexivity]]).
Qed.

(** The frames [send_frames] hands down: at most [n], counted in the link,
    each stamped with the start time and its index in the link. *)
Lemma send_frames_spec : forall e s inpicref n i l ret l' ret',
  send_frames e s inpicref n i l ret = Some (l', ret') ->
  exists new,
    delivered l' = delivered l ++ new
    /\ (List.length new <= n)%nat
    /\ frame_count_in l' = frame_count_in l + Z.of_nat (List.length new)
    /\ forall k g, nth_error new k = Some g ->
         pts g = to_int64
                   (start_or_zero s
                    + av_rescale (frame_count_in l + Z.of_nat k)
                        (num (ts_unit s)) (den (ts_unit s))).
Proof.
  intros e s inpicref n. induction n as [|n IH];
    cbn [send_frames]; intros i l ret l' ret' H.
  - inversion H; subst. exists []. rewrite app_nil_r.
    repeat split; cbn; try lia. intros [|k] g; discriminate.
  - destruct (nth i (frame s) None) as [fi|]; [|discriminate].
    destruct (negb (clone_ok e i)).
    + inversion H; subst. exists []. rewrite app_nil_r.
      repeat split; cbn; try lia. intros [|k] g; discriminate.
    + cbn [ff_filter_frame] in H. apply IH in H.
      destruct H as (new & Hd & Hl & Hc & Hp). cbn in Hd, Hc, Hp.
      eexists (_ :: new). rewrite Hd, <- app_assoc. cbn [app].
      split; [reflexivity|]. split; [cbn; lia|]. split; [cbn [List.length]; lia|].
      intros [|k] g Hk; cbn in Hk.
      * inversion Hk; subst; cbn [pts]. unfold frame_pts, start_or_zero.
        now rewrite Z.add_0_r.
      * rewrite (Hp _ _ Hk). do 3 f_equal. lia.
Qed.

Lemma send_frames_total : forall e s inpicref n i l ret,
  buffers_allocated s -> (i + n <= 2)%nat ->
  exists r, send_frames e s inpicref n i l ret = Some r.
Proof.
  intros e s inpicref n. induction n as [|n IH];
    cbn [send_frames]; intros i l ret B Hi; [eauto|].
  destruct B as (Bt & B0 & B1).
  destruct (nth i (frame s) None) as [fi|] eqn:F.
  - destruct (negb (clone_ok e i)); [eauto|].
    cbn [ff_filter_frame]. apply IH; [repeat split; auto | lia].
  - destruct i as [|[|i]]; [contradiction | contradiction | lia].
Qed.

Lemma finish_spec : forall e s l inpicref len out r,
  finish e s l inpicref len out = Some r ->
  stable s (r_ctx r)
  /\ pattern_pos (r_ctx r) = pattern_pos s
  /\ r_freed r = true
  /\ exists new,
       delivered (r_outlink r) = delivered l ++ new
       /\ (List.length new <= out)%nat
       /\ frame_count_in (r_outlink r)
          = frame_count_in l + Z.of_nat (List.length new)
       /\ forall k g, nth_error new k = Some g ->
            pts g = to_int64
                      (start_or_zero s
                       + av_rescale (frame_count_in l + Z.of_nat k)
                           (num (ts_unit s)) (den (ts_unit s))).
Proof.
  intros e s l inpicref len out r. unfold finish.
  destruct (send_frames _ _ _ _ _ _ _) as [[l' ret']|] eqn:S; [|discriminate].
  intros H. inversion H; subst; clear H. cbn [r_ctx r_outlink r_freed].
  split; [stable_chain|]. split; [reflexivity|]. split; [reflexivity|].
  apply send_frames_spec in S. exact S.
Qed.

Lemma capture_start_time_fields : forall s f,
  let s' := capture_start_time s f in
  start_time s'
  = (if start_time s =? AV_NOPTS_VALUE then pts f else start_time s)
  /\ pattern s' = pattern s /\ pattern_pos s' = pattern_pos s
  /\ nskip_fields s' = nskip_fields s /\ ts_unit s' = ts_unit s
  /\ first_field s' = first_field s /\ start_frame s' = start_frame s
  /\ pts_mul s' = pts_mul s /\ nb_planes s' = nb_planes s
  /\ planeheight s' = planeheight s /\ stride s' = stride s
  /\ (buffers_allocated s -> buffers_allocated s').
Proof.
  intros s f. unfold capture_start_time, captured_start_time,
    buffers_allocated.
  cbn. repeat split; tauto.
Qed.

(** One call of [filter_frame]: what it keeps, what it sends. *)
Lemma filter_frame_spec : forall e s l f r,
  filter_frame e s l f = Some r ->
  stable (capture_start_time s f) (r_ctx r)
  /\ (cursor_ok s ->
      0 <= pattern_pos (r_ctx r) < strlen (pattern s))
  /\ exists new,
       delivered (r_outlink r) = delivered l ++ new
       /\ (List.length new <= 2)%nat
       /\ frame_count_in (r_outlink r)
          = frame_count_in l + Z.of_nat (List.length new)
       /\ forall k g, nth_error new k = Some g ->
            pts g = to_int64
                      (start_or_zero (r_ctx r)
                       + av_rescale (frame_count_in l + Z.of_nat k)
                           (num (ts_unit s)) (den (ts_unit s))).
Proof.
  intros e s l f r. unfold filter_frame.
  pose proof (capture_start_time_fields s f) as C. cbv zeta in C.
  destruct C as (_ & Cp & Cq & Cn & Cu & _).
  set (c := capture_start_time s f) in *. clearbody c.
  assert (Hnone : exists new : list AVFrame,
             delivered l = delivered l ++ new
             /\ (List.length new <= 2)%nat
             /\ frame_count_in l = frame_count_in l + Z.of_nat (List.length new)
             /\ forall k g, nth_error new k = Some g ->
                  pts g = to_int64
                            (start_or_zero (r_ctx r)
                             + av_rescale (frame_count_in l + Z.of_nat k)
                                 (num (ts_unit s)) (den (ts_unit s)))).
  { exists []. rewrite app_nil_r. repeat split; cbn; try lia.
    intros [|k] g; discriminate. }
  destruct (nskip_fields c >=? 2) eqn:N2.
  { intros H. inversion H; subst; clear H. cbn [r_ctx r_outlink] in *.
    split; [stable_chain|]. split; [|exact Hnone].
    intros (L & Hp & Hs). cbn. rewrite Cq.
    rewrite Z.geb_leb in N2. apply Z.leb_le in N2. lia. }
  destruct (nskip_fields c >=? 1) eqn:N1.
  { destruct (temp c) as [t|]; [|discriminate].
    intros H. inversion H; subst; clear H. cbn [r_ctx r_outlink] in *.
    split; [stable_chain|]. split; [|exact Hnone].
    intros (L & Hp & Hs). cbn. rewrite Cq.
    rewrite Z.geb_leb in N1. apply Z.leb_le in N1. lia. }
  destruct (nskip_fields c =? 0) eqn:N0.
  - destruct (find_len _ _ _ _) as [[len pos]|] eqn:F; [|discriminate].
    cbn [pattern set_init_len pattern_pos] in F.
    set (s1 := rewind (set_pattern_pos (set_init_len c 0) pos)).
    assert (S1 : stable c s1) by (unfold s1; stable_chain).
    assert (P1 : cursor_ok s -> 0 <= pattern_pos s1 < strlen (pattern s)).
    { intros (L & Hp & _). rewrite <- Cp.
      apply find_len_cursor in F; [|rewrite Cp, Cq; lia].
      rewrite Cp in F.
      apply (@rewind_cursor (set_init_len c 0) pos); cbn; rewrite Cp; lia. }
    destruct (len =? 0).
    { intros H. inversion H; subst; clear H. cbn [r_ctx r_outlink] in *.
      split; [exact S1|]. split; [exact P1 | exact Hnone]. }
    destruct (flush_buffered s1 len 0) as [[[s2 len2] out2]|] eqn:FB;
      [|discriminate].
    apply flush_buffered_spec in FB. destruct FB as (S2 & O2 & _ & P2).
    destruct (build_frame s2 f len2 out2) as [[[s3 len3] out3]|] eqn:BF;
      [|discriminate].
    apply build_frame_spec in BF. destruct BF as (S3 & O3 & _ & P3).
    assert (S13 : stable c s3) by (eapply stable_trans; eauto using stable_trans).
    assert (PT : pattern s1 = pattern s)
      by (destruct S1 as (_ & -> & _); exact Cp).
    assert (TU : ts_unit s3 = ts_unit s)
      by (destruct S13 as (_ & _ & _ & _ & _ & -> & _); exact Cu).
    intros H.
    assert (G : exists s4 len4,
               stable s3 s4 /\ pattern_pos s4 = pattern_pos s3
               /\ ts_unit s4 = ts_unit s3
               /\ finish e s4 l f len4 out3 = Some r).
    { destruct ((len3 =? 1) && is_set (occupied s3)).
      - eexists _, _. split; [apply stable_set_occupied|].
        split; [reflexivity|]. split; [reflexivity | exact H].
      - eexists _, _. split; [apply stable_refl|].
        split; [reflexivity|]. split; [reflexivity | exact H]. }
    clear H. destruct G as (s4 & len4 & S4 & P4 & U4 & H).
    apply finish_spec in H. destruct H as (S5 & P5 & _ & new & Hd & Hl & Hc & Hp).
    split; [eauto using stable_trans|]. split.
    + intros CK. rewrite P5, P4, P3. rewrite <- PT.
      apply P2; rewrite PT; [apply CK | apply (P1 CK)].
    + exists new. repeat split; auto; try lia.
      intros k g Hk. rewrite (Hp _ _ Hk). rewrite U4, TU.
      f_equal. unfold start_or_zero.
      destruct S5 as (_ & _ & _ & -> & _). reflexivity.
  - intros H. apply finish_spec in H.
    destruct H as (S5 & P5 & _ & new & Hd & Hl & Hc & Hp).
    split; [exact S5|]. split.
    + intros (L & Hq & Hs). rewrite P5, Cq. rewrite Cn in N0.
      apply Z.eqb_neq in N0. split; [lia | auto].
    + exists new. repeat split; auto; try lia.
      intros k g Hk. rewrite (Hp _ _ Hk). rewrite Cu.
      f_equal. unfold start_or_zero.
      destruct S5 as (_ & _ & _ & -> & _). reflexivity.
Qed.

(** ** filter_frame returns *)

Lemma allocated_slot : forall s out,
  buffers_allocated s -> (out <= 1)%nat ->
  exists fo, nth out (frame s) None = Some fo.
Proof.
  intros s out (_ & B0 & B1) Ho.
  destruct out as [|[|out]]; [| |lia].
  - destruct (nth 0 (frame s) None); [eauto | contradiction].
  - destruct (nth 1 (frame s) None); [eauto | contradiction].
Qed.

Lemma allocated_temp : forall s,
  buffers_allocated s -> exists t, temp s = Some t.
Proof.
  intros s (Bt & _). destruct (temp s); [eauto | contradiction].
Qed.

Lemma flush_buffered_total : forall s len out,
  buffers_allocated s -> (out <= 1)%nat ->
  strlen (pattern s) < 2 ^ 32 ->
  0 <= pattern_pos s <= strlen (pattern s) ->
  exists r, flush_buffered s len out = Some r.
Proof.
  intros s len out B Ho L Hp. unfold flush_buffered.
  destruct ((len =? 1) && is_set (occupied s)); [|eauto].
  assert (B' : buffers_allocated (set_occupied s 0)) by exact B.
  destruct (allocated_slot B' Ho) as [fo ->].
  destruct (allocated_temp B') as [t ->].
  match goal with |- context [find_len ?a ?p ?b ?c] =>
    destruct (@find_len_fuel_enough p b c) as [[len' pos'] ->] end;
    cbn; eauto.
Qed.

Lemma build_frame_total : forall s inpicref len out,
  buffers_allocated s -> (out <= 1)%nat ->
  exists r, build_frame s inpicref len out = Some r.
Proof.
  intros s inpicref len out B Ho. unfold build_frame.
  destruct (allocated_slot B Ho) as [fo ->].
  destruct (allocated_temp B) as [t Ht]. rewrite Ht.
  destruct (is_set (occupied s)).
  - cbn [temp set_occupied set_frame]. rewrite Ht.
    destruct (len <=? 2); eauto.
  - destruct (len >=? 2); [eauto|].
    destruct (len =? 1); [|eauto].
    cbn [temp set_frame]. rewrite Ht. eauto.
Qed.

Lemma finish_total : forall e s l inpicref len out,
  buffers_allocated s -> (out <= 2)%nat ->
  exists r, finish e s l inpicref len out = Some r.
Proof.
  intros e s l inpicref len out B Ho. unfold finish.
  destruct (@send_frames_total e (set_nskip_fields s (to_uint len))
              inpicref out 0%nat l 0 B Ho) as [[l' ret] ->].
  eauto.
Qed.

Lemma filter_frame_total : forall e s l f,
  buffers_allocated s -> cursor_ok s -> strlen (pattern s) < 2 ^ 32 ->
  exists r, filter_frame e s l f = Some r.
Proof.
  intros e s l f B (L & Hp & _) Hlen. unfold filter_frame.
  pose proof (capture_start_time_fields s f) as C. cbv zeta in C.
  destruct C as (_ & Cp & Cq & _ & _ & _ & _ & _ & _ & _ & _ & Cb).
  specialize (Cb B).
  set (c := capture_start_time s f) in *. clearbody c.
  destruct (nskip_fields c >=? 2); [eauto|].
  destruct (nskip_fields c >=? 1).
  { destruct (allocated_temp Cb) as [t ->]. eauto. }
  destruct (nskip_fields c =? 0); [|apply finish_total; auto].
  destruct (@find_len_fuel_enough (pattern (set_init_len c 0)) (init_len c)
              (pattern_pos (set_init_len c 0))) as [[len pos] F];
    [cbn; rewrite Cp; lia | cbn; rewrite Cp, Cq; lia |].
  rewrite F.
  apply find_len_cursor in F; [|cbn; rewrite Cp, Cq; lia].
  cbn [pattern set_init_len] in F. rewrite Cp in F.
  set (s1 := rewind (set_pattern_pos (set_init_len c 0) pos)).
  assert (S1 : stable c s1) by (unfold s1; stable_chain).
  assert (P1 : 0 <= pattern_pos s1 < strlen (pattern s)).
  { rewrite <- Cp.
    apply (@rewind_cursor (set_init_len c 0) pos); cbn; rewrite Cp; lia. }
  assert (PT : pattern s1 = pattern s)
    by (destruct S1 as (_ & -> & _); exact Cp).
  assert (B1 : buffers_allocated s1) by (apply S1; exact Cb).
  destruct (len =? 0); [eauto|].
  destruct (@flush_buffered_total s1 len 0%nat B1 ltac:(lia))
    as [[[s2 len2] out2] FB]; [rewrite PT; lia | rewrite PT; lia |].
  rewrite FB. apply flush_buffered_spec in FB.
  destruct FB as (S2 & O2 & _).
  assert (B2 : buffers_allocated s2) by (apply S2; exact B1).
  destruct (@build_frame_total s2 f len2 out2 B2 ltac:(lia))
    as [[[s3 len3] out3] BF].
  rewrite BF. apply build_frame_spec in BF.
  destruct BF as (S3 & O3 & _).
  assert (B3 : buffers_allocated s3) by (apply S3; exact B2).
  destruct ((len3 =? 1) && is_set (occupied s3));
    apply finish_total; auto; lia.
Qed.

(** ** Streams *)

Lemma started_inv : forall s l,
  started s l ->
  buffers_allocated s /\ cursor_ok s
  /\ start_time s = AV_NOPTS_VALUE
  /\ frame_count_in l = 0 /\ delivered l = [].
Proof.
  intros s l (dg & fl & cp & gb & ff & pat & sf & s1 & s2 & il & ol
              & _ & _ & Hi & Hc & Hf & Hd & Ho).
  apply init_ok in Hi.
  destruct Hi as (Hpat & _ & _ & HL & _ & _ & _ & Hn & Hst & _ & Hpos & _).
  apply config_input_engine in Hc. destruct Hc as [He Hb].
  specialize (Hb eq_refl). unfold engine_fields in He. inversion He.
  apply config_output_engine in Ho.
  destruct Ho as (Hf' & Ht & Hfr & _ & _ & _ & Hfc & Hdl).
  inversion Hf'.
  unfold buffers_allocated, cursor_ok in *.
  rewrite Ht, Hfr.
  assert (P : pattern s = pat) by congruence. rewrite P.
  repeat split; try tauto; try congruence; try lia.
Qed.

Lemma reachable_inv : forall s l,
  reachable s l -> buffers_allocated s /\ cursor_ok s.
Proof.
  induction 1 as [s l H | s l e f r H [IB IC] F].
  - apply started_inv in H. tauto.
  - apply filter_frame_spec in F. destruct F as (S & C & _).
    pose proof (capture_start_time_fields s f) as K. cbv zeta in K.
    destruct K as (_ & Kp & _ & _ & _ & _ & _ & _ & _ & _ & _ & Kb).
    assert (P : pattern (r_ctx r) = pattern s)
      by (destruct S as (_ & -> & _); exact Kp).
    split; [apply S, Kb, IB|].
    specialize (C IC). destruct IC as (L & _).
    unfold cursor_ok. rewrite P. repeat split; lia.
Qed.

Lemma run_total : forall inputs s l,
  buffers_allocated s -> cursor_ok s -> strlen (pattern s) < 2 ^ 32 ->
  exists s' l', run s l inputs = Some (s', l').
Proof.
  induction inputs as [|[e f] inputs IH]; intros s l B C L; cbn [run];
    [eauto|].
  destruct (@filter_frame_total e s l f B C L) as [r F]. rewrite F.
  assert (R : buffers_allocated (r_ctx r) /\ cursor_ok (r_ctx r)
              /\ pattern (r_ctx r) = pattern s).
  { apply filter_frame_spec in F. destruct F as (S & K & _).
    pose proof (capture_start_time_fields s f) as Q. cbv zeta in Q.
    destruct Q as (_ & Kp & _ & _ & _ & _ & _ & _ & _ & _ & _ & Kb).
    assert (P : pattern (r_ctx r) = pattern s)
      by (destruct S as (_ & -> & _); exact Kp).
    split; [apply S, Kb, B|]. split; [|exact P].
    specialize (K C). destruct C as (L1 & _).
    unfold cursor_ok. rewrite P. repeat split; lia. }
  destruct R as (B' & C' & P). apply IH; auto. rewrite P. exact L.
Qed.

Lemma run_reachable : forall inputs s l s' l',
  reachable s l -> run s l inputs = Some (s', l') -> reachable s' l'.
Proof.
  induction inputs as [|[e f] inputs IH]; intros s l s' l' R H; cbn [run] in H.
  - inversion H; subst. exact R.
  - destruct (filter_frame e s l f) as [r|] eqn:F; [|discriminate].
    eapply IH; [|exact H]. eapply reachable_step; eauto.
Qed.

Lemma example_started : forall ff pat sf s l,
  0 <= ff <= 1 -> 0 <= sf <= 13 ->
  Example.setup ff pat sf = Some (s, l) -> started s l.
Proof.
  intros ff pat sf s l Hff Hsf. unfold Example.setup.
  destruct (init (new_context ff pat sf)) as [|s1] eqn:I; [discriminate|].
  destruct (config_input _ _ _ _ s1 Example.inlink) as [[s2 ret]|] eqn:C;
    [|discriminate].
  destruct ret; try discriminate.
  destruct (config_output s2 Example.inlink Example.outlink)
    as [[s3 l3] ret] eqn:O.
  destruct (ret =? 0) eqn:R; [|discriminate].
  apply Z.eqb_eq in R. subst ret.
  intros H. inversion H; subst.
  unfold started.
  exists Example.desc_get, Example.fill_linesizes, Example.count_planes,
    Example.get_buffer, ff, pat, sf, s1, s2, Example.inlink, Example.outlink.
  repeat split; auto; lia.
Qed.

Lemma example_reachable : forall ff pat sf fs,
  0 <= ff <= 1 -> 0 <= sf <= 13 ->
  Example.feed ff pat sf fs <> None ->
  reachable (Example.ctx_after ff pat sf fs)
            (Example.link_after ff pat sf fs).
Proof.
  intros ff pat sf fs Hff Hsf. unfold Example.ctx_after, Example.link_after.
  destruct (Example.feed ff pat sf fs) as [[s l]|] eqn:F; [|congruence].
  intros _. unfold Example.feed in F.
  destruct (Example.setup ff pat sf) as [[s0 l0]|] eqn:S; [|discriminate].
  eapply run_reachable; [|exact F].
  apply reachable_start. eapply example_started; eauto.
Qed.

(** ** Single calls *)

Lemma sent_by_app : forall l l' new,
  delivered l' = delivered l ++ new -> sent_by l l' = new.
Proof.
  intros l l' new H. unfold sent_by. rewrite H. clear H.
  induction (delivered l) as [|x d IH]; [reflexivity | exact IH].
Qed.

(** C6.  In every state the filter can reach, one call of [filter_frame]
    hands at most two frames to the output link; and the call returns (for
    a pattern shorter than 2^32 characters, so that the 32-bit cursor cannot
    wrap). *)
Theorem at_most_two_frames_per_call : forall s l e f,
  reachable s l ->
  (forall r, filter_frame e s l f = Some r ->
     delivered (r_outlink r) = delivered l ++ sent_by l (r_outlink r)
     /\ (List.length (sent_by l (r_outlink r)) <= 2)%nat)
  /\ (strlen (pattern s) < 2 ^ 32 ->
      exists r, filter_frame e s l f = Some r).
Proof.
  intros s l e f R. split.
  - intros r F. apply filter_frame_spec in F.
    destruct F as (_ & _ & new & Hd & Hl & _).
    rewrite (@sent_by_app _ _ _ Hd). auto.
  - intros L. apply reachable_inv in R. destruct R as [B C].
    now apply filter_frame_total.
Qed.

(** C6, witness: the third call for the pattern "23". *)
Lemma at_most_two_frames_per_call_witness :
  let s := Example.ctx_after 0 "23" 0 [Example.gray 10 0; Example.gray 20 1] in
  let l := Example.link_after 0 "23" 0 [Example.gray 10 0; Example.gray 20 1] in
  (forall r, filter_frame Example.env s l (Example.gray 30 2) = Some r ->
     delivered (r_outlink r) = delivered l ++ sent_by l (r_outlink r)
     /\ (List.length (sent_by l (r_outlink r)) <= 2)%nat)
  /\ (strlen (pattern s) < 2 ^ 32 ->
      exists r, filter_frame Example.env s l (Example.gray 30 2) = Some r).
Proof.
  apply at_most_two_frames_per_call.
  apply example_reachable; [lia | lia | vm_compute; discriminate].
Defined.



Lemma init_accepts_below_the_sum : forall ff pat sf,
  1 <= strlen pat -> all_digits pat = true -> sf < digit_sum pat ->
  exists s, init (new_context ff pat sf) = InitOk s.
Proof.
  intros ff pat sf L D Lt. unfold init.
  cbn -[init_scan init_walk Z.add Z.mul].
  destruct (strlen pat =? 0) eqn:E; [apply Z.eqb_eq in E; lia|].
  destruct (init_scan pat 0 0 _) as [[[sum max] q]|] eqn:S.
  - apply init_scan_sum in S. destruct S as (-> & _).
    rewrite Z.geb_leb.
    replace (0 + digit_sum pat <=? sf) with false
      by (symmetry; apply Z.leb_gt; lia).
    destruct (negb (sf =? 0)); [|eauto].
    destruct (init_walk pat sf 0 0 0); eauto.
  - exfalso. revert S. apply init_scan_digits. exact D.
Qed.

(** C2, as the code has it.  For a non-empty pattern of digits with the
    digit sum S and a start frame that is not negative, [init] fails with
    "start_frame is too big" exactly when the start frame is at least S,
    the number of fields of one cycle, and succeeds otherwise: the start
    frame S - 1 is accepted and the start frame S is rejected. *)
Theorem init_start_frame_limit : forall ff pat sf,
  1 <= strlen pat -> all_digits pat = true -> 0 <= sf ->
  (init (new_context ff pat sf) = InitError StartFrameTooBig
   <-> digit_sum pat <= sf)
  /\ (sf < digit_sum pat -> exists s, init (new_context ff pat sf) = InitOk s)
  /\ (1 <= digit_sum pat ->
      exists s, init (new_context ff pat (digit_sum pat - 1)) = InitOk s)
  /\ init (new_context ff pat (digit_sum pat)) = InitError StartFrameTooBig.
Proof.
  intros ff pat sf L D _.
  split; [now apply init_start_frame_too_big|].
  split; [now apply init_accepts_below_the_sum|].
  split.
  - intros _. apply init_accepts_below_the_sum; [assumption | assumption | lia].
  - apply init_start_frame_too_big; [assumption | assumption | lia].
Qed.

(** C2, witness: the pattern "23" (S = 5) with the start frame 3. *)
Lemma init_start_frame_limit_witness :
  (init (new_context 0 "23" 3) = InitError StartFrameTooBig
   <-> digit_sum "23" <= 3)
  /\ (3 < digit_sum "23" -> exists s, init (new_context 0 "23" 3) = InitOk s)
  /\ (1 <= digit_sum "23" ->
      exists s, init (new_context 0 "23" (digit_sum "23" - 1)) = InitOk s)
  /\ init (new_context 0 "23" (digit_sum "23")) = InitError StartFrameTooBig.
Proof.
  apply init_start_frame_limit.
  - vm_compute. discriminate.
  - reflexivity.
  - lia.
Defined.

(** C2, counterexample: for the pattern "22" one cycle is S = 4 fields,
    that is 2 frames, and for "23" it is S = 5 fields.  [init] accepts the
    start frame 2 for "22" and the start frame 3 for "23", which are not
    below S / 2: it leaves the cursor on the terminator with no stray
    field. *)
Lemma init_accepts_start_frame_of_a_whole_cycle :
  digit_sum "22" = 2 * 2
  /\ (exists s, init (new_context 0 "22" 2) = InitOk s
                /\ pattern_pos s = strlen "22" /\ init_len s = 0)
  /\ digit_sum "23" <= 2 * 3
  /\ (exists s, init (new_context 0 "23" 3) = InitOk s
                /\ pattern_pos s = strlen "23" /\ init_len s = 0).
Proof.
  split; [reflexivity|].
  split; [eexists; split; [vm_compute; reflexivity|split; reflexivity]|].
  split; [vm_compute; discriminate|].
  eexists; split; [vm_compute; reflexivity|split; reflexivity].
Qed.

(** C3, the code at the failing input.  The pattern "20" has a non-zero
    digit.  On the second frame the engine is in the consuming path with
    the cursor on the trailing '0': the search stops at the terminator with
    [len = 0] instead of going on from index 0, and the frame is dropped
    without any output. *)
Theorem trailing_zero_drops_a_frame :
  let s := Example.ctx_after 0 "20" 0 [Example.gray 10 0] in
  let l := Example.link_after 0 "20" 0 [Example.gray 10 0] in
  reachable s l
  /\ digit_sum (pattern s) = 2
  /\ nskip_fields s = 0 /\ init_len s = 0 /\ pattern_pos s = 1
  /\ find_len (find_len_fuel (pattern s)) (pattern s) 0 (pattern_pos s)
     = Some (0, 2)
  /\ exists r, filter_frame Example.env s l (Example.gray 20 1) = Some r
               /\ sent_by l (r_outlink r) = []
               /\ r_freed r = true.
Proof.
  cbv zeta.
  split; [apply example_reachable; [lia | lia | vm_compute; discriminate]|].
  repeat (split; [vm_compute; reflexivity|]).
  eexists. split; [vm_compute; reflexivity|]. split; reflexivity.
Qed.

(** The two skipping paths return without releasing the input frame. *)
Lemma skipping_paths_keep_the_frame : forall e s l f r,
  1 <= nskip_fields s -> filter_frame e s l f = Some r ->
  r_freed r = false /\ r_outlink r = l.
Proof.
  intros e s l f r N. unfold filter_frame.
  pose proof (capture_start_time_fields s f) as C. cbv zeta in C.
  destruct C as (_ & _ & _ & Cn & _).
  rewrite Cn.
  destruct (nskip_fields s >=? 2) eqn:N2.
  - intros H. inversion H; subst. split; reflexivity.
  - replace (nskip_fields s >=? 1) with true
      by (symmetry; rewrite Z.geb_leb; apply Z.leb_le; lia).
    destruct (temp _); [|discriminate].
    intros H. inversion H; subst. split; reflexivity.
Qed.

(** C7, the code at the failing input.  With the pattern "23" the third
    call takes the branch for one field to skip, with the pattern "4" the
    second call takes the branch for two: both return 0 without
    [av_frame_free(&inpicref)], which every other return path calls. *)
Theorem skipping_calls_do_not_release_the_input :
  (let s := Example.ctx_after 0 "23" 0 [Example.gray 10 0; Example.gray 20 1] in
   let l := Example.link_after 0 "23" 0 [Example.gray 10 0; Example.gray 20 1] in
   reachable s l /\ nskip_fields s = 1
   /\ exists r, filter_frame Example.env s l (Example.gray 30 2) = Some r
                /\ r_ret r = 0 /\ r_freed r = false)
  /\ (let s := Example.ctx_after 0 "4" 0 [Example.gray 10 0] in
      let l := Example.link_after 0 "4" 0 [Example.gray 10 0] in
      reachable s l /\ nskip_fields s = 2
      /\ exists r, filter_frame Example.env s l (Example.gray 20 1) = Some r
                   /\ r_ret r = 0 /\ r_freed r = false).
Proof.
  cbv zeta. split.
  - split; [apply example_reachable; [lia | lia | vm_compute; discriminate]|].
    split; [vm_compute; reflexivity|].
    eexists. split; [vm_compute; reflexivity|]. split; reflexivity.
  - split; [apply example_reachable; [lia | lia | vm_compute; discriminate]|].
    split; [vm_compute; reflexivity|].
    eexists. split; [vm_compute; reflexivity|]. split; reflexivity.
Qed.

(** ** Timestamps *)

Lemma filter_frame_start_time : forall e s l f r,
  filter_frame e s l f = Some r ->
  start_time (r_ctx r)
  = (if start_time s =? AV_NOPTS_VALUE then pts f else start_time s)
  /\ ts_unit (r_ctx r) = ts_unit s
  /\ pattern (r_ctx r) = pattern s.
Proof.
  intros e s l f r F. apply filter_frame_spec in F. destruct F as (S & _).
  pose proof (capture_start_time_fields s f) as C. cbv zeta in C.
  destruct C as (Cs & Cp & _ & _ & Cu & _).
  destruct S as (_ & Sp & _ & Ss & _ & Su & _).
  rewrite Ss, Su, Sp. auto.
Qed.


Lemma av_rescale_mono : forall a a' b c,
  0 <= b -> 0 < c -> 0 <= a <= a' -> av_rescale a b c <= av_rescale a' b c.
Proof.
  intros a a' b c Hb Hc Ha. unfold av_rescale.
  replace (c <=? 0) with false by (symmetry; apply Z.leb_gt; lia).
  replace (b <? 0) with false by (symmetry; apply Z.ltb_ge; lia).
  replace (a <? 0) with false by (symmetry; apply Z.ltb_ge; lia).
  replace (a' <? 0) with false by (symmetry; apply Z.ltb_ge; lia).
  cbn [orb]. apply Z.div_le_mono; [lia | nia].
Qed.

Lemma to_int64_id : forall x, in_int64 x -> to_int64 x = x.
Proof.
  intros x [Lo Hi]. unfold to_int64, INT64_MIN, INT64_MAX in *.
  rewrite Z.mod_small; lia.
Qed.

Lemma stamped_step : forall base e s l f r,
  stamped base (ts_unit s) l ->
  filter_frame e s l f = Some r ->
  start_or_zero (r_ctx r) = base ->
  stamped base (ts_unit s) (r_outlink r).
Proof.
  intros base e s l f r [Hc Hp] F Hb. apply filter_frame_spec in F.
  destruct F as (_ & _ & new & Hd & _ & Hn & Hq).
  unfold stamped. rewrite Hd, Hn, Hc, length_app. split; [lia|].
  intros n g Hg.
  destruct (Nat.lt_ge_cases n (List.length (delivered l))) as [Lt|Ge].
  - rewrite nth_error_app1 in Hg by exact Lt. now apply Hp.
  - rewrite nth_error_app2 in Hg by exact Ge.
    rewrite (Hq _ _ Hg), Hb, Hc. do 3 f_equal. lia.
Qed.

Lemma run_stamped : forall inputs s l s' l',
  start_time s <> AV_NOPTS_VALUE ->
  stamped (start_time s) (ts_unit s) l ->
  run s l inputs = Some (s', l') ->
  stamped (start_time s) (ts_unit s) l'.
Proof.
  induction inputs as [|[e f] inputs IH]; intros s l s' l' N St H;
    cbn [run] in H.
  - now inversion H; subst.
  - destruct (filter_frame e s l f) as [r|] eqn:F; [|discriminate].
    pose proof (@filter_frame_start_time _ _ _ _ _ F) as (Fs & Fu & _).
    pose proof N as N'. apply Z.eqb_neq in N'. rewrite N' in Fs.
    assert (B : start_or_zero (r_ctx r) = start_time s)
      by (unfold start_or_zero; rewrite Fs, N'; reflexivity).
    pose proof (@stamped_step _ _ _ _ _ _ St F B) as St'.
    rewrite <- Fs, <- Fu in St'. apply IH in H; auto; [|congruence].
    now rewrite Fs, Fu in H.
Qed.

Lemma stamped_monotone : forall base u l n a b,
  stamped base u l -> 0 <= num u -> 0 < den u ->
  representable base u n -> representable base u (S n) ->
  nth_error (delivered l) n = Some a ->
  nth_error (delivered l) (S n) = Some b ->
  pts a <= pts b.
Proof.
  intros base u l n a b [_ Hp] Hn Hd [_ Ra] [_ Rb] Ha Hb.
  rewrite (Hp _ _ Ha), (Hp _ _ Hb), !to_int64_id by assumption.
  apply Z.add_le_mono_l, av_rescale_mono; lia.
Qed.

Lemma run_total_started : forall s0 l0 inputs,
  started s0 l0 -> strlen (pattern s0) < 2 ^ 32 ->
  exists s l, run s0 l0 inputs = Some (s, l).
Proof.
  intros s0 l0 inputs St L. apply started_inv in St.
  destruct St as (B & C & _). now apply run_total.
Qed.

(** The start time, the frame interval and the count of the link after a
    run. *)
Lemma run_start_time_after : forall inputs s l s' l',
  frame_count_in l = Z.of_nat (List.length (delivered l)) ->
  run s l inputs = Some (s', l') ->
  start_time s'
  = fold_left (fun t ef => captured_start_time t (pts (snd ef))) inputs
              (start_time s)
  /\ ts_unit s' = ts_unit s
  /\ frame_count_in l' = Z.of_nat (List.length (delivered l')).
Proof.
  induction inputs as [|[e f] inputs IH]; intros s l s' l' C H;
    cbn [run] in H.
  - inversion H; subst. cbn [fold_left]. auto.
  - destruct (filter_frame e s l f) as [r|] eqn:F; [|discriminate].
    pose proof (@filter_frame_start_time _ _ _ _ _ F) as (Fs & Fu & _).
    apply filter_frame_spec in F.
    destruct F as (_ & _ & new & Hd & _ & Hn & _).
    apply IH in H; [|rewrite Hd, Hn, C, length_app; lia].
    destruct H as (Hs & Hu & Hc). cbn [fold_left snd].
    unfold captured_start_time at 2. rewrite <- Fs.
    split; [exact Hs|]. split; [congruence | exact Hc].
Qed.

(** C5, as the code has it.  For a stream the filter has accepted, with a
    frame interval [ts_unit] that is not negative: every frame a call sends
    is stamped with the start time plus [n x ts_unit] rounded, [n] being
    its emission index, where the start time is the timestamp of the first
    input frame that carries one, this call's frame included, and 0 while
    there has been none.  When the first input frame carries a timestamp,
    this is the timestamp of the first input frame for every frame sent, and
    consecutive frames are stamped in non-decreasing order (whether the
    timestamps of the input increase or not).  The stamps are those that
    [int64_t] can represent.  The calls return (for a pattern shorter than
    2^32 characters). *)
Theorem emitted_timestamps : forall s0 l0 inputs,
  started s0 l0 ->
  0 <= num (ts_unit s0) -> 0 < den (ts_unit s0) ->
  (forall s l, run s0 l0 inputs = Some (s, l) ->
     (forall e f r, filter_frame e s l f = Some r ->
        forall k g, nth_error (sent_by l (r_outlink r)) k = Some g ->
          let n := (List.length (delivered l) + k)%nat in
          let base := stamp_base (inputs ++ [(e, f)]) in
          representable base (ts_unit s0) n ->
          pts g = base + av_rescale (Z.of_nat n)
                           (num (ts_unit s0)) (den (ts_unit s0)))
     /\ (first_pts inputs <> AV_NOPTS_VALUE ->
         (forall n g, nth_error (delivered l) n = Some g ->
            representable (first_pts inputs) (ts_unit s0) n ->
            pts g = first_pts inputs
                    + av_rescale (Z.of_nat n)
                        (num (ts_unit s0)) (den (ts_unit s0)))
         /\ (forall n a b,
               nth_error (delivered l) n = Some a ->
               nth_error (delivered l) (S n) = Some b ->
               representable (first_pts inputs) (ts_unit s0) n ->
               representable (first_pts inputs) (ts_unit s0) (S n) ->
               pts a <= pts b)))
  /\ (strlen (pattern s0) < 2 ^ 32 ->
      exists s l, run s0 l0 inputs = Some (s, l)).
Proof.
  intros s0 l0 inputs St Hn Hd.
  split; [|now apply run_total_started].
  intros s l H.
  apply started_inv in St. destruct St as (_ & _ & T0 & C0 & D0).
  assert (K0 : frame_count_in l0 = Z.of_nat (List.length (delivered l0)))
    by (rewrite D0; exact C0).
  split.
  - intros e f r F k g Hg. cbv zeta. intros [_ Rp].
    destruct (@run_start_time_after _ _ _ _ _ K0 H) as (Hs & Hu & Hc).
    pose proof (@filter_frame_start_time _ _ _ _ _ F) as (Fs & _).
    apply filter_frame_spec in F.
    destruct F as (_ & _ & new & Hd' & _ & _ & Hq).
    rewrite (@sent_by_app _ _ _ Hd') in Hg.
    assert (B : start_or_zero (r_ctx r) = stamp_base (inputs ++ [(e, f)])).
    { unfold start_or_zero, stamp_base, start_time_after.
      rewrite fold_left_app. cbn [fold_left snd].
      rewrite <- T0, <- Hs. unfold captured_start_time. rewrite Fs.
      reflexivity. }
    rewrite (Hq _ _ Hg), B, Hu, Hc, <- Nat2Z.inj_add.
    now apply to_int64_id.
  - intros Hts.
    assert (G : stamped (first_pts inputs) (ts_unit s0) l).
    { destruct inputs as [|[e f] rest]; cbn [run first_pts] in *.
      - inversion H; subst. split; [exact K0|].
        rewrite D0. intros [|n] g; discriminate.
      - destruct (filter_frame e s0 l0 f) as [r|] eqn:F; [|discriminate].
        pose proof (@filter_frame_start_time _ _ _ _ _ F) as (Fs & Fu & _).
        rewrite T0, Z.eqb_refl in Fs.
        pose proof Hts as N.
        assert (B : start_or_zero (r_ctx r) = pts f).
        { unfold start_or_zero. rewrite Fs.
          apply Z.eqb_neq in N. now rewrite N. }
        assert (S0 : stamped (pts f) (ts_unit s0) l0).
        { split; [exact K0|].
          rewrite D0. intros [|n] g; discriminate. }
        pose proof (@stamped_step _ _ _ _ _ _ S0 F B) as S1.
        rewrite <- Fs, <- Fu in S1.
        apply run_stamped in H; auto; [|congruence].
        now rewrite Fs, Fu in H. }
    split.
    + intros n g Hg [_ Rp]. destruct G as [_ Gp].
      rewrite (Gp _ _ Hg). now apply to_int64_id.
    + intros n a b Ha Hb Ra Rb.
      now apply (@stamped_monotone _ _ _ n a b G).
Qed.

(** C5, witness: five frames at 100, 200, 300, 400, 500 through the pattern
    "23" on a stream whose frame interval is 1: the four frames sent are
    stamped 100, 101, 102, 103. *)
Lemma emitted_timestamps_witness :
  let s0 := Example.ctx_after 0 "23" 0 [] in
  let l0 := Example.link_after 0 "23" 0 [] in
  let inputs :=
    map (fun f => (Example.env, f))
        [Example.gray 10 100; Example.gray 20 200; Example.gray 30 300;
         Example.gray 40 400; Example.gray 50 500] in
  exists s l,
    run s0 l0 inputs = Some (s, l)
    /\ map pts (delivered l) = [100; 101; 102; 103]
    /\ (forall e f r, filter_frame e s l f = Some r ->
          forall k g, nth_error (sent_by l (r_outlink r)) k = Some g ->
            let n := (List.length (delivered l) + k)%nat in
            let base := stamp_base (inputs ++ [(e, f)]) in
            representable base (ts_unit s0) n ->
            pts g = base + av_rescale (Z.of_nat n)
                             (num (ts_unit s0)) (den (ts_unit s0)))
    /\ (first_pts inputs <> AV_NOPTS_VALUE ->
        (forall n g, nth_error (delivered l) n = Some g ->
           representable (first_pts inputs) (ts_unit s0) n ->
           pts g = first_pts inputs
                   + av_rescale (Z.of_nat n)
                       (num (ts_unit s0)) (den (ts_unit s0)))
        /\ (forall n a b,
              nth_error (delivered l) n = Some a ->
              nth_error (delivered l) (S n) = Some b ->
              representable (first_pts inputs) (ts_unit s0) n ->
              representable (first_pts inputs) (ts_unit s0) (S n) ->
              pts a <= pts b)).
Proof.
  cbv zeta. eexists. eexists.
  split; [vm_compute; reflexivity|].
  split; [vm_compute; reflexivity|].
  refine (proj1 (@emitted_timestamps
                   (Example.ctx_after 0 "23" 0 [])
                   (Example.link_after 0 "23" 0 []) _ _ _ _) _ _ _).
  - apply example_started with (ff := 0) (pat := "23"%string) (sf := 0);
      [lia | lia | vm_compute; reflexivity].
  - vm_compute. discriminate.
  - vm_compute. reflexivity.
  - vm_compute. reflexivity.
Defined.

(** C5, counterexample: the pattern "23" on a stream whose frame interval
    is 1, with two input frames of strictly increasing [pts], the first
    being [AV_NOPTS_VALUE], the value of a frame without timestamp, and the
    second -100.  The first call sends its frame before any start time is
    captured and stamps it 0; the second call captures -100 and stamps its
    frame -100 + 1 = -99: the stamps decrease, and the second is not the
    first frame's timestamp plus the rounded interval. *)
Lemma timestamps_decrease_after_a_first_frame_without_pts :
  let first := Example.gray 10 AV_NOPTS_VALUE in
  let second := Example.gray 20 (-100) in
  pts first < pts second
  /\ exists a b,
       delivered (Example.link_after 0 "23" 0 [first; second]) = [a; b]
       /\ pts a = 0 /\ pts b = -99 /\ ~ pts a <= pts b.
Proof.
  cbv zeta. split; [vm_compute; reflexivity|].
  eexists. eexists. split; [vm_compute; reflexivity|].
  cbn [pts]. split; [reflexivity|]. split; [reflexivity|]. lia.
Qed.




(** ** The stream geometry *)

(** [copy_picture] and [weave_picture] read the geometry and the field
    order of the context only. *)
Lemma copies_read_geometry : forall s s',
  nb_planes s' = nb_planes s -> planeheight s' = planeheight s ->
  stride s' = stride s -> first_field s' = first_field s ->
  (forall dst src, copy_picture s' dst src = copy_picture s dst src)
  /\ (forall dst inp tmp,
        weave_picture s' dst inp tmp = weave_picture s dst inp tmp).
Proof.
  intros s s' Hn Hp Hs Hf. unfold copy_picture, weave_picture.
  rewrite Hn, Hp, Hs, Hf. split; reflexivity.
Qed.

Lemma set_planeheights_twice : forall l a b,
  set_planeheights (set_planeheights l a b) a b = set_planeheights l a b.
Proof.
  intros l a b. unfold set_planeheights.
  destruct l as [|x0 [|x1 [|x2 [|x3 t]]]]; reflexivity.
Qed.

(** The three ways [config_input] returns: without memory, with the error
    of [av_image_fill_linesizes], or with the geometry set. *)
Lemma config_input_result :
  forall desc_get fill count get_buffer s inlink s' ret,
    config_input desc_get fill count get_buffer s inlink = Some (s', ret) ->
    first_field s' = first_field s
    /\ ((ret = AVERROR ENOMEM
         /\ nb_planes s' = nb_planes s /\ planeheight s' = planeheight s
         /\ stride s' = stride s)
        \/ (ret < 0 /\ fst (fill (format inlink) (w inlink)) = stride s'
            /\ snd (fill (format inlink) (w inlink)) = ret
            /\ nb_planes s' = nb_planes s /\ planeheight s' = planeheight s)
        \/ (exists d,
              ret = 0 /\ desc_get (format inlink) = Some d
              /\ 0 <= snd (fill (format inlink) (w inlink))
              /\ stride s' = fst (fill (format inlink) (w inlink))
              /\ nb_planes s' = count (format inlink)
              /\ planeheight s'
                 = set_planeheights (planeheight s)
                     (AV_CEIL_RSHIFT (h inlink) (log2_chroma_h d))
                     (h inlink))).
Proof.
  intros desc_get fill count gb s inlink s' ret. unfold config_input.
  cbn [temp set_temp frame set_frame].
  destruct (gb 0%nat) as [t|].
  2:{ intros H. injection H as <- <-. cbn. auto 10. }
  destruct (nth 0 (upd_nth (frame s) 0 (gb 1%nat)) None) as [b0|].
  2:{ intros H. injection H as <- <-. cbn. auto 10. }
  destruct (nth 1 (upd_nth (upd_nth (frame s) 0 (gb 1%nat)) 1
                     (gb 2%nat)) None) as [b1|].
  2:{ intros H. injection H as <- <-. cbn. auto 10. }
  destruct (fill (format inlink) (w inlink)) as [sizes r].
  cbn [fst snd].
  destruct (r <? 0) eqn:R.
  { apply Z.ltb_lt in R. intros H. injection H as <- <-. cbn.
    split; [reflexivity|]. right. left. auto. }
  apply Z.ltb_ge in R.
  destruct (desc_get (format inlink)) as [d|]; [|discriminate].
  intros H. injection H as <- <-. cbn.
  split; [reflexivity|]. right. right. exists d. auto 10.
Qed.

Lemma config_input_defined :
  forall desc_get fill count get_buffer s inlink d,
    desc_get (format inlink) = Some d ->
    exists s' ret,
      config_input desc_get fill count get_buffer s inlink = Some (s', ret).
Proof.
  intros desc_get fill count gb s inlink d D. unfold config_input.
  rewrite D. cbn [temp set_temp frame set_frame].
  destruct (gb 0%nat); [|eauto].
  destruct (nth 0 _ None); [|eauto].
  destruct (nth 1 _ None); [|eauto].
  destruct (fill (format inlink) (w inlink)) as [sizes r].
  destruct (r <? 0); eauto.
Qed.

(** C9.  After [config_input] has succeeded, calling it again for the same
    input link (same format, width and height), whatever the allocator
    returns this time, leaves the number of planes, the plane heights and
    the strides as they are, and with them what the plane copies do. *)
Theorem config_input_twice :
  forall desc_get fill count get_buffer1 get_buffer2 s inlink s1,
    config_input desc_get fill count get_buffer1 s inlink = Some (s1, 0) ->
    exists s2 ret,
      config_input desc_get fill count get_buffer2 s1 inlink = Some (s2, ret)
      /\ nb_planes s2 = nb_planes s1
      /\ planeheight s2 = planeheight s1
      /\ stride s2 = stride s1
      /\ (forall dst src, copy_picture s2 dst src = copy_picture s1 dst src)
      /\ (forall dst inp tmp,
            weave_picture s2 dst inp tmp = weave_picture s1 dst inp tmp).
Proof.
  intros desc_get fill count gb1 gb2 s inlink s1 H1.
  apply config_input_result in H1.
  destruct H1 as [_ [(E & _)|[(E & _)|(d & _ & D & R & Hs & Hn & Hp)]]];
    [unfold AVERROR, ENOMEM in E; lia | lia |].
  destruct (@config_input_defined desc_get fill count gb2 s1 inlink d D)
    as (s2 & ret & H2).
  exists s2, ret. split; [exact H2|].
  apply config_input_result in H2.
  assert (G : nb_planes s2 = nb_planes s1 /\ planeheight s2 = planeheight s1
              /\ stride s2 = stride s1 /\ first_field s2 = first_field s1).
  { destruct H2 as [F [(_ & A & B & C)|[(E & _ & E' & _)
                                         |(d' & _ & D' & _ & Hs' & Hn' & Hp')]]].
    - auto.
    - lia.
    - rewrite D in D'. injection D' as <-.
      rewrite Hn', Hp', Hs', Hn, Hp, Hs.
      rewrite set_planeheights_twice. auto. }
  destruct G as (Gn & Gp & Gs & Gf).
  repeat split; auto; now apply copies_read_geometry.
Qed.

(** C9, witness: the gray8 stream of the examples, configured twice. *)
Lemma config_input_twice_witness :
  exists s2 ret,
    config_input Example.desc_get Example.fill_linesizes Example.count_planes
                 Example.get_buffer (Example.configured 0 "23" 0) Example.inlink
    = Some (s2, ret)
    /\ nb_planes s2 = nb_planes (Example.configured 0 "23" 0)
    /\ planeheight s2 = planeheight (Example.configured 0 "23" 0)
    /\ stride s2 = stride (Example.configured 0 "23" 0)
    /\ (forall dst src,
          copy_picture s2 dst src
          = copy_picture (Example.configured 0 "23" 0) dst src)
    /\ (forall dst inp tmp,
          weave_picture s2 dst inp tmp
          = weave_picture (Example.configured 0 "23" 0) dst inp tmp).
Proof.
  apply (@config_input_twice Example.desc_get Example.fill_linesizes
           Example.count_planes Example.get_buffer Example.get_buffer
           (Example.initialized 0 "23" 0) Example.inlink).
  vm_compute. reflexivity.
Defined.

(** ** Plane copies *)

Lemma memcpy_length : forall dst d src s n,
  0 <= d -> 0 <= n -> 0 <= s ->
  d + n <= Z.of_nat (List.length dst) ->
  s + n <= Z.of_nat (List.length src) ->
  List.length (memcpy dst d src s n) = List.length dst.
Proof.
  intros dst d src s n Hd Hn Hs Ld Ls. unfold memcpy.
  rewrite !length_app, !length_firstn, !length_skipn. lia.
Qed.

Lemma memcpy_nth : forall dst d src s n j,
  0 <= d -> 0 <= n -> 0 <= s ->
  d + n <= Z.of_nat (List.length dst) ->
  s + n <= Z.of_nat (List.length src) ->
  0 <= j ->
  nth (Z.to_nat j) (memcpy dst d src s n) 0
  = if (d <=? j) && (j <? d + n) then nth (Z.to_nat (s + (j - d))) src 0
    else nth (Z.to_nat j) dst 0.
Proof.
  intros dst d src s n j Hd Hn Hs Ld Ls Hj. unfold memcpy.
  destruct (Z.lt_ge_cases j d) as [A|A].
  - replace (d <=? j) with false by (symmetry; apply Z.leb_gt; lia).
    cbn [andb]. rewrite app_nth1 by (rewrite length_firstn; lia).
    rewrite nth_firstn.
    replace (Z.to_nat j <? Z.to_nat d)%nat with true
      by (symmetry; apply Nat.ltb_lt; lia).
    reflexivity.
  - replace (d <=? j) with true by (symmetry; apply Z.leb_le; lia).
    cbn [andb]. rewrite app_nth2 by (rewrite length_firstn; lia).
    rewrite length_firstn.
    replace (Nat.min (Z.to_nat d) (List.length dst)) with (Z.to_nat d) by lia.
    destruct (j <? d + n) eqn:B.
    + apply Z.ltb_lt in B.
      rewrite app_nth1 by (rewrite length_firstn, length_skipn; lia).
      rewrite nth_firstn.
      replace (Z.to_nat j - Z.to_nat d <? Z.to_nat n)%nat with true
        by (symmetry; apply Nat.ltb_lt; lia).
      rewrite nth_skipn. f_equal. lia.
    + apply Z.ltb_ge in B.
      rewrite app_nth2 by (rewrite length_firstn, length_skipn; lia).
      rewrite length_firstn, length_skipn, nth_skipn. f_equal. lia.
Qed.

(** What [copy_rows] leaves in the destination: the rows it copies, and
    every other byte as it was. *)
Lemma copy_rows_spec : forall rows dst d dls src s sls bw,
  0 <= bw -> 0 <= d -> 0 <= s -> bw <= dls -> 0 <= sls ->
  (forall k, 0 <= k < Z.of_nat rows ->
     d + k * dls + bw <= Z.of_nat (List.length dst)) ->
  (forall k, 0 <= k < Z.of_nat rows ->
     s + k * sls + bw <= Z.of_nat (List.length src)) ->
  let res := copy_rows rows dst d dls src s sls bw in
  List.length res = List.length dst
  /\ (forall k c, 0 <= k < Z.of_nat rows -> 0 <= c < bw ->
        nth (Z.to_nat (d + k * dls + c)) res 0
        = nth (Z.to_nat (s + k * sls + c)) src 0)
  /\ (forall j, 0 <= j ->
        (forall k, 0 <= k < Z.of_nat rows ->
           ~ (d + k * dls <= j < d + k * dls + bw)) ->
        nth (Z.to_nat j) res 0 = nth (Z.to_nat j) dst 0).
Proof.
  induction rows as [|rows IH]; intros dst d dls src s sls bw Hbw Hd Hs Hls Hsl Bd Bs;
    cbn [copy_rows]; cbv zeta.
  - split; [reflexivity|]. split; [intros; lia | reflexivity].
  - pose proof (Bd 0 ltac:(lia)) as Bd0. pose proof (Bs 0 ltac:(lia)) as Bs0.
    assert (Lm : List.length (memcpy dst d src s bw) = List.length dst)
      by (apply memcpy_length; lia).
    destruct (IH (memcpy dst d src s bw) (d + dls) dls src (s + sls) sls bw)
      as (IL & IA & IB); try lia.
    { intros k Hk. rewrite Lm. specialize (Bd (k + 1) ltac:(lia)). lia. }
    { intros k Hk. specialize (Bs (k + 1) ltac:(lia)). lia. }
    split; [congruence|]. split.
    + intros k c Hk Hc.
      destruct (Z.eq_dec k 0) as [->|Nk].
      * rewrite IB; [|lia|intros k' Hk'; nia].
        rewrite memcpy_nth by lia.
        replace (d <=? d + 0 * dls + c) with true
          by (symmetry; apply Z.leb_le; lia).
        replace (d + 0 * dls + c <? d + bw) with true
          by (symmetry; apply Z.ltb_lt; lia).
        cbn [andb]. f_equal. lia.
      * replace (d + k * dls + c) with (d + dls + (k - 1) * dls + c) by ring.
        replace (s + k * sls + c) with (s + sls + (k - 1) * sls + c) by ring.
        apply IA; lia.
    + intros j Hj Out.
      rewrite IB; [|lia|].
      * rewrite memcpy_nth by lia.
        specialize (Out 0 ltac:(lia)).
        destruct ((d <=? j) && (j <? d + bw)) eqn:E; [|reflexivity].
        apply andb_true_iff in E. destruct E as [E1 E2].
        apply Z.leb_le in E1. apply Z.ltb_lt in E2. lia.
      * intros k Hk. specialize (Out (k + 1) ltac:(lia)). lia.
Qed.

Lemma upd_nth_length : forall (A : Type) (l : list A) i x,
  List.length (upd_nth l i x) = List.length l.
Proof.
  induction l as [|y l IH]; intros [|i] x; cbn; auto.
Qed.

Lemma upd_nth_same : forall (A : Type) (l : list A) i x d,
  (i < List.length l)%nat -> nth i (upd_nth l i x) d = x.
Proof.
  induction l as [|y l IH]; intros [|i] x d H; cbn in *; try lia; auto.
  apply IH. lia.
Qed.

Lemma upd_nth_other : forall (A : Type) (l : list A) i j x d,
  i <> j -> nth j (upd_nth l i x) d = nth j l d.
Proof.
  induction l as [|y l IH]; intros [|i] [|j] x d H; cbn; auto; try lia.
Qed.

(** A loop over the planes that rewrites plane [i] in step [i]. *)
Lemma fold_planes :
  forall (step : AVFrame -> nat -> AVFrame)
         (G : list Z -> nat -> list Z -> list Z),
    (forall dst i,
       step dst i
       = set_data dst
           (upd_nth (data dst) i (G (linesize dst) i (nth i (data dst) [])))) ->
    forall n dst,
      (n <= List.length (data dst))%nat ->
      let res := fold_left step (seq 0 n) dst in
      linesize res = linesize dst
      /\ List.length (data res) = List.length (data dst)
      /\ forall i,
           nth i (data res) []
           = if (i <? n)%nat then G (linesize dst) i (nth i (data dst) [])
             else nth i (data dst) [].
Proof.
  intros step G Hstep. induction n as [|n IH]; intros dst Hn; cbv zeta.
  - cbn. repeat split; reflexivity.
  - rewrite seq_S, fold_left_app. cbn [fold_left Nat.add].
    destruct (IH dst ltac:(lia)) as (IL & ID & IP).
    set (res := fold_left step (seq 0 n) dst) in *.
    rewrite Hstep. cbn [linesize data set_data].
    split; [exact IL|]. split; [rewrite upd_nth_length; exact ID|].
    intros i. destruct (Nat.eq_dec n i) as [<-|Ne].
    + rewrite upd_nth_same by lia.
      replace (n <? S n)%nat with true by (symmetry; apply Nat.ltb_lt; lia).
      rewrite IL, IP, Nat.ltb_irrefl. reflexivity.
    + rewrite upd_nth_other by exact Ne. rewrite IP.
      destruct (i <? n)%nat eqn:A.
      * apply Nat.ltb_lt in A.
        replace (i <? S n)%nat with true
          by (symmetry; apply Nat.ltb_lt; lia).
        reflexivity.
      * apply Nat.ltb_ge in A.
        replace (i <? S n)%nat with false
          by (symmetry; apply Nat.ltb_ge; lia).
        reflexivity.
Qed.

Lemma copy_picture_planes : forall s dst src,
  (Z.to_nat (nb_planes s) <= List.length (data dst))%nat ->
  let res := copy_picture s dst src in
  linesize res = linesize dst
  /\ List.length (data res) = List.length (data dst)
  /\ forall i,
       nth i (data res) []
       = if (i <? Z.to_nat (nb_planes s))%nat then
           av_image_copy_plane
             (nth i (data dst) []) 0 (nth i (linesize dst) 0)
             (nth i (data src) []) 0 (nth i (linesize src) 0)
             (nth i (stride s) 0) (nth i (planeheight s) 0)
         else nth i (data dst) [].
Proof.
  intros s dst src Hn. unfold copy_picture, copy_planes.
  apply (@fold_planes _
           (fun ls i p =>
              av_image_copy_plane p 0 (nth i ls 0)
                (nth i (data src) []) 0 (nth i (linesize src) 0)
                (nth i (stride s) 0) (nth i (planeheight s) 0)));
    [reflexivity | exact Hn].
Qed.

(** A whole-picture copy shows the picture of its source. *)
Lemma copy_picture_same : forall s s' dst src,
  same_geometry s s' ->
  holds_picture s dst -> holds_picture s src ->
  same_picture s (copy_picture s' dst src) src
  /\ holds_picture s (copy_picture s' dst src).
Proof.
  intros s s' dst src (Gn & Gp & Gs & _) [Hdl Hd] [Hsl Hs].
  destruct (@copy_picture_planes s' dst src) as (RL & RD & RP);
    [rewrite Gn; exact Hdl|].
  rewrite Gn, Gp, Gs in RP.
  assert (Rows : forall i, (i < Z.to_nat (nb_planes s))%nat ->
            let res := nth i (data (copy_picture s' dst src)) [] in
            List.length res = List.length (nth i (data dst) [])
            /\ forall k c, 0 <= k < nth i (planeheight s) 0 ->
                 0 <= c < nth i (stride s) 0 ->
                 nth (Z.to_nat (0 + k * nth i (linesize dst) 0 + c)) res 0
                 = nth (Z.to_nat (0 + k * nth i (linesize src) 0 + c))
                       (nth i (data src) []) 0).
  { intros i Hi. cbv zeta. rewrite RP.
    replace (i <? Z.to_nat (nb_planes s))%nat with true
      by (symmetry; apply Nat.ltb_lt; exact Hi).
    destruct (Hd i Hi) as [Hd1 Hd2]. destruct (Hs i Hi) as [Hs1 Hs2].
    unfold av_image_copy_plane.
    destruct (@copy_rows_spec (Z.to_nat (nth i (planeheight s) 0))
                (nth i (data dst) []) 0 (nth i (linesize dst) 0)
                (nth i (data src) []) 0 (nth i (linesize src) 0)
                (nth i (stride s) 0)) as (CL & CA & _); try lia.
    - intros k Hk. nia.
    - intros k Hk. nia.
    - split; [exact CL|]. intros k c Hk Hc. apply CA; lia. }
  split.
  - intros i r c Hi Hr Hc. unfold pixel. rewrite RL.
    destruct (Rows i Hi) as [_ R]. specialize (R r c Hr Hc).
    rewrite !Z.add_0_l in R. exact R.
  - split; [rewrite RD; exact Hdl|].
    intros i Hi. rewrite RL. destruct (Rows i Hi) as [L _].
    rewrite L. exact (Hd i Hi).
Qed.

Lemma upd_nth_twice : forall (A : Type) (F : A -> A) (l : list A) i x d,
  upd_nth (upd_nth l i x) i (F (nth i (upd_nth l i x) d))
  = upd_nth l i (F x).
Proof.
  induction l as [|y l IH]; intros [|i] x d; cbn; auto.
  f_equal. apply IH.
Qed.

Lemma weave_picture_planes : forall s dst inp tmp,
  (Z.to_nat (nb_planes s) <= List.length (data dst))%nat ->
  let res := weave_picture s dst inp tmp in
  let ff := first_field s in
  linesize res = linesize dst
  /\ List.length (data res) = List.length (data dst)
  /\ forall i,
       nth i (data res) []
       = if (i <? Z.to_nat (nb_planes s))%nat then
           av_image_copy_plane
             (av_image_copy_plane
                (nth i (data dst) []) (nth i (linesize dst) 0 * ff)
                (nth i (linesize dst) 0 * 2)
                (nth i (data inp) []) (nth i (linesize inp) 0 * ff)
                (nth i (linesize inp) 0 * 2)
                (nth i (stride s) 0)
                (Z.quot (nth i (planeheight s) 0 - ff + 1) 2))
             (nth i (linesize dst) 0 * lnot ff)
             (nth i (linesize dst) 0 * 2)
             (nth i (data tmp) []) (nth i (linesize tmp) 0 * lnot ff)
             (nth i (linesize tmp) 0 * 2)
             (nth i (stride s) 0)
             (Z.quot (nth i (planeheight s) 0 - lnot ff + 1) 2)
         else nth i (data dst) [].
Proof.
  intros s dst inp tmp Hn. unfold weave_picture, weave_planes.
  apply (@fold_planes _
           (fun ls i p =>
              av_image_copy_plane
                (av_image_copy_plane
                   p (nth i ls 0 * first_field s) (nth i ls 0 * 2)
                   (nth i (data inp) []) (nth i (linesize inp) 0 * first_field s)
                   (nth i (linesize inp) 0 * 2)
                   (nth i (stride s) 0)
                   (Z.quot (nth i (planeheight s) 0 - first_field s + 1) 2))
                (nth i ls 0 * lnot (first_field s)) (nth i ls 0 * 2)
                (nth i (data tmp) [])
                (nth i (linesize tmp) 0 * lnot (first_field s))
                (nth i (linesize tmp) 0 * 2)
                (nth i (stride s) 0)
                (Z.quot (nth i (planeheight s) 0 - lnot (first_field s) + 1)
                        2)));
    [|exact Hn].
  intros d i. cbv zeta. unfold set_data. cbn [data linesize pts props].
  f_equal.
  apply (@upd_nth_twice _
           (fun p =>
              av_image_copy_plane p
                (nth i (linesize d) 0 * lnot (first_field s))
                (nth i (linesize d) 0 * 2)
                (nth i (data tmp) [])
                (nth i (linesize tmp) 0 * lnot (first_field s))
                (nth i (linesize tmp) 0 * 2)
                (nth i (stride s) 0)
                (Z.quot (nth i (planeheight s) 0 - lnot (first_field s) + 1)
                        2))).
Qed.

(** The rows one field copy writes: [n] rows from row [f] on, every second
    one. *)
Lemma field_rows : forall ph f k,
  0 <= f <= 1 -> 0 <= k < Z.of_nat (Z.to_nat (Z.quot (ph - f + 1) 2)) ->
  f + 2 * k + 1 <= ph.
Proof.
  intros ph f k Hf Hk.
  destruct (Z.le_gt_cases 0 (ph - f + 1)) as [P|P].
  - rewrite Z.quot_div_nonneg in Hk by lia.
    pose proof (Z.div_mod (ph - f + 1) 2 ltac:(lia)).
    pose proof (Z.mod_pos_bound (ph - f + 1) 2 ltac:(lia)).
    lia.
  - assert (Z.quot (ph - f + 1) 2 <= 0).
    { apply Z.quot_le_upper_bound; lia. }
    lia.
Qed.

Lemma field_row_index : forall ph f r,
  0 <= f <= 1 -> 0 <= r < ph -> r mod 2 = f ->
  let k := (r - f) / 2 in
  r = f + 2 * k /\ 0 <= k < Z.of_nat (Z.to_nat (Z.quot (ph - f + 1) 2)).
Proof.
  intros ph f r Hf Hr Hm. cbv zeta.
  pose proof (Z.div_mod r 2 ltac:(lia)) as D. rewrite Hm in D.
  assert (K : (r - f) / 2 = r / 2).
  { replace (r - f) with (r / 2 * 2) by lia. apply Z.div_mul. lia. }
  rewrite K. split; [lia|].
  rewrite Z.quot_div_nonneg by lia.
  pose proof (Z.div_mod (ph - f + 1) 2 ltac:(lia)).
  pose proof (Z.mod_pos_bound (ph - f + 1) 2 ltac:(lia)).
  pose proof (Z.div_pos r 2 ltac:(lia) ltac:(lia)).
  assert (0 <= (ph - f + 1) / 2) by (apply Z.div_pos; lia).
  lia.
Qed.

Lemma lnot_field : forall f, 0 <= f <= 1 -> lnot f = 1 - f.
Proof.
  intros f Hf. unfold lnot. destruct (f =? 0) eqn:E.
  - apply Z.eqb_eq in E. lia.
  - apply Z.eqb_neq in E. lia.
Qed.

(** One plane woven by the two field copies of [weave_picture]. *)
Lemma weave_plane : forall P Pin Ptmp ld li lt bw ph ff,
  0 <= ff <= 1 ->
  0 <= bw <= ld -> bw <= li -> bw <= lt ->
  ph * ld <= Z.of_nat (List.length P) ->
  ph * li <= Z.of_nat (List.length Pin) ->
  ph * lt <= Z.of_nat (List.length Ptmp) ->
  let X := av_image_copy_plane P (ld * ff) (ld * 2) Pin (li * ff) (li * 2)
             bw (Z.quot (ph - ff + 1) 2) in
  let Y := av_image_copy_plane X (ld * lnot ff) (ld * 2)
             Ptmp (lt * lnot ff) (lt * 2)
             bw (Z.quot (ph - lnot ff + 1) 2) in
  List.length Y = List.length P
  /\ forall r c, 0 <= r < ph -> 0 <= c < bw ->
       nth (Z.to_nat (r * ld + c)) Y 0
       = if r mod 2 =? ff then nth (Z.to_nat (r * li + c)) Pin 0
         else nth (Z.to_nat (r * lt + c)) Ptmp 0.
Proof.
  intros P Pin Ptmp ld li lt bw ph ff Hff Hbw Hli Hlt LP LI LT.
  rewrite (lnot_field Hff). set (nf := 1 - ff).
  assert (Hnf : 0 <= nf <= 1) by (unfold nf; lia).
  unfold av_image_copy_plane. cbv zeta.
  destruct (@copy_rows_spec (Z.to_nat (Z.quot (ph - ff + 1) 2))
              P (ld * ff) (ld * 2) Pin (li * ff) (li * 2) bw)
    as (XL & XA & XB); try nia.
  { intros k Hk. pose proof (field_rows ph Hff Hk). nia. }
  { intros k Hk. pose proof (field_rows ph Hff Hk). nia. }
  set (X := copy_rows _ P _ _ Pin _ _ bw) in *.
  destruct (@copy_rows_spec (Z.to_nat (Z.quot (ph - nf + 1) 2))
              X (ld * nf) (ld * 2) Ptmp (lt * nf) (lt * 2) bw)
    as (YL & YA & YB); try nia.
  { intros k Hk. rewrite XL. pose proof (field_rows ph Hnf Hk). nia. }
  { intros k Hk. pose proof (field_rows ph Hnf Hk). nia. }
  split; [congruence|].
  intros r c Hr Hc.
  pose proof (Z.mod_pos_bound r 2 ltac:(lia)) as Hm.
  destruct (r mod 2 =? ff) eqn:E.
  - apply Z.eqb_eq in E.
    destruct (@field_row_index ph ff r Hff Hr E) as [Er Hk].
    set (k := (r - ff) / 2) in *.
    rewrite YB.
    + replace (r * ld + c) with (ld * ff + k * (ld * 2) + c)
        by (clearbody k; rewrite Er; ring).
      replace (r * li + c) with (li * ff + k * (li * 2) + c)
        by (clearbody k; rewrite Er; ring).
      apply XA; lia.
    + nia.
    + intros k' Hk' [A B].
      assert (r <> nf + 2 * k') by (unfold nf; lia).
      destruct (Z.lt_ge_cases r (nf + 2 * k')); nia.
  - apply Z.eqb_neq in E.
    assert (E' : r mod 2 = nf) by (unfold nf; lia).
    destruct (@field_row_index ph nf r Hnf Hr E') as [Er Hk].
    set (k := (r - nf) / 2) in *.
    replace (r * ld + c) with (ld * nf + k * (ld * 2) + c)
      by (clearbody k; rewrite Er; ring).
    replace (r * lt + c) with (lt * nf + k * (lt * 2) + c)
      by (clearbody k; rewrite Er; ring).
    apply YA; lia.
Qed.

(** [weave_picture] shows the first field of [inp] and the second field of
    [tmp]. *)
Lemma weave_picture_woven : forall s s' dst inp tmp,
  same_geometry s s' -> 0 <= first_field s <= 1 ->
  holds_picture s dst -> holds_picture s inp -> holds_picture s tmp ->
  woven s (weave_picture s' dst inp tmp) inp tmp
  /\ holds_picture s (weave_picture s' dst inp tmp).
Proof.
  intros s s' dst inp tmp (Gn & Gp & Gs & Gf) Hff [Hdl Hd] [Hil Hi] [Htl Ht].
  destruct (@weave_picture_planes s' dst inp tmp) as (RL & RD & RP);
    [rewrite Gn; exact Hdl|].
  rewrite Gn, Gp, Gs, Gf in RP.
  assert (Planes : forall i, (i < Z.to_nat (nb_planes s))%nat ->
            let res := nth i (data (weave_picture s' dst inp tmp)) [] in
            List.length res = List.length (nth i (data dst) [])
            /\ forall r c, 0 <= r < nth i (planeheight s) 0 ->
                 0 <= c < nth i (stride s) 0 ->
                 nth (Z.to_nat (r * nth i (linesize dst) 0 + c)) res 0
                 = if r mod 2 =? first_field s
                   then nth (Z.to_nat (r * nth i (linesize inp) 0 + c))
                            (nth i (data inp) []) 0
                   else nth (Z.to_nat (r * nth i (linesize tmp) 0 + c))
                            (nth i (data tmp) []) 0).
  { intros i Hlt. cbv zeta. rewrite RP.
    replace (i <? Z.to_nat (nb_planes s))%nat with true
      by (symmetry; apply Nat.ltb_lt; exact Hlt).
    destruct (Hd i Hlt) as [Hd1 Hd2]. destruct (Hi i Hlt) as [Hi1 Hi2].
    destruct (Ht i Hlt) as [Ht1 Ht2].
    apply weave_plane; lia. }
  split.
  - intros i r c Hlt Hr Hc. unfold pixel. rewrite RL.
    destruct (Planes i Hlt) as [_ R]. exact (R r c Hr Hc).
  - split; [rewrite RD; exact Hdl|].
    intros i Hlt. rewrite RL. destruct (Planes i Hlt) as [L _].
    rewrite L. exact (Hd i Hlt).
Qed.

(** ** The pattern "23" *)

Lemma init_ok_no_offset : forall ff pat s,
  init (new_context ff pat 0) = InitOk s ->
  pattern_pos s = 0 /\ init_len s = 0.
Proof.
  intros ff pat s. unfold init.
  cbn -[init_scan init_walk Z.add Z.mul].
  destruct (strlen pat =? 0); [discriminate|].
  destruct (init_scan pat 0 0 _) as [[[sum max] q]|]; [|discriminate].
  destruct (0 >=? sum); [discriminate|].
  intros H. inversion H; subst. split; reflexivity.
Qed.

Lemma config_input_buffers :
  forall desc_get fill count get_buffer s inlink s',
    frame s = [None; None] ->
    config_input desc_get fill count get_buffer s inlink = Some (s', 0) ->
    exists t b0 b1, temp s' = Some t /\ frame s' = [Some b0; Some b1].
Proof.
  intros desc_get fill count gb s inlink s' Hf. unfold config_input.
  cbn [temp set_temp frame set_frame]. rewrite Hf. cbn [upd_nth nth].
  destruct (gb 0%nat) as [t|]; [|intros H; inversion H; discriminate].
  destruct (gb 1%nat) as [b0|]; [|intros H; inversion H; discriminate].
  destruct (gb 2%nat) as [b1|]; [|intros H; inversion H; discriminate].
  destruct (fill (format inlink) (w inlink)) as [sizes r].
  destruct (r <? 0) eqn:R.
  { apply Z.ltb_lt in R. intros H; inversion H; subst. lia. }
  destruct (desc_get (format inlink)); [|discriminate].
  intros H; inversion H; subst. cbn. eauto.
Qed.

(** The context before the first frame when the stream starts at frame 0. *)
Lemma started_shape : forall s l,
  started s l -> start_frame s = 0 ->
  exists t b0 b1,
    s = {| first_field := first_field s; pattern := pattern s;
           start_frame := 0; init_len := 0; pattern_pos := 0;
           nskip_fields := 0; start_time := AV_NOPTS_VALUE;
           pts_mul := pts_mul s; ts_unit := ts_unit s; occupied := 0;
           nb_planes := nb_planes s; planeheight := planeheight s;
           stride := stride s; frame := [Some b0; Some b1];
           temp := Some t |}
    /\ 0 <= first_field s <= 1
    /\ frame_count_in l = 0 /\ delivered l = [].
Proof.
  intros s l (dg & fl & cp & gb & ff & pat & sf & s1 & s2 & il & ol
              & Hff & _ & Hi & Hc & Hf & Hd & Ho) Hsf.
  pose proof (init_ok _ _ _ Hi)
    as (_ & Hff1 & Hsf1 & _ & _ & _ & _ & Hn & Hst & Hoc & _ & _ & Hfr).
  pose proof (config_input_buffers _ _ _ _ _ _ Hfr Hc)
    as (t & b0 & b1 & Ht & Hb).
  apply config_input_engine in Hc. destruct Hc as [He _].
  unfold engine_fields in He. inversion He.
  apply config_output_engine in Ho.
  destruct Ho as (Hf' & Ht' & Hfr' & _ & _ & _ & Hfc & Hdl).
  inversion Hf'.
  assert (E : sf = 0) by congruence. rewrite E in Hi.
  apply init_ok_no_offset in Hi. destruct Hi as [Hp Hl].
  exists t, b0, b1.
  split; [|split; [|split]]; try congruence.
  destruct s; cbn in *. f_equal; congruence.
Qed.

Lemma same_picture_frame : forall s a a' b,
  data a' = data a -> linesize a' = linesize a ->
  same_picture s a b -> same_picture s a' b.
Proof.
  unfold same_picture, pixel. intros s a a' b -> ->. auto.
Qed.

Lemma woven_frame : forall s a a' b c,
  data a' = data a -> linesize a' = linesize a ->
  woven s a b c -> woven s a' b c.
Proof.
  unfold woven, pixel. intros s a a' b c -> ->. auto.
Qed.

Lemma woven_same : forall s o inp tmp tmp',
  woven s o inp tmp -> same_picture s tmp tmp' -> woven s o inp tmp'.
Proof.
  unfold woven, same_picture. intros s o inp tmp tmp' W S i r c Hi Hr Hc.
  rewrite (W i r c Hi Hr Hc). destruct (_ =? _); auto.
Qed.

Lemma send_frames_env : forall e e' s inpicref n i l ret,
  (forall k, clone_ok e k = clone_ok e' k) ->
  (forall k, next_ret e k = next_ret e' k) ->
  send_frames e s inpicref n i l ret = send_frames e' s inpicref n i l ret.
Proof.
  intros e e' s inpicref n. induction n as [|n IH];
    cbn [send_frames]; intros i l ret Hc Hn; [reflexivity|].
  destruct (nth i (frame s) None); [|reflexivity].
  rewrite Hc, Hn. destruct (negb _); [reflexivity|].
  cbn [ff_filter_frame]. now apply IH.
Qed.

Lemma finish_env : forall e e' s l f len out,
  (forall k, clone_ok e k = clone_ok e' k) ->
  (forall k, next_ret e k = next_ret e' k) ->
  finish e s l f len out = finish e' s l f len out.
Proof.
  intros e e' s l f len out Hc Hn. unfold finish.
  now rewrite (@send_frames_env e e' _ f out 0%nat l 0 Hc Hn).
Qed.

Lemma filter_frame_env : forall e e' s l f,
  (forall k, clone_ok e k = clone_ok e' k) ->
  (forall k, next_ret e k = next_ret e' k) ->
  filter_frame e s l f = filter_frame e' s l f.
Proof.
  intros e e' s l f Hc Hn. unfold filter_frame.
  repeat match goal with
         | |- context [match ?x with _ => _ end] =>
             lazymatch x with
             | context [finish] => fail
             | _ => destruct x
             end
         end;
    try reflexivity; now apply finish_env.
Qed.

(** When every clone succeeds the call is the call in the environment that
    always clones. *)
Lemma filter_frame_all_cloned : forall e s l f,
  all_cloned e ->
  filter_frame e s l f
  = filter_frame {| clone_ok := fun _ => true; next_ret := next_ret e |}
                 s l f.
Proof.
  intros e s l f H. apply filter_frame_env; [exact H | reflexivity].
Qed.

Lemma run_all_cloned : forall inputs s l,
  (forall e f, In (e, f) inputs -> all_cloned e) ->
  run s l inputs
  = run s l
      (map (fun i => ({| clone_ok := fun _ => true;
                         next_ret := next_ret (fst i) |}, snd i)) inputs).
Proof.
  induction inputs as [|[e f] inputs IH]; intros s l H; cbn [run map fst snd];
    [reflexivity|].
  rewrite <- filter_frame_all_cloned by (eapply H; left; reflexivity).
  destruct (filter_frame e s l f); [|reflexivity].
  apply IH. intros e' f' Hin. eapply H. right. exact Hin.
Qed.

Lemma outputs_all_cloned : forall inputs s l,
  (forall e f, In (e, f) inputs -> all_cloned e) ->
  outputs s l inputs
  = outputs s l
      (map (fun i => ({| clone_ok := fun _ => true;
                         next_ret := next_ret (fst i) |}, snd i)) inputs).
Proof.
  intros inputs s l H. unfold outputs. now rewrite run_all_cloned.
Qed.

Ltac all_cloned_inputs :=
  let e := fresh "e" in
  let f := fresh "f" in
  let H := fresh "H" in
  intros e f H; cbn [In] in H;
  repeat (destruct H as [H|H]; [inversion H; subst; assumption|]);
  contradiction.

(** C4, as the code has it.  For the pattern "23" from its first frame on,
    whatever the pictures of five consecutive input frames are (and with
    either field order): the calls send 1, 1, 0, 1 and 1 frames.  The
    first cycle gives two frames, and both are input frames as they are:
    the first (two fields) and the second (three fields, nothing is
    interleaved); the third input frame is buffered whole, which carries
    its stray field to the next cycle.  The two frames of the second cycle
    are woven, each from the first field of the current input frame and
    the second field of the one before it. *)
Theorem pattern_23_five_frames :
  forall s0 l0 e1 e2 e3 e4 e5 f1 f2 f3 f4 f5,
    started s0 l0 ->
    pattern s0 = "23"%string -> start_frame s0 = 0 ->
    all_cloned e1 -> all_cloned e2 -> all_cloned e3 ->
    all_cloned e4 -> all_cloned e5 ->
    buffers_hold s0 ->
    holds_picture s0 f1 -> holds_picture s0 f2 -> holds_picture s0 f3 ->
    holds_picture s0 f4 -> holds_picture s0 f5 ->
    exists o1 o2 o3 o4,
      outputs s0 l0 [(e1, f1)] = Some [o1]
      /\ outputs s0 l0 [(e1, f1); (e2, f2)] = Some [o1; o2]
      /\ outputs s0 l0 [(e1, f1); (e2, f2); (e3, f3)] = Some [o1; o2]
      /\ outputs s0 l0 [(e1, f1); (e2, f2); (e3, f3); (e4, f4)]
         = Some [o1; o2; o3]
      /\ outputs s0 l0 [(e1, f1); (e2, f2); (e3, f3); (e4, f4); (e5, f5)]
         = Some [o1; o2; o3; o4]
      /\ same_picture s0 o1 f1 /\ props o1 = props f1
      /\ same_picture s0 o2 f2 /\ props o2 = props f2
      /\ (exists s3 l3 t,
            run s0 l0 [(e1, f1); (e2, f2); (e3, f3)] = Some (s3, l3)
            /\ occupied s3 = 1 /\ temp s3 = Some t
            /\ same_picture s0 t f3)
      /\ woven s0 o3 f4 f3 /\ woven s0 o4 f5 f4.
Proof.
  intros s0 l0 e1 e2 e3 e4 e5 f1 f2 f3 f4 f5 St Hpat Hsf
         C1 C2 C3 C4 C5 HB H1 H2 H3 H4 H5.
  destruct (started_shape St Hsf) as (t & b0 & b1 & Hs & Hff & Hc & Hd).
  rewrite Hpat in Hs.
  destruct s0 as [ff pat sf il pp ns st pm tu oc nb ph sd fr tp].
  cbn [first_field pattern start_frame pts_mul ts_unit nb_planes planeheight
       stride] in Hs, Hff.
  inversion Hs; subst; clear Hs.
  destruct l0 as [lf lw lh lr lt lc ld]. cbn [frame_count_in delivered] in Hc, Hd.
  subst lc ld.
  set (S0 := {| first_field := ff; pattern := "23"; start_frame := 0;
                init_len := 0; pattern_pos := 0; nskip_fields := 0;
                start_time := AV_NOPTS_VALUE; pts_mul := pm; ts_unit := tu;
                occupied := 0; nb_planes := nb; planeheight := ph;
                stride := sd; frame := [Some b0; Some b1];
                temp := Some t |}) in *.
  assert (G : same_geometry S0 S0) by (repeat split).
  assert (Ht : holds_picture S0 t) by (apply HB; left; reflexivity).
  assert (Hb0 : holds_picture S0 b0)
    by (apply HB; right; left; reflexivity).
  destruct (copy_picture_same G Hb0 H1) as [P1 K1].
  destruct (copy_picture_same G K1 H2) as [P2 K2].
  destruct (copy_picture_same G Ht H3) as [P3 K3].
  destruct (weave_picture_woven G Hff K2 H4 K3) as [W3 K4].
  destruct (copy_picture_same G K3 H4) as [P4 K5].
  destruct (weave_picture_woven G Hff K4 H5 K5) as [W4 _].
  eexists _, _, _, _.
  split; [rewrite outputs_all_cloned by all_cloned_inputs; unfold S0;
          cbv -[copy_planes weave_planes frame_pts captured_start_time];
          reflexivity|].
  split; [rewrite outputs_all_cloned by all_cloned_inputs; unfold S0;
          cbv -[copy_planes weave_planes frame_pts captured_start_time];
          reflexivity|].
  split; [rewrite outputs_all_cloned by all_cloned_inputs; unfold S0;
          cbv -[copy_planes weave_planes frame_pts captured_start_time];
          reflexivity|].
  split; [rewrite outputs_all_cloned by all_cloned_inputs; unfold S0;
          cbv -[copy_planes weave_planes frame_pts captured_start_time];
          reflexivity|].
  split; [rewrite outputs_all_cloned by all_cloned_inputs; unfold S0;
          cbv -[copy_planes weave_planes frame_pts captured_start_time];
          reflexivity|].
  split; [eapply same_picture_frame; [| |exact P1]; reflexivity|].
  split; [reflexivity|].
  split; [eapply same_picture_frame; [| |exact P2]; reflexivity|].
  split; [reflexivity|].
  split.
  { eexists _, _, _.
    split; [rewrite run_all_cloned by all_cloned_inputs; unfold S0;
            cbv -[copy_planes weave_planes frame_pts captured_start_time];
            reflexivity|].
    split; [reflexivity|]. split; [reflexivity|]. exact P3. }
  split.
  - eapply woven_frame; [| |eapply woven_same; [exact W3 | exact P3]];
      reflexivity.
  - eapply woven_frame; [| |eapply woven_same; [exact W4 | exact P4]];
      reflexivity.
Qed.

Lemma example_holds_picture : forall b t,
  holds_picture (Example.ctx_after 0 "23" 0 []) (Example.gray b t).
Proof.
  intros b t. split; [cbn; lia|].
  intros i Hi. cbn in Hi.
  assert (i = 0%nat) by lia. subst i. clear Hi.
  cbn. lia.
Qed.

Lemma example_buffers :
  temp (Example.ctx_after 0 "23" 0 []) = Some (Example.gray 0 0)
  /\ frame (Example.ctx_after 0 "23" 0 [])
     = [Some (Example.gray 0 0); Some (Example.gray 0 0)].
Proof. vm_compute. split; reflexivity. Qed.

Lemma example_all_cloned : all_cloned Example.env.
Proof. intros i. reflexivity. Qed.

(** C4, witness: five gray frames whose bytes count up from 10, 20, 30, 40
    and 50. *)
Lemma pattern_23_five_frames_witness :
  let s0 := Example.ctx_after 0 "23" 0 [] in
  let l0 := Example.link_after 0 "23" 0 [] in
  let e := Example.env in
  let f1 := Example.gray 10 0 in
  let f2 := Example.gray 20 1 in
  let f3 := Example.gray 30 2 in
  let f4 := Example.gray 40 3 in
  let f5 := Example.gray 50 4 in
  exists o1 o2 o3 o4,
    outputs s0 l0 [(e, f1)] = Some [o1]
    /\ outputs s0 l0 [(e, f1); (e, f2)] = Some [o1; o2]
    /\ outputs s0 l0 [(e, f1); (e, f2); (e, f3)] = Some [o1; o2]
    /\ outputs s0 l0 [(e, f1); (e, f2); (e, f3); (e, f4)]
       = Some [o1; o2; o3]
    /\ outputs s0 l0 [(e, f1); (e, f2); (e, f3); (e, f4); (e, f5)]
       = Some [o1; o2; o3; o4]
    /\ same_picture s0 o1 f1 /\ props o1 = props f1
    /\ same_picture s0 o2 f2 /\ props o2 = props f2
    /\ (exists s3 l3 t,
          run s0 l0 [(e, f1); (e, f2); (e, f3)] = Some (s3, l3)
          /\ occupied s3 = 1 /\ temp s3 = Some t
          /\ same_picture s0 t f3)
    /\ woven s0 o3 f4 f3 /\ woven s0 o4 f5 f4.
Proof.
  cbv zeta.
  apply pattern_23_five_frames;
    try apply example_all_cloned;
    try apply example_holds_picture.
  - apply example_started with (ff := 0) (pat := "23"%string) (sf := 0);
      [lia | lia | vm_compute; reflexivity].
  - vm_compute. reflexivity.
  - vm_compute. reflexivity.
  - destruct example_buffers as [Ht Hf].
    intros b. rewrite Ht, Hf. cbn [In].
    intros [H|[H|[H|[]]]]; inversion H; subst; apply example_holds_picture.
Defined.

(** C4, counterexample: of the four frames that five gray frames give
    through the pattern "23", the second, the frame of three fields, has the
    bytes of the second input frame in every row and no byte of another
    input frame: it is not interleaved from two input frames. *)
Lemma three_field_frame_of_23_is_one_input_frame :
  let inputs := [Example.gray 10 0; Example.gray 20 1; Example.gray 30 2;
                 Example.gray 40 3; Example.gray 50 4] in
  match Example.feed 0 "23" 0 inputs with
  | Some (_, l) =>
      List.length (delivered l) = 4%nat
      /\ data (nth 1 (delivered l) (Example.gray 0 0))
         = data (Example.gray 20 1)
      /\ forallb
           (fun g =>
              forallb
                (fun x =>
                   negb (existsb (Z.eqb x)
                           (List.concat (data (nth 1 (delivered l)
                                              (Example.gray 0 0))))))
                (List.concat (data g)))
           [Example.gray 10 0; Example.gray 30 2; Example.gray 40 3;
            Example.gray 50 4] = true
  | None => False
  end.
Proof. vm_compute. repeat split. Qed.

(** * Further properties *)

(** ** More on init *)

(** X1.  What [init] answers for a pattern and a start frame: no pattern
    for the empty string, a non-numeric pattern when a character is no
    digit, a start frame too big when it reaches the sum of the digits, and
    success in every other case. *)
Theorem init_outcome : forall ff pat sf,
  match init (new_context ff pat sf) with
  | InitError NoPatternProvided => strlen pat = 0
  | InitError NonNumericPattern => 1 <= strlen pat /\ all_digits pat = false
  | InitError StartFrameTooBig =>
      1 <= strlen pat /\ all_digits pat = true /\ digit_sum pat <= sf
  | InitOk s =>
      1 <= strlen pat /\ all_digits pat = true /\ sf < digit_sum pat
  end.
Proof.
  intros ff pat sf.
  destruct (init (new_context ff pat sf)) as [e|s] eqn:I.
  - pose proof (strlen_nonneg pat) as L.
    destruct (Z.eq_dec (strlen pat) 0) as [Z0|NZ].
    + unfold init in I. cbn [pattern new_context] in I.
      rewrite Z0 in I. cbn in I. inversion I. exact Z0.
    + destruct (all_digits pat) eqn:D.
      * assert (L1 : 1 <= strlen pat) by lia.
        pose proof (@init_start_frame_too_big ff pat sf L1 D) as T.
        destruct (Z_le_gt_dec (digit_sum pat) sf) as [Le|Gt].
        -- pose proof Le as Le'. apply T in Le'. rewrite I in Le'.
           inversion Le'. auto.
        -- exfalso. unfold init in I.
           cbn -[init_scan init_walk Z.add Z.mul] in I.
           replace (strlen pat =? 0) with false in I
             by (symmetry; now apply Z.eqb_neq).
           destruct (init_scan pat 0 0 _) as [[[sum max] q]|] eqn:S.
           ++ apply init_scan_sum in S. destruct S as (-> & _).
              replace (sf >=? 0 + digit_sum pat) with false in I
                by (symmetry; rewrite Z.geb_leb; apply Z.leb_gt; lia).
              destruct (negb (sf =? 0)); [|discriminate].
              destruct (init_walk pat sf 0 0 0); discriminate.
           ++ revert S. apply init_scan_digits. exact D.
      * unfold init in I.
        cbn -[init_scan init_walk Z.add Z.mul] in I.
        replace (strlen pat =? 0) with false in I
          by (symmetry; now apply Z.eqb_neq).
        destruct (init_scan pat 0 0 _) as [[[sum max] q]|] eqn:S.
        -- exfalso. assert (all_digits pat = true)
             by (eapply init_scan_digits; rewrite S; discriminate).
           congruence.
        -- inversion I. split; [lia | reflexivity].
  - apply init_ok in I.
    destruct I as (_ & _ & _ & L & D & S & _). auto.
Qed.

(** X2.  [init] accepts no pattern whose digits are all zero: a start frame
    is never below the digit sum 0. *)
Theorem init_rejects_zero_patterns : forall ff pat sf,
  0 <= sf -> digit_sum pat = 0 ->
  exists e, init (new_context ff pat sf) = InitError e.
Proof.
  intros ff pat sf Hsf Z0.
  destruct (init (new_context ff pat sf)) as [e|s] eqn:I; [eauto|].
  apply init_ok in I. destruct I as (_ & _ & _ & _ & _ & S & _). lia.
Qed.

(** X2, witness: the pattern "000". *)
Lemma init_rejects_zero_patterns_witness :
  exists e, init (new_context 0 "000" 0) = InitError e.
Proof.
  apply init_rejects_zero_patterns; [lia | reflexivity].
Defined.

Lemma digit_sum_nonneg : forall p, all_digits p = true -> 0 <= digit_sum p.
Proof.
  induction p as [|c p IH]; cbn [all_digits digit_sum]; intros D; [lia|].
  destruct (char_code c =? 0); [lia|].
  apply andb_true_iff in D. destruct D as [D1 D2].
  unfold av_isdigit in D1. apply andb_true_iff in D1.
  destruct D1 as [A B]. apply Z.leb_le in A. specialize (IH D2). lia.
Qed.

Lemma fields_before_step : forall p k,
  all_digits p = true ->
  fields_before p k <= fields_before p (S k) <= fields_before p k + 9.
Proof.
  induction p as [|c p IH]; intros k D.
  - destruct k; cbn; lia.
  - cbn [all_digits] in D. cbn [fields_before].
    destruct (char_code c =? 0) eqn:E.
    + destruct k; cbn [fields_before]; rewrite ?E; lia.
    + apply andb_true_iff in D. destruct D as [D1 D2].
      unfold av_isdigit in D1. apply andb_true_iff in D1.
      destruct D1 as [A B]. apply Z.leb_le in A. apply Z.leb_le in B.
      destruct k as [|k].
      * cbn [fields_before]. destruct p; cbn [fields_before]; lia.
      * cbn [fields_before]. rewrite ?E. specialize (IH k D2). lia.
Qed.

(** The second loop of [init]: it stops behind the first character at which
    the fields reach [2 * sf], or at the end of the pattern. *)
Lemma init_walk_spec : forall p sf nfields pos len,
  all_digits p = true -> 0 <= pos -> pos + strlen p < 2 ^ 32 ->
  nfields < 2 * sf ->
  (nfields + digit_sum p < 2 * sf ->
   init_walk p sf nfields pos len = (pos + strlen p, len))
  /\ (2 * sf <= nfields + digit_sum p ->
      exists k : nat,
        Z.of_nat k < strlen p
        /\ nfields + fields_before p k < 2 * sf
           <= nfields + fields_before p (S k)
        /\ init_walk p sf nfields pos len
           = (pos + Z.of_nat k + 1,
              nfields + fields_before p (S k) - 2 * sf)).
Proof.
  induction p as [|c p IH]; intros sf nfields pos len D Hp Hl Hn;
    cbn [all_digits] in D; cbn [init_walk strlen digit_sum] in *.
  - split; [intros _; f_equal; lia | intros; lia].
  - destruct (char_code c =? 0) eqn:E.
    { split; [intros _; f_equal; lia | intros; lia]. }
    apply andb_true_iff in D. destruct D as [D1 D2].
    unfold av_isdigit in D1. apply andb_true_iff in D1.
    destruct D1 as [A B]. apply Z.leb_le in A. apply Z.leb_le in B.
    pose proof (strlen_nonneg p) as L.
    pose proof (digit_sum_nonneg p D2) as S0.
    rewrite to_uint_small by lia.
    destruct (nfields + (char_code c - 48) >=? 2 * sf) eqn:G.
    + rewrite Z.geb_leb in G. apply Z.leb_le in G.
      split; [intros; lia|]. intros _. exists 0%nat.
      cbn [fields_before]. rewrite E.
      replace (fields_before p 0) with 0 by (destruct p; reflexivity).
      split; [lia|]. split; [lia|]. f_equal; lia.
    + rewrite Z.geb_leb in G. apply Z.leb_gt in G.
      destruct (IH sf (nfields + (char_code c - 48)) (pos + 1) len D2)
        as [IA IB]; try lia.
      split.
      * intros Lt. rewrite IA by lia. f_equal; lia.
      * intros Ge. destruct IB as (k & Hk & Hf & Hw); [lia|].
        exists (S k). cbn [fields_before]. rewrite E.
        split; [lia|]. split; [lia|]. rewrite Hw. f_equal; lia.
Qed.

Lemma init_ok_walk : forall ff pat sf s,
  init (new_context ff pat sf) = InitOk s -> sf <> 0 ->
  (pattern_pos s, init_len s) = init_walk pat sf 0 0 0.
Proof.
  intros ff pat sf s. unfold init.
  cbn -[init_scan init_walk Z.add Z.mul].
  destruct (strlen pat =? 0); [discriminate|].
  destruct (init_scan pat 0 0 _) as [[[sum max] q]|]; [|discriminate].
  destruct (sf >=? sum); [discriminate|].
  intros H N. apply Z.eqb_neq in N. rewrite N in H. cbn [negb] in H.
  destruct (init_walk pat sf 0 0 0) as [pos len].
  inversion H; subst. reflexivity.
Qed.

(** X3.  For a start frame inside the cycle, [0 < start_frame] and
    [2 * start_frame] at most the sum of the digits, [init] leaves the
    cursor right behind the pattern entry whose fields reach
    [2 * start_frame], and the stray fields of that entry, between 0 and 8,
    in [init_len]. *)
Theorem init_start_position : forall ff pat sf s,
  init (new_context ff pat sf) = InitOk s ->
  strlen pat < 2 ^ 32 ->
  0 < sf -> 2 * sf <= digit_sum pat ->
  exists k : nat,
    pattern_pos s = Z.of_nat k + 1
    /\ Z.of_nat k < strlen pat
    /\ fields_before pat k < 2 * sf <= fields_before pat (S k)
    /\ init_len s = fields_before pat (S k) - 2 * sf
    /\ 0 <= init_len s <= 8.
Proof.
  intros ff pat sf s I L Hsf Hs.
  pose proof (init_ok _ _ _ I) as (_ & _ & _ & _ & D & _).
  apply init_ok_walk in I; [|lia].
  destruct (@init_walk_spec pat sf 0 0 0 D) as [_ B]; try lia.
  destruct B as (k & Hk & Hf & Hw); [lia|].
  rewrite Hw in I. pose proof (f_equal fst I) as P1. pose proof (f_equal snd I) as P2.
  cbn [fst snd] in P1, P2.
  pose proof (fields_before_step pat k D).
  exists k. repeat split; lia.
Qed.

(** X3, witness: the pattern "2332" with the start frame 3. *)
Lemma init_start_position_witness :
  exists k : nat,
    pattern_pos (Example.initialized 0 "2332" 3) = Z.of_nat k + 1
    /\ Z.of_nat k < strlen "2332"
    /\ fields_before "2332" k < 2 * 3 <= fields_before "2332" (S k)
    /\ init_len (Example.initialized 0 "2332" 3)
       = fields_before "2332" (S k) - 2 * 3
    /\ 0 <= init_len (Example.initialized 0 "2332" 3) <= 8.
Proof.
  apply (@init_start_position 0 "2332" 3).
  - vm_compute. reflexivity.
  - vm_compute. reflexivity.
  - lia.
  - vm_compute. discriminate.
Defined.

(** X4.  A start frame that [init] accepts although [2 * start_frame]
    exceeds the sum of the digits finds no entry: the cursor is left at the
    length of the pattern, on the terminator, with no stray field. *)
Theorem init_start_beyond_cycle : forall ff pat sf s,
  init (new_context ff pat sf) = InitOk s ->
  strlen pat < 2 ^ 32 ->
  digit_sum pat < 2 * sf ->
  pattern_pos s = strlen pat /\ init_len s = 0.
Proof.
  intros ff pat sf s I L Hs.
  pose proof (init_ok _ _ _ I) as (_ & _ & _ & _ & D & _).
  pose proof (digit_sum_nonneg pat D).
  apply init_ok_walk in I; [|lia].
  destruct (@init_walk_spec pat sf 0 0 0 D) as [A _]; try lia.
  rewrite A in I by lia. pose proof (f_equal fst I) as P1. pose proof (f_equal snd I) as P2.
  cbn [fst snd] in P1, P2. split; lia.
Qed.

(** X4, witness: the pattern "23" with the start frame 4. *)
Lemma init_start_beyond_cycle_witness :
  pattern_pos (Example.initialized 0 "23" 4) = strlen "23"
  /\ init_len (Example.initialized 0 "23" 4) = 0.
Proof.
  apply (@init_start_beyond_cycle 0 "23" 4).
  - vm_compute. reflexivity.
  - vm_compute. reflexivity.
  - vm_compute. reflexivity.
Defined.

(** X5.  The frame interval [config_output] stores in [ts_unit] is, as an
    exact rational, the inverse of (input frame rate x input time base): the
    pattern multiplier cancels out of it. *)
Theorem ts_unit_is_free_of_the_pattern :
  forall desc_get fill count get_buffer ff pat sf s1 s2 inlink outlink,
    0 <= sf ->
    init (new_context ff pat sf) = InitOk s1 ->
    config_input desc_get fill count get_buffer s1 inlink = Some (s2, 0) ->
    num (frame_rate inlink) <> 0 -> den (frame_rate inlink) <> 0 ->
    num (time_base inlink) <> 0 -> den (time_base inlink) <> 0 ->
    exists s3 outlink',
      config_output s2 inlink outlink = (s3, outlink', 0)
      /\ q_eq (ts_unit s3)
              (av_inv_q (q_mul (frame_rate inlink) (time_base inlink))).
Proof.
  intros desc_get fill count get_buffer ff pat sf s1 s2 inlink outlink
         Hsf Hinit Hcfg Hn Hd Htn Htd.
  apply init_ok in Hinit.
  destruct Hinit as (_ & _ & _ & HL & _ & HS & HQ & _).
  apply config_input_engine in Hcfg. destruct Hcfg as [Heng _].
  assert (HQ2 : pts_mul s2 = pattern_multiplier pat).
  { unfold engine_fields in Heng. inversion Heng. congruence. }
  unfold config_output.
  replace ((num (frame_rate inlink) =? 0) || (den (frame_rate inlink) =? 0))
    with false
    by (symmetry; apply orb_false_iff; split; now apply Z.eqb_neq).
  eexists _, _. split; [reflexivity|].
  cbn [ts_unit set_ts_unit frame_rate time_base set_rate]. rewrite HQ2.
  set (P := pattern_multiplier pat).
  assert (Pn : num P <> 0) by (unfold P, pattern_multiplier; cbn [num]; lia).
  assert (Pd : den P <> 0) by (unfold P, pattern_multiplier; cbn [den]; lia).
  pose proof (@av_mul_q_exact (frame_rate inlink) (av_inv_q P) Hd Pn) as EA.
  pose proof (@av_mul_q_exact (time_base inlink) P Htd Pd) as EB.
  set (A := av_mul_q (frame_rate inlink) (av_inv_q P)) in *.
  set (B := av_mul_q (time_base inlink) P) in *.
  assert (Ad : den A <> 0) by apply EA.
  assert (Bd : den B <> 0) by apply EB.
  pose proof (@av_mul_q_exact A B Ad Bd) as EC.
  set (C := av_mul_q A B) in *.
  destruct EA as (_ & _ & EA). destruct EB as (_ & _ & EB).
  destruct EC as (Cd & _ & EC).
  unfold q_eq. cbn [av_inv_q q_mul num den] in *.
  set (K := den A * den B * (num P * den P)).
  assert (K0 : K <> 0).
  { unfold K. intros Z0.
    repeat match goal with
           | H : _ * _ = 0 |- _ => apply Z.mul_eq_0 in H; destruct H
           end; contradiction. }
  assert (EQ : den C * (num (frame_rate inlink) * num (time_base inlink)) * K
               = den (frame_rate inlink) * den (time_base inlink) * num C * K).
  { unfold K.
    replace (den C * (num (frame_rate inlink) * num (time_base inlink))
             * (den A * den B * (num P * den P)))
      with ((num (frame_rate inlink) * den P * den A)
            * (num (time_base inlink) * num P * den B) * den C) by ring.
    rewrite <- EA, <- EB.
    replace (num A * (den (frame_rate inlink) * num P)
             * (num B * (den (time_base inlink) * den P)) * den C)
      with ((num A * num B * den C)
            * (den (frame_rate inlink) * num P
               * (den (time_base inlink) * den P))) by ring.
    rewrite <- EC. ring. }
  apply Z.mul_reg_r in EQ; [|exact K0].
  assert (N0 : num (frame_rate inlink) * num (time_base inlink) <> 0).
  { intros Z0. apply Z.mul_eq_0 in Z0. destruct Z0; contradiction. }
  repeat split; auto.
  intros C0. rewrite C0, Z.mul_0_r in EQ.
  apply Z.mul_eq_0 in EQ. destruct EQ; auto.
Qed.

(** X5, witness: the pattern "23" on a stream of 30 frames per second. *)
Lemma ts_unit_is_free_of_the_pattern_witness :
  exists s3 outlink',
    config_output (Example.configured 0 "23" 0)
                  Example.inlink Example.outlink = (s3, outlink', 0)
    /\ q_eq (ts_unit s3)
            (av_inv_q (q_mul (frame_rate Example.inlink)
                             (time_base Example.inlink))).
Proof.
  eapply (@ts_unit_is_free_of_the_pattern Example.desc_get
            Example.fill_linesizes Example.count_planes Example.get_buffer
            0 "23" 0).
  - lia.
  - vm_compute. reflexivity.
  - vm_compute. reflexivity.
  - vm_compute. discriminate.
  - vm_compute. discriminate.
  - vm_compute. discriminate.
  - vm_compute. discriminate.
Defined.

Lemma init_ok_geometry : forall ff pat sf s,
  init (new_context ff pat sf) = InitOk s ->
  planeheight s = [0; 0; 0; 0] /\ stride s = [0; 0; 0; 0] /\ nb_planes s = 0.
Proof.
  intros ff pat sf s. unfold init.
  cbn -[init_scan init_walk Z.add Z.mul].
  destruct (strlen pat =? 0); [discriminate|].
  destruct (init_scan pat 0 0 _) as [[[sum max] q]|]; [|discriminate].
  destruct (sf >=? sum); [discriminate|].
  destruct (negb (sf =? 0)).
  - destruct (init_walk pat sf 0 0 0) as [pos len].
    intros H; inversion H; subst. repeat split.
  - intros H; inversion H; subst. repeat split.
Qed.

(** [AV_CEIL_RSHIFT a b] is [a / 2^b] rounded up. *)
Lemma AV_CEIL_RSHIFT_ceiling : forall a b,
  0 <= b ->
  (AV_CEIL_RSHIFT a b - 1) * 2 ^ b < a <= AV_CEIL_RSHIFT a b * 2 ^ b.
Proof.
  intros a b Hb. unfold AV_CEIL_RSHIFT.
  rewrite Z.shiftr_div_pow2 by exact Hb.
  assert (P : 0 < 2 ^ b) by (apply Z.pow_pos_nonneg; lia).
  pose proof (Z.div_mod (- a) (2 ^ b) ltac:(lia)) as E.
  pose proof (Z.mod_pos_bound (- a) (2 ^ b) P) as M.
  nia.
Qed.

(** X6.  After [init] and a successful [config_input] the plane heights are
    the picture height for planes 0 and 3 and, for planes 1 and 2, the
    picture height divided by [2 ^ log2_chroma_h] and rounded up; the row
    sizes are those of [av_image_fill_linesizes] and the number of planes
    that of [av_pix_fmt_count_planes]. *)
Theorem config_input_geometry :
  forall desc_get fill count get_buffer ff pat sf s1 inlink s2,
    init (new_context ff pat sf) = InitOk s1 ->
    config_input desc_get fill count get_buffer s1 inlink = Some (s2, 0) ->
    exists d chroma,
      desc_get (format inlink) = Some d
      /\ planeheight s2 = [h inlink; chroma; chroma; h inlink]
      /\ (0 <= log2_chroma_h d ->
          (chroma - 1) * 2 ^ log2_chroma_h d < h inlink
          <= chroma * 2 ^ log2_chroma_h d)
      /\ stride s2 = fst (fill (format inlink) (w inlink))
      /\ nb_planes s2 = count (format inlink).
Proof.
  intros desc_get fill count get_buffer ff pat sf s1 inlink s2 I C.
  apply init_ok_geometry in I. destruct I as (PH & _ & _).
  apply config_input_result in C.
  destruct C as (_ & [(R & _) | [(R & _) | (d & _ & D & _ & S & N & H)]]).
  - discriminate R.
  - lia.
  - exists d, (AV_CEIL_RSHIFT (h inlink) (log2_chroma_h d)).
    rewrite H, PH. repeat split; auto.
    + apply AV_CEIL_RSHIFT_ceiling; assumption.
    + apply AV_CEIL_RSHIFT_ceiling; assumption.
Qed.

(** X6, witness: the gray8 stream of 2 x 4 pixels. *)
Lemma config_input_geometry_witness :
  exists d chroma,
    Example.desc_get (format Example.inlink) = Some d
    /\ planeheight (Example.configured 0 "23" 0)
       = [h Example.inlink; chroma; chroma; h Example.inlink]
    /\ (0 <= log2_chroma_h d ->
        (chroma - 1) * 2 ^ log2_chroma_h d < h Example.inlink
        <= chroma * 2 ^ log2_chroma_h d)
    /\ stride (Example.configured 0 "23" 0)
       = fst (Example.fill_linesizes (format Example.inlink)
                                     (w Example.inlink))
    /\ nb_planes (Example.configured 0 "23" 0)
       = Example.count_planes (format Example.inlink).
Proof.
  eapply (@config_input_geometry Example.desc_get Example.fill_linesizes
            Example.count_planes Example.get_buffer 0 "23" 0).
  - vm_compute. reflexivity.
  - vm_compute. reflexivity.
Defined.

Lemma char_at_digit : forall p j,
  all_digits p = true -> 0 <= j < strlen p -> 48 <= char_at p j <= 57.
Proof.
  unfold char_at.
  induction p as [|c p IH]; cbn [all_digits strlen]; intros j D Hj; [lia|].
  destruct (char_code c =? 0) eqn:E; [lia|].
  apply andb_true_iff in D. destruct D as [D1 D2].
  unfold av_isdigit in D1. apply andb_true_iff in D1. destruct D1 as [A B].
  apply Z.leb_le in A. apply Z.leb_le in B.
  destruct (Z.eq_dec j 0) as [->|N].
  - cbn. lia.
  - replace (Z.to_nat j) with (S (Z.to_nat (j - 1))) by lia.
    cbn [String.get]. apply IH; [exact D2 | lia].
Qed.

Lemma find_len_nonzero : forall fuel p len pos r,
  find_len fuel p len pos = Some r -> len <> 0 -> r = (len, pos).
Proof.
  destruct fuel; cbn [find_len]; intros p len pos r H N; [discriminate|].
  apply Z.eqb_neq in N. rewrite N in H. cbn [andb] in H. congruence.
Qed.

Lemma find_len_search : forall fuel p pos len' pos',
  all_digits p = true -> 0 <= pos <= strlen p -> strlen p < 2 ^ 32 ->
  find_len fuel p 0 pos = Some (len', pos') ->
  (len' = 0 /\ pos' = strlen p
   /\ forall j, pos <= j < strlen p -> char_at p j = 48)
  \/ (1 <= len' <= 9 /\ pos < pos' <= strlen p
      /\ char_at p (pos' - 1) = 48 + len'
      /\ forall j, pos <= j < pos' - 1 -> char_at p j = 48).
Proof.
  induction fuel as [|fuel IH]; cbn [find_len];
    intros p pos len' pos' D Hp L H; [discriminate|].
  change (0 =? 0) with true in H. cbn [andb] in H.
  destruct (char_at p pos =? 0) eqn:C; cbn [negb] in H.
  - inversion H; subst. left. apply Z.eqb_eq in C.
    assert (pos' = strlen p).
    { destruct (Z.eq_dec pos' (strlen p)); auto.
      pose proof (@char_at_digit p pos' D ltac:(lia)). lia. }
    repeat split; auto. intros; lia.
  - apply Z.eqb_neq in C. pose proof (char_at_cursor p Hp C) as Lt.
    pose proof (@char_at_digit p pos D ltac:(lia)) as Dg.
    rewrite to_uint_small in H by lia.
    destruct (Z.eq_dec (char_at p pos) 48) as [E|E].
    + rewrite E in H. change (48 - 48) with 0 in H.
      apply IH in H; auto; [|lia].
      destruct H as [(A & B & Cc) | (A & B & Cc & Dd)].
      * left. repeat split; auto. intros j Hj.
        destruct (Z.eq_dec j pos) as [->|]; auto. apply Cc; lia.
      * right. repeat split; try lia; auto. intros j Hj.
        destruct (Z.eq_dec j pos) as [->|]; auto. apply Dd; lia.
    + apply find_len_nonzero in H; [|lia]. inversion H; subst.
      right. replace (pos + 1 - 1) with pos by lia.
      repeat split; try lia.
Qed.

(** X7.  The cursor loop of [filter_frame], entered without fields in hand,
    stops right behind the first digit other than '0' at or after the
    cursor and gives its value; where only zeros are left it stops at the
    terminator with no field.  Entered with fields in hand it leaves them
    and the cursor as they are. *)
Theorem find_len_next_nonzero_digit : forall p pos,
  all_digits p = true -> 0 <= pos <= strlen p -> strlen p < 2 ^ 32 ->
  (exists len' pos',
     find_len (find_len_fuel p) p 0 pos = Some (len', pos')
     /\ ((len' = 0 /\ pos' = strlen p
          /\ forall j, pos <= j < strlen p -> char_at p j = 48)
         \/ (1 <= len' <= 9 /\ pos < pos' <= strlen p
             /\ char_at p (pos' - 1) = 48 + len'
             /\ forall j, pos <= j < pos' - 1 -> char_at p j = 48)))
  /\ (forall len, len <> 0 ->
        find_len (find_len_fuel p) p len pos = Some (len, pos)).
Proof.
  intros p pos D Hp L. split.
  - destruct (@find_len_fuel_enough p 0 pos L Hp) as [[len' pos'] F].
    exists len', pos'. split; [exact F|].
    eapply find_len_search; eauto.
  - intros len N. unfold find_len_fuel. cbn [find_len].
    apply Z.eqb_neq in N. rewrite N. reflexivity.
Qed.

(** X7, witness: the pattern "0032" from its start. *)
Lemma find_len_next_nonzero_digit_witness :
  (exists len' pos',
     find_len (find_len_fuel "0032") "0032" 0 0 = Some (len', pos')
     /\ ((len' = 0 /\ pos' = strlen "0032"
          /\ forall j, 0 <= j < strlen "0032" -> char_at "0032" j = 48)
         \/ (1 <= len' <= 9 /\ 0 < pos' <= strlen "0032"
             /\ char_at "0032" (pos' - 1) = 48 + len'
             /\ forall j, 0 <= j < pos' - 1 -> char_at "0032" j = 48)))
  /\ (forall len, len <> 0 ->
        find_len (find_len_fuel "0032") "0032" len 0 = Some (len, 0)).
Proof.
  apply (@find_len_next_nonzero_digit "0032" 0).
  - reflexivity.
  - vm_compute. split; discriminate.
  - vm_compute. reflexivity.
Defined.

Lemma init_walk_len : forall p sf nfields pos len,
  all_digits p = true -> nfields < 2 * sf -> 0 <= len <= 8 ->
  0 <= snd (init_walk p sf nfields pos len) <= 8.
Proof.
  induction p as [|c p IH]; intros sf nfields pos len D Hn Hl;
    cbn [all_digits] in D; cbn [init_walk]; [cbn; lia|].
  destruct (char_code c =? 0); [cbn; lia|].
  apply andb_true_iff in D. destruct D as [D1 D2].
  unfold av_isdigit in D1. apply andb_true_iff in D1.
  destruct D1 as [A B]. apply Z.leb_le in A. apply Z.leb_le in B.
  destruct (nfields + (char_code c - 48) >=? 2 * sf) eqn:G.
  - rewrite Z.geb_leb in G. apply Z.leb_le in G. cbn [snd]. lia.
  - rewrite Z.geb_leb in G. apply Z.leb_gt in G. apply IH; auto.
Qed.

Lemma init_ok_init_len : forall ff pat sf s,
  0 <= sf -> init (new_context ff pat sf) = InitOk s -> 0 <= init_len s <= 8.
Proof.
  intros ff pat sf s Hsf I.
  destruct (Z.eq_dec sf 0) as [->|N].
  - apply init_ok_no_offset in I. lia.
  - pose proof (init_ok _ _ _ I) as (_ & _ & _ & _ & D & _).
    apply init_ok_walk in I; [|exact N].
    pose proof (@init_walk_len pat sf 0 0 0 D ltac:(lia) ltac:(lia)) as B.
    rewrite <- I in B. exact B.
Qed.

Lemma started_bounds : forall s l, started s l -> engine_bounds s.
Proof.
  intros s l (dg & fl & cp & gb & ff & pat & sf & s1 & s2 & il & ol
              & _ & Hsf & Hi & Hc & _ & _ & Ho).
  pose proof (@init_ok_init_len ff pat sf s1 ltac:(lia) Hi) as IL.
  apply init_ok in Hi.
  destruct Hi as (Hpat & _ & _ & _ & D & _ & _ & Hn & _ & Hoc & _).
  apply config_input_engine in Hc. destruct Hc as [He _].
  unfold engine_fields in He. inversion He.
  apply config_output_engine in Ho. destruct Ho as (Hf' & _).
  inversion Hf'.
  unfold engine_bounds.
  assert (nskip_fields s = 0) by congruence.
  assert (occupied s = 0) by congruence.
  assert (init_len s = init_len s1) by congruence.
  assert (pattern s = pat) by congruence.
  repeat split; try lia; try congruence.
Qed.

Lemma find_len_len : forall fuel p len pos len' pos',
  find_len fuel p len pos = Some (len', pos') ->
  all_digits p = true -> 0 <= pos <= strlen p -> 0 <= len <= 9 ->
  0 <= len' <= 9.
Proof.
  induction fuel as [|fuel IH]; cbn [find_len];
    intros p len pos len' pos' H D Hp Hl; [discriminate|].
  destruct ((len =? 0) && negb (char_at p pos =? 0)) eqn:C.
  - apply andb_true_iff in C. destruct C as [_ C].
    apply negb_true_iff, Z.eqb_neq in C.
    pose proof (char_at_cursor p Hp C) as Lt.
    pose proof (@char_at_digit p pos D ltac:(lia)) as Dg.
    apply IH in H; auto; [|lia].
    apply to_uint_succ. lia.
  - inversion H; subst. exact Hl.
Qed.

Lemma rewind_fields : forall s,
  occupied (rewind s) = occupied s /\ init_len (rewind s) = init_len s
  /\ nskip_fields (rewind s) = nskip_fields s
  /\ pattern (rewind s) = pattern s
  /\ temp (rewind s) = temp s /\ frame (rewind s) = frame s.
Proof.
  intros s. unfold rewind. destruct (_ =? 0); cbn; repeat split.
Qed.

Lemma flush_buffered_bounds : forall s len out s' len' out',
  flush_buffered s len out = Some (s', len', out') ->
  all_digits (pattern s) = true ->
  0 <= pattern_pos s <= strlen (pattern s) ->
  0 <= len <= 9 -> (occupied s = 0 \/ occupied s = 1) ->
  0 <= len' <= 9 /\ (occupied s' = 0 \/ occupied s' = 1)
  /\ init_len s' = init_len s.
Proof.
  intros s len out s' len' out'. unfold flush_buffered.
  destruct ((len =? 1) && is_set (occupied s)).
  - intros H D Hp Hl Ho. repeat break_hyp H. inversion H; subst; clear H.
    match goal with E : find_len _ _ _ _ = Some _ |- _ =>
      apply find_len_len in E; [|exact D|cbn; exact Hp|lia] end.
    cbn [occupied init_len set_occupied].
    match goal with |- context [rewind ?a] =>
      destruct (rewind_fields a) as (_ & -> & _) end.
    cbn. repeat split; lia.
  - intros H D Hp Hl Ho. inversion H; subst. repeat split; lia.
Qed.

Lemma build_frame_bounds : forall s inpicref len out s' len' out',
  build_frame s inpicref len out = Some (s', len', out') ->
  0 <= len <= 9 -> (occupied s = 0 \/ occupied s = 1) ->
  0 <= len' <= 7 /\ (occupied s' = 0 \/ occupied s' = 1)
  /\ init_len s' = init_len s.
Proof.
  intros s inpicref len out s' len' out'. unfold build_frame.
  intros H Hl Ho.
  repeat break_hyp H; inversion H; subst; clear H; cbn;
    repeat match goal with
           | E : (_ >=? _) = _ |- _ => rewrite Z.geb_leb in E
           | E : (_ <=? _) = true |- _ => apply Z.leb_le in E
           | E : (_ <=? _) = false |- _ => apply Z.leb_gt in E
           | E : (_ =? _) = true |- _ => apply Z.eqb_eq in E
           | E : (_ =? _) = false |- _ => apply Z.eqb_neq in E
           end;
    repeat split; try lia; auto.
Qed.

Lemma capture_start_time_engine : forall s f,
  nskip_fields (capture_start_time s f) = nskip_fields s
  /\ occupied (capture_start_time s f) = occupied s
  /\ init_len (capture_start_time s f) = init_len s
  /\ pattern (capture_start_time s f) = pattern s
  /\ pattern_pos (capture_start_time s f) = pattern_pos s
  /\ temp (capture_start_time s f) = temp s
  /\ frame (capture_start_time s f) = frame s.
Proof. intros s f. unfold capture_start_time. cbn. repeat split. Qed.

Lemma finish_ctx : forall e s l f len out r,
  finish e s l f len out = Some r ->
  r_ctx r = set_nskip_fields s (to_uint len).
Proof.
  intros e s l f len out r. unfold finish.
  destruct (send_frames _ _ _ _ _ _ _) as [[l' ret']|]; [|discriminate].
  intros H. inversion H; subst. reflexivity.
Qed.

Lemma filter_frame_bounds : forall e s l f r,
  engine_bounds s -> cursor_ok s -> filter_frame e s l f = Some r ->
  engine_bounds (r_ctx r) /\ init_len (r_ctx r) = 0.
Proof.
  intros e s l f r (Bn & Bo & Bi & Bz & Bd) (L & Hp & _). unfold filter_frame.
  pose proof (capture_start_time_engine s f) as (Cn & Co & Ci & Cp & Cq & _).
  set (c := capture_start_time s f) in *. clearbody c.
  unfold engine_bounds.
  destruct (nskip_fields c >=? 2) eqn:N2.
  { rewrite Z.geb_leb in N2. apply Z.leb_le in N2.
    intros H. inversion H; subst; clear H.
    cbn [r_ctx nskip_fields occupied init_len pattern set_nskip_fields].
    rewrite to_uint_small by lia.
    rewrite Co, Ci, Cp, Cn. rewrite Bz by lia.
    repeat split; auto; lia. }
  rewrite Z.geb_leb in N2. apply Z.leb_gt in N2.
  destruct (nskip_fields c >=? 1) eqn:N1.
  { rewrite Z.geb_leb in N1. apply Z.leb_le in N1.
    destruct (temp c) as [t|]; [|discriminate].
    intros H. inversion H; subst; clear H.
    cbn [r_ctx nskip_fields occupied init_len pattern set_nskip_fields
         set_occupied set_temp].
    rewrite to_uint_small by lia.
    rewrite Ci, Cp, Cn. rewrite Bz by lia.
    repeat split; auto; lia. }
  rewrite Z.geb_leb in N1. apply Z.leb_gt in N1.
  destruct (nskip_fields c =? 0) eqn:N0; [|apply Z.eqb_neq in N0; lia].
  destruct (find_len _ _ _ _) as [[len pos]|] eqn:F; [|discriminate].
  cbn [pattern set_init_len pattern_pos] in F.
  pose proof (@find_len_len _ _ _ _ _ _ F) as FL.
  rewrite Cp, Cq, Ci in FL. specialize (FL Bd Hp ltac:(lia)).
  pose proof (@find_len_cursor _ _ _ _ _ _ F) as FC.
  rewrite Cp, Cq in FC. specialize (FC Hp).
  set (s1 := rewind (set_pattern_pos (set_init_len c 0) pos)).
  destruct (rewind_fields (set_pattern_pos (set_init_len c 0) pos))
    as (R1o & R1i & R1n & R1p & _).
  fold s1 in R1o, R1i, R1n, R1p. cbn in R1o, R1i, R1n, R1p.
  assert (P1 : 0 <= pattern_pos s1 < strlen (pattern s)).
  { rewrite <- Cp.
    apply (@rewind_cursor (set_init_len c 0) pos); cbn; rewrite Cp; lia. }
  destruct (len =? 0).
  { intros H. inversion H; subst; clear H. cbn [r_ctx].
    rewrite R1o, R1i, R1n, R1p, Co, Cp.
    repeat split; auto; lia. }
  destruct (flush_buffered s1 len 0) as [[[s2 len2] out2]|] eqn:FB;
    [|discriminate].
  pose proof (@flush_buffered_spec _ _ _ _ _ _ FB) as (S2 & _ & N2' & _).
  apply flush_buffered_bounds in FB;
    [|rewrite R1p, Cp; auto|rewrite R1p, Cp; lia|lia|rewrite R1o, Co; auto].
  destruct FB as (L2 & O2 & I2).
  destruct (build_frame s2 f len2 out2) as [[[s3 len3] out3]|] eqn:BF;
    [|discriminate].
  pose proof (@build_frame_spec _ _ _ _ _ _ _ BF) as (S3 & _ & N3' & _).
  apply build_frame_bounds in BF; auto.
  destruct BF as (L3 & O3 & I3).
  assert (PT : pattern s3 = pattern s).
  { destruct S3 as (_ & -> & _). destruct S2 as (_ & -> & _).
    rewrite R1p. exact Cp. }
  assert (IL : init_len s3 = 0) by congruence.
  intros H.
  destruct ((len3 =? 1) && is_set (occupied s3)) eqn:Last.
  - apply andb_true_iff in Last. destruct Last as [Last _].
    apply Z.eqb_eq in Last.
    apply finish_ctx in H. rewrite H. cbn.
    rewrite to_uint_small by lia. rewrite IL, PT.
    repeat split; auto; lia.
  - apply finish_ctx in H. rewrite H. cbn.
    rewrite to_uint_small by lia. rewrite IL, PT.
    repeat split; auto; lia.
Qed.

(** X8.  In every state the filter can reach the counters are in range:
    at most 7 fields are left to skip, [occupied] is 0 or 1, and the stray
    fields of [init] are between 0 and 8; every call leaves [init_len] at 0,
    so the stray fields are used by the first call only. *)
Theorem counters_stay_in_range : forall s l,
  reachable s l ->
  0 <= nskip_fields s <= 7
  /\ (occupied s = 0 \/ occupied s = 1)
  /\ 0 <= init_len s <= 8
  /\ forall e f r, filter_frame e s l f = Some r -> init_len (r_ctx r) = 0.
Proof.
  intros s l R.
  assert (B : engine_bounds s).
  { induction R as [s l H | s l e f r H IH F].
    - eapply started_bounds; eauto.
    - apply reachable_inv in H.
      apply (@filter_frame_bounds e s l f r IH (proj2 H) F). }
  pose proof (reachable_inv R) as [_ C].
  destruct B as (Bn & Bo & Bi & Bz & Bd).
  repeat split; try lia; auto.
  intros e f r F.
  apply (@filter_frame_bounds e s l f r); auto.
  repeat split; auto; lia.
Qed.

(** X8, witness: the pattern "2332" with the start frame 3, before the
    first call. *)
Lemma counters_stay_in_range_witness :
  let s := Example.ctx_after 0 "2332" 3 [] in
  let l := Example.link_after 0 "2332" 3 [] in
  0 <= nskip_fields s <= 7
  /\ (occupied s = 0 \/ occupied s = 1)
  /\ 0 <= init_len s <= 8
  /\ forall e f r, filter_frame e s l f = Some r -> init_len (r_ctx r) = 0.
Proof.
  cbv zeta. apply counters_stay_in_range.
  apply example_reachable; [lia | lia | vm_compute; discriminate].
Defined.

(** What the sending loop hands down and what it returns. *)
Lemma send_frames_sent : forall e s inpicref n i l ret l' ret',
  send_frames e s inpicref n i l ret = Some (l', ret') ->
  exists new,
    delivered l' = delivered l ++ new
    /\ (forall k, (k < List.length new)%nat -> clone_ok e (i + k) = true)
    /\ (forall k g, nth_error new k = Some g ->
          props g = props inpicref
          /\ exists b, nth (i + k) (frame s) None = Some b
                       /\ data g = data b /\ linesize g = linesize b)
    /\ (((List.length new < n)%nat
         /\ clone_ok e (i + List.length new) = false
         /\ ret' = AVERROR ENOMEM)
        \/ (List.length new = n
            /\ ret' = match List.length new with
                      | O => ret
                      | S k => next_ret e (i + k)
                      end)).
Proof.
  intros e s inpicref n. induction n as [|n IH];
    cbn [send_frames]; intros i l ret l' ret' H.
  - inversion H; subst. exists []. rewrite app_nil_r. cbn [List.length].
    split; [reflexivity|]. split; [intros; lia|].
    split; [intros [|k] g; discriminate|]. right. split; reflexivity.
  - destruct (nth i (frame s) None) as [fi|] eqn:Fi; [|discriminate].
    destruct (clone_ok e i) eqn:Ck; cbn [negb] in H.
    + cbn [ff_filter_frame] in H. apply IH in H.
      destruct H as (new & Hd & Hc & Hp & Hr). cbn [delivered] in Hd.
      eexists (_ :: new). rewrite Hd, <- app_assoc. cbn [app List.length].
      split; [reflexivity|]. split; [|split].
      * intros [|k] Hk; [now rewrite Nat.add_0_r|].
        rewrite Nat.add_succ_r. apply (Hc k). lia.
      * intros [|k] g Hk; cbn [nth_error] in Hk.
        -- inversion Hk; subst; clear Hk. cbn [props data linesize].
           split; [reflexivity|]. exists fi. rewrite Nat.add_0_r. auto.
        -- rewrite Nat.add_succ_r. apply (Hp k g Hk).
      * destruct Hr as [(Hl & Hf & Hr) | (Hl & Hr)].
        -- left. rewrite Nat.add_succ_r. split; [lia|]. split; assumption.
        -- right. split; [lia|]. rewrite Hr.
           destruct (List.length new) as [|k]; [now rewrite Nat.add_0_r|].
           now rewrite Nat.add_succ_r.
    + inversion H; subst. exists []. rewrite app_nil_r. cbn [List.length].
      split; [reflexivity|]. split; [intros; lia|].
      split; [intros [|k] g; discriminate|].
      left. rewrite Nat.add_0_r. split; [lia|]. split; [exact Ck | reflexivity].
Qed.

(** A call either ends before the sending loop, returning 0 with the link as
    it was, or ends with the loop; the context the loop runs on and the
    number of frames it has to send do not depend on the environment. *)
Lemma filter_frame_sends : forall s l f,
  (forall e r, filter_frame e s l f = Some r ->
     r_outlink r = l /\ r_ret r = 0)
  \/ exists s' out,
       (out <= 2)%nat
       /\ forall e r, filter_frame e s l f = Some r ->
            r_ctx r = s'
            /\ send_frames e s' f out 0 l 0 = Some (r_outlink r, r_ret r).
Proof.
  intros s l f. unfold filter_frame.
  set (c := capture_start_time s f). clearbody c.
  assert (Fin : forall s4 len4 out,
             (out <= 2)%nat ->
             (forall e r, finish e s4 l f len4 out = Some r ->
                r_outlink r = l /\ r_ret r = 0)
             \/ exists s' out',
                  (out' <= 2)%nat
                  /\ forall e r, finish e s4 l f len4 out = Some r ->
                       r_ctx r = s'
                       /\ send_frames e s' f out' 0 l 0
                          = Some (r_outlink r, r_ret r)).
  { intros s4 len4 out Ho. right.
    exists (set_nskip_fields s4 (to_uint len4)), out.
    split; [exact Ho|]. intros e r H. unfold finish in H.
    destruct (send_frames _ _ _ _ _ _ _) as [[l' ret']|];
      [|discriminate].
    inversion H; subst; clear H. split; reflexivity. }
  destruct (nskip_fields c >=? 2).
  { left. intros e r H. inversion H; subst. split; reflexivity. }
  destruct (nskip_fields c >=? 1).
  { left. destruct (temp c); [|discriminate].
    intros e r H. inversion H; subst. split; reflexivity. }
  destruct (nskip_fields c =? 0); [|apply Fin; lia].
  destruct (find_len _ _ _ _) as [[len pos]|]; [|left; discriminate].
  destruct (len =? 0).
  { left. intros e r H. inversion H; subst. split; reflexivity. }
  destruct (flush_buffered _ len 0) as [[[s2 len2] out2]|] eqn:FB;
    [|left; discriminate].
  apply flush_buffered_spec in FB. destruct FB as (_ & O2 & _).
  destruct (build_frame s2 f len2 out2) as [[[s3 len3] out3]|] eqn:BF;
    [|left; discriminate].
  apply build_frame_spec in BF. destruct BF as (_ & O3 & _).
  destruct ((len3 =? 1) && is_set (occupied s3)); apply Fin; lia.
Qed.

(** X9.  What a call returns.  The frames it sends are the buffers
    [frame[0]], [frame[1]] of the context it leaves, in this order, each
    with the properties of the input frame of the call, and every one of
    them was cloned.  Let [due] be the number of frames the call has to
    send, which is the number it sends when every clone succeeds.  When a
    clone fails, the call has sent the frames before it only and returns
    [AVERROR(ENOMEM)], whatever the next filter returned for them; when all
    [due] clones succeed, the call sends [due] frames and returns what the
    next filter returned for the LAST of them (an error it returned for the
    first of two frames is overwritten), and 0 when nothing was to send. *)
Theorem filter_frame_return_value : forall e e' s l f r r',
  filter_frame e s l f = Some r ->
  all_cloned e' ->
  filter_frame e' s l f = Some r' ->
  let new := sent_by l (r_outlink r) in
  let due := List.length (sent_by l (r_outlink r')) in
  delivered (r_outlink r) = delivered l ++ new
  /\ (forall k, (k < List.length new)%nat -> clone_ok e k = true)
  /\ (forall k g, nth_error new k = Some g ->
        props g = props f
        /\ exists b, nth k (frame (r_ctx r)) None = Some b
                     /\ data g = data b /\ linesize g = linesize b)
  /\ (((List.length new < due)%nat
       /\ clone_ok e (List.length new) = false
       /\ r_ret r = AVERROR ENOMEM)
      \/ (List.length new = due
          /\ r_ret r = match List.length new with
                       | O => 0
                       | S k => next_ret e k
                       end)).
Proof.
  intros e e' s l f r r' H A H'. cbv zeta.
  destruct (filter_frame_sends s l f) as [E | (s' & out & _ & E)].
  - destruct (E _ _ H) as (Hl & Hr). destruct (E _ _ H') as (Hl' & _).
    rewrite Hl, Hl', Hr. unfold sent_by. rewrite skipn_all.
    cbn [List.length]. rewrite app_nil_r.
    split; [reflexivity|]. split; [intros; lia|].
    split; [intros [|k] g; discriminate|]. right. split; reflexivity.
  - destruct (E _ _ H) as (Hc & S). destruct (E _ _ H') as (_ & S').
    subst s'.
    apply send_frames_sent in S. apply send_frames_sent in S'.
    destruct S as (new & Hd & Hk & Hp & Hr).
    destruct S' as (new' & Hd' & _ & _ & Hr').
    rewrite (@sent_by_app _ _ _ Hd), (@sent_by_app _ _ _ Hd').
    cbn [Nat.add] in *.
    assert (D : List.length new' = out).
    { destruct Hr' as [(_ & Hf & _) | (Hl & _)]; [|exact Hl].
      rewrite A in Hf. discriminate. }
    rewrite D.
    split; [exact Hd|]. split; [exact Hk|]. split; [exact Hp|].
    destruct Hr as [(Hl & Hf & Hr) | (Hl & Hr)]; [left | right]; auto.
Qed.

(** X10.  A call releases its input frame exactly when it starts with no
    field left to skip; a call that starts with fields to skip keeps the
    frame, sends nothing and returns 0. *)
Theorem input_released_unless_skipping : forall e s l f r,
  filter_frame e s l f = Some r ->
  (r_freed r = true <-> nskip_fields s < 1)
  /\ (1 <= nskip_fields s -> r_outlink r = l /\ r_ret r = 0).
Proof.
  intros e s l f r H.
  destruct (Z_lt_le_dec (nskip_fields s) 1) as [Lt|Ge].
  - split; [|intros; lia]. split; [intros _; exact Lt|intros _].
    revert H. unfold filter_frame.
    pose proof (capture_start_time_engine s f) as (Cn & _).
    set (c := capture_start_time s f) in *. clearbody c.
    replace (nskip_fields c >=? 2) with false
      by (symmetry; rewrite Z.geb_leb; apply Z.leb_gt; lia).
    replace (nskip_fields c >=? 1) with false
      by (symmetry; rewrite Z.geb_leb; apply Z.leb_gt; lia).
    assert (Fin : forall s4 len4 out,
               finish e s4 l f len4 out = Some r -> r_freed r = true).
    { intros s4 len4 out H. apply finish_spec in H. tauto. }
    destruct (nskip_fields c =? 0); [|apply Fin].
    destruct (find_len _ _ _ _) as [[len pos]|]; [|discriminate].
    destruct (len =? 0).
    { intros H. inversion H; subst. reflexivity. }
    destruct (flush_buffered _ len 0) as [[[s2 len2] out2]|];
      [|discriminate].
    destruct (build_frame s2 f len2 out2) as [[[s3 len3] out3]|];
      [|discriminate].
    destruct ((len3 =? 1) && is_set (occupied s3)); apply Fin.
  - destruct (@skipping_paths_keep_the_frame _ _ _ _ _ Ge H) as [Hf Hl].
    split.
    + rewrite Hf. split; [discriminate | lia].
    + intros _. split; [exact Hl|].
      revert H. unfold filter_frame.
      pose proof (capture_start_time_engine s f) as (Cn & _).
      set (c := capture_start_time s f) in *. clearbody c.
      destruct (nskip_fields c >=? 2) eqn:N2.
      { intros H. inversion H; subst. reflexivity. }
      replace (nskip_fields c >=? 1) with true
        by (symmetry; rewrite Z.geb_leb; apply Z.leb_le; lia).
      destruct (temp c); [|discriminate].
      intros H. inversion H; subst. reflexivity.
Qed.

(** X9, witness: the second frame of a stream through the pattern "11",
    with the first frame in the buffer: two frames are to send.  The clone
    of the second fails; the call sends one frame and returns
    [AVERROR(ENOMEM)], not the 7 that the next filter returned for the
    first. *)
Lemma filter_frame_return_value_witness :
  let s := Example.ctx_after 0 "11" 0 [Example.gray 10 0] in
  let l := Example.link_after 0 "11" 0 [Example.gray 10 0] in
  let e := {| clone_ok := fun k => Nat.eqb k 0; next_ret := fun _ => 7 |} in
  let e' := Example.env in
  let f := Example.gray 20 1 in
  exists r r',
    filter_frame e s l f = Some r
    /\ filter_frame e' s l f = Some r'
    /\ List.length (sent_by l (r_outlink r)) = 1%nat
    /\ List.length (sent_by l (r_outlink r')) = 2%nat
    /\ r_ret r = AVERROR ENOMEM
    /\ let new := sent_by l (r_outlink r) in
       let due := List.length (sent_by l (r_outlink r')) in
       delivered (r_outlink r) = delivered l ++ new
       /\ (forall k, (k < List.length new)%nat -> clone_ok e k = true)
       /\ (forall k g, nth_error new k = Some g ->
             props g = props f
             /\ exists b, nth k (frame (r_ctx r)) None = Some b
                          /\ data g = data b /\ linesize g = linesize b)
       /\ (((List.length new < due)%nat
            /\ clone_ok e (List.length new) = false
            /\ r_ret r = AVERROR ENOMEM)
           \/ (List.length new = due
               /\ r_ret r = match List.length new with
                            | O => 0
                            | S k => next_ret e k
                            end)).
Proof.
  cbv zeta. eexists. eexists.
  split; [vm_compute; reflexivity|].
  split; [vm_compute; reflexivity|].
  split; [vm_compute; reflexivity|].
  split; [vm_compute; reflexivity|].
  split; [vm_compute; reflexivity|].
  apply (@filter_frame_return_value
           {| clone_ok := fun k => Nat.eqb k 0; next_ret := fun _ => 7 |}
           Example.env
           (Example.ctx_after 0 "11" 0 [Example.gray 10 0])
           (Example.link_after 0 "11" 0 [Example.gray 10 0])
           (Example.gray 20 1)).
  - vm_compute. reflexivity.
  - intros i. reflexivity.
  - vm_compute. reflexivity.
Defined.

(** X10, witness: the third frame of a stream through the pattern "23", a
    call that starts with one field to skip. *)
Lemma input_released_unless_skipping_witness :
  let s := Example.ctx_after 0 "23" 0 [Example.gray 10 0; Example.gray 20 1] in
  let l := Example.link_after 0 "23" 0 [Example.gray 10 0; Example.gray 20 1] in
  exists r,
    filter_frame Example.env s l (Example.gray 30 2) = Some r
    /\ (r_freed r = true <-> nskip_fields s < 1)
    /\ (1 <= nskip_fields s -> r_outlink r = l /\ r_ret r = 0).
Proof.
  cbv zeta. eexists. split; [vm_compute; reflexivity|].
  apply (@input_released_unless_skipping Example.env
           (Example.ctx_after 0 "23" 0 [Example.gray 10 0; Example.gray 20 1])
           (Example.link_after 0 "23" 0 [Example.gray 10 0; Example.gray 20 1])
           (Example.gray 30 2)).
  vm_compute. reflexivity.
Defined.

(** ** Single calls, picture by picture *)

Lemma fits_holds : forall s f, fits s f = true -> holds_picture s f.
Proof.
  intros s f H. unfold fits in H. apply andb_true_iff in H.
  destruct H as [H1 H2]. apply Nat.leb_le in H1.
  split; [exact H1|]. intros i Hi.
  rewrite forallb_forall in H2.
  specialize (H2 i ltac:(apply in_seq; lia)).
  apply andb_true_iff in H2. destruct H2 as [H2 H3].
  apply andb_true_iff in H2. destruct H2 as [H2 H4].
  apply Z.leb_le in H2. apply Z.leb_le in H3. apply Z.leb_le in H4. lia.
Qed.

Lemma buffers_fit_hold : forall s, buffers_fit s = true -> buffers_hold s.
Proof.
  intros s H b Hb. unfold buffers_fit in H. rewrite forallb_forall in H.
  apply fits_holds. apply (H (Some b)).
  destruct Hb as [Hb|Hb]; [left; now symmetry | right; exact Hb].
Qed.

Lemma rewind_eq : forall s,
  rewind s = set_pattern_pos s (pattern_pos (rewind s)).
Proof.
  intros s. unfold rewind. destruct (_ =? 0); [reflexivity|].
  destruct s; reflexivity.
Qed.

Lemma char_at_inside : forall p pos,
  0 <= pos < strlen p -> char_at p pos <> 0.
Proof.
  unfold char_at.
  induction p as [|c p IH]; cbn [strlen]; intros pos Hlt; [lia|].
  destruct (char_code c =? 0) eqn:E; [lia|].
  destruct (Z.eq_dec pos 0) as [->|N].
  - cbn. apply Z.eqb_neq in E. exact E.
  - replace (Z.to_nat pos) with (S (Z.to_nat (pos - 1))) by lia.
    cbn [String.get]. apply IH. lia.
Qed.

(** The rewind makes the cursor cyclic. *)
Lemma rewind_pos : forall s pos,
  1 <= strlen (pattern s) -> 0 <= pos <= strlen (pattern s) ->
  pattern_pos (rewind (set_pattern_pos s pos)) = pos mod strlen (pattern s).
Proof.
  intros s pos L Hp. unfold rewind. cbn [pattern pattern_pos set_pattern_pos].
  destruct (char_at (pattern s) pos =? 0) eqn:C.
  - apply Z.eqb_eq in C. cbn [pattern_pos set_pattern_pos].
    destruct (Z.eq_dec pos (strlen (pattern s))) as [->|N].
    + now rewrite Z.mod_same by lia.
    + exfalso. revert C. apply char_at_inside. lia.
  - apply Z.eqb_neq in C. cbn [pattern_pos set_pattern_pos].
    pose proof (@char_at_cursor (pattern s) pos Hp C).
    now rewrite Z.mod_small by lia.
Qed.

Lemma find_len_digit : forall p pos d,
  0 <= pos < strlen p -> strlen p < 2 ^ 32 ->
  char_at p pos = 48 + d -> 1 <= d ->
  find_len (find_len_fuel p) p 0 pos = Some (d, pos + 1).
Proof.
  intros p pos d Hp L C N. unfold find_len_fuel.
  destruct (Z.to_nat (strlen p)) as [|n] eqn:E; [lia|].
  cbn [find_len]. change (0 =? 0) with true. cbn [andb].
  rewrite C. replace (48 + d =? 0) with false
    by (symmetry; apply Z.eqb_neq; lia).
  cbn [negb]. replace (48 + d - 48) with d by lia.
  replace (d =? 0) with false by (symmetry; apply Z.eqb_neq; lia).
  cbn [andb]. now rewrite to_uint_small by lia.
Qed.

Lemma nth_some_in : forall (A : Type) (l : list (option A)) n b,
  nth n l None = Some b -> In (Some b) l.
Proof.
  induction l as [|x l IH]; intros [|n] b H; cbn in *;
    try discriminate; auto.
  right. eapply IH; eauto.
Qed.

Lemma nth_some_length : forall (A : Type) (l : list (option A)) n b,
  nth n l None = Some b -> (n < List.length l)%nat.
Proof.
  induction l as [|x l IH]; intros [|n] b H; cbn in *;
    try discriminate; try lia.
  apply IH in H. lia.
Qed.

(** The sending loop for one frame and for two. *)
Lemma finish_one : forall e s l f len b,
  nth 0 (frame s) None = Some b -> clone_ok e 0 = true ->
  exists r,
    finish e s l f len 1 = Some r
    /\ r_ctx r = set_nskip_fields s (to_uint len)
    /\ delivered (r_outlink r) = delivered l ++ [sent_frame s l f b]
    /\ r_ret r = next_ret e 0 /\ r_freed r = true.
Proof.
  intros e s l f len b Hb Hc. unfold finish. cbn [send_frames].
  cbn [frame set_nskip_fields]. rewrite Hb, Hc. cbn [negb ff_filter_frame].
  eexists. split; [reflexivity|]. cbn. repeat split.
Qed.

Lemma finish_two : forall e s l f len b0 b1,
  nth 0 (frame s) None = Some b0 -> nth 1 (frame s) None = Some b1 ->
  clone_ok e 0 = true -> clone_ok e 1 = true ->
  exists r l1,
    finish e s l f len 2 = Some r
    /\ r_ctx r = set_nskip_fields s (to_uint len)
    /\ frame_count_in l1 = frame_count_in l + 1
    /\ delivered (r_outlink r)
       = delivered l ++ [sent_frame s l f b0; sent_frame s l1 f b1]
    /\ r_ret r = next_ret e 1 /\ r_freed r = true.
Proof.
  intros e s l f len b0 b1 H0 H1 C0 C1. unfold finish. cbn [send_frames].
  cbn [frame set_nskip_fields]. rewrite H0, H1, C0, C1.
  cbn [negb ff_filter_frame].
  eexists. eexists (fst (ff_filter_frame (next_ret e 0) l
                           (sent_frame s l f b0))).
  split; [reflexivity|]. cbn. rewrite <- app_assoc. repeat split.
Qed.

(** The start of a call that has no field to skip and no stray field, at a
    cursor on the digit [d]. *)
Ltac enter_call N0 I0 Hp L C :=
  unfold filter_frame, capture_start_time;
  cbn [nskip_fields init_len pattern pattern_pos set_init_len set_start_time];
  rewrite N0, I0;
  change (0 >=? 2) with false; change (0 >=? 1) with false;
  change (0 =? 0) with true; cbv iota;
  rewrite (@find_len_digit _ _ _ Hp L C ltac:(lia));
  match goal with
  | |- context [rewind (set_pattern_pos ?x ?p)] =>
      let P := fresh "P" in
      let pos' := fresh "pos'" in
      pose proof (@rewind_pos x p ltac:(cbn; lia) ltac:(cbn; lia)) as P;
      cbn [pattern set_init_len set_start_time] in P;
      rewrite (rewind_eq (set_pattern_pos x p));
      set (pos' := pattern_pos (rewind (set_pattern_pos x p))) in *;
      clearbody pos'
  end.

Lemma holds_picture_geometry : forall s c b,
  same_geometry s c -> holds_picture s b -> holds_picture c b.
Proof.
  unfold same_geometry, holds_picture.
  intros s c b (-> & -> & -> & _) H. exact H.
Qed.

Lemma in_upd_nth : forall (A : Type) (l : list A) i x y,
  In y (upd_nth l i x) -> y = x \/ In y l.
Proof.
  induction l as [|a l IH]; intros [|i] x y H; cbn in *; try tauto.
  - destruct H as [H|H]; auto.
  - destruct H as [H|H]; auto.
    apply IH in H. tauto.
Qed.

(** A call that sends the input frame as it is, with the whole state it
    leaves. *)
Lemma input_frame_as_it_is : forall e s l f d,
  buffers_allocated s -> buffers_hold s -> holds_picture s f ->
  strlen (pattern s) < 2 ^ 32 -> 0 <= pattern_pos s < strlen (pattern s) ->
  nskip_fields s = 0 -> init_len s = 0 -> occupied s = 0 ->
  char_at (pattern s) (pattern_pos s) = 48 + d -> 2 <= d <= 9 ->
  clone_ok e 0 = true ->
  exists r o,
    filter_frame e s l f = Some r
    /\ delivered (r_outlink r) = delivered l ++ [o]
    /\ same_picture s o f /\ props o = props f
    /\ nskip_fields (r_ctx r) = d - 2
    /\ occupied (r_ctx r) = 0
    /\ temp (r_ctx r) = temp s
    /\ pattern_pos (r_ctx r) = (pattern_pos s + 1) mod strlen (pattern s)
    /\ r_ret r = next_ret e 0 /\ r_freed r = true
    /\ init_len (r_ctx r) = 0 /\ pattern (r_ctx r) = pattern s
    /\ same_geometry s (r_ctx r)
    /\ buffers_allocated (r_ctx r) /\ buffers_hold (r_ctx r).
Proof.
  intros e s l f d BA BH HF L Hp N0 I0 O0 C Hd Ck.
  destruct (@allocated_slot s 0%nat BA ltac:(lia)) as [b0 Hb0].
  assert (Hh0 : holds_picture s b0)
    by (apply BH; right; eapply nth_some_in; eauto).
  enter_call N0 I0 Hp L C.
  replace (d =? 0) with false by (symmetry; apply Z.eqb_neq; lia).
  unfold flush_buffered.
  replace (d =? 1) with false by (symmetry; apply Z.eqb_neq; lia).
  cbn [andb].
  unfold build_frame. cbn [occupied set_pattern_pos set_init_len set_start_time].
  rewrite O0. unfold is_set at 1. change (0 =? 0) with true. cbn [negb].
  replace (d >=? 2) with true
    by (symmetry; rewrite Z.geb_leb; apply Z.leb_le; lia).
  cbn [frame set_pattern_pos set_init_len set_start_time].
  rewrite Hb0.
  cbn [occupied set_frame set_pattern_pos set_init_len set_start_time].
  rewrite O0. unfold is_set. change (0 =? 0) with true. cbn [negb].
  rewrite andb_false_r.
  set (c := set_pattern_pos _ pos').
  assert (G : same_geometry s c) by (repeat split).
  destruct (copy_picture_same G Hh0 HF) as [Q K].
  set (b := copy_picture c b0 f) in *.
  destruct (@finish_one e (set_frame c (upd_nth (frame s) 0 (Some b)))
              l f (d - 2) b) as (r & F & Rc & Rd & Rr & Rf); [|exact Ck|].
  { cbn [frame set_frame]. apply upd_nth_same.
    eapply nth_some_length; eauto. }
  exists r, (sent_frame (set_frame c (upd_nth (frame s) 0 (Some b))) l f b).
  split; [exact F|]. split; [exact Rd|].
  split; [eapply same_picture_frame; [| |exact Q]; reflexivity|].
  split; [reflexivity|].
  assert (G' : same_geometry s (r_ctx r)) by (rewrite Rc; repeat split).
  assert (BA' : buffers_allocated (r_ctx r)).
  { rewrite Rc. destruct BA as (B1 & B2 & B3).
    repeat split; cbn; auto; now apply nth_upd_nth_allocated. }
  assert (BH' : buffers_hold (r_ctx r)).
  { intros x Hx. apply (@holds_picture_geometry s); [exact G'|].
    rewrite Rc in Hx. cbn in Hx.
    destruct Hx as [Hx|Hx]; [apply BH; left; exact Hx|].
    apply in_upd_nth in Hx. destruct Hx as [Hx|Hx].
    - inversion Hx; subst. exact K.
    - apply BH. right. exact Hx. }
  split; [rewrite Rc; cbn; now rewrite to_uint_small by lia|].
  split; [rewrite Rc; cbn; exact O0|].
  split; [rewrite Rc; reflexivity|].
  split; [rewrite Rc; exact P|].
  split; [exact Rr|]. split; [exact Rf|].
  split; [rewrite Rc; reflexivity|].
  split; [rewrite Rc; reflexivity|].
  split; [exact G'|]. split; [exact BA' | exact BH'].
Qed.

(** X11.  A call at a pattern entry of two or more fields with no frame
    buffered sends the input frame as it is: one frame with the picture and
    the properties of the input; the fields beyond two are left to skip,
    and the cursor moves on cyclically. *)
Theorem verbatim_call : forall e s l f d,
  buffers_allocated s -> buffers_hold s -> holds_picture s f ->
  strlen (pattern s) < 2 ^ 32 -> 0 <= pattern_pos s < strlen (pattern s) ->
  nskip_fields s = 0 -> init_len s = 0 -> occupied s = 0 ->
  char_at (pattern s) (pattern_pos s) = 48 + d -> 2 <= d <= 9 ->
  clone_ok e 0 = true ->
  exists r o,
    filter_frame e s l f = Some r
    /\ sent_by l (r_outlink r) = [o]
    /\ same_picture s o f /\ props o = props f
    /\ nskip_fields (r_ctx r) = d - 2
    /\ occupied (r_ctx r) = 0
    /\ temp (r_ctx r) = temp s
    /\ pattern_pos (r_ctx r) = (pattern_pos s + 1) mod strlen (pattern s)
    /\ r_ret r = next_ret e 0 /\ r_freed r = true.
Proof.
  intros e s l f d BA BH HF L Hp N0 I0 O0 C Hd Ck.
  destruct (@input_frame_as_it_is e s l f d BA BH HF L Hp N0 I0 O0 C Hd Ck)
    as (r & o & F & Rd & Q & Pr & N & O & T & P & Rr & Rf & _).
  exists r, o. split; [exact F|]. split; [apply sent_by_app; exact Rd|].
  repeat split; auto; apply Q.
Qed.

(** X12.  A call at a pattern entry of two or more fields with a frame
    buffered sends one frame woven from the two: the rows of the first
    field from the input frame, the other rows from the buffered frame.  At
    an entry of two fields the input frame takes the place of the buffered
    frame; at a longer entry the buffer is given up and the fields beyond
    three are left to skip. *)
Theorem woven_call : forall e s l f d t,
  buffers_allocated s -> buffers_hold s -> holds_picture s f ->
  0 <= first_field s <= 1 ->
  strlen (pattern s) < 2 ^ 32 -> 0 <= pattern_pos s < strlen (pattern s) ->
  nskip_fields s = 0 -> init_len s = 0 ->
  occupied s <> 0 -> temp s = Some t ->
  char_at (pattern s) (pattern_pos s) = 48 + d -> 2 <= d <= 9 ->
  clone_ok e 0 = true ->
  exists r o,
    filter_frame e s l f = Some r
    /\ sent_by l (r_outlink r) = [o]
    /\ woven s o f t /\ props o = props f
    /\ (d = 2 ->
        occupied (r_ctx r) = 1 /\ nskip_fields (r_ctx r) = 0
        /\ exists t', temp (r_ctx r) = Some t' /\ same_picture s t' f)
    /\ (3 <= d ->
        occupied (r_ctx r) = 0 /\ nskip_fields (r_ctx r) = d - 3
        /\ temp (r_ctx r) = Some t)
    /\ pattern_pos (r_ctx r) = (pattern_pos s + 1) mod strlen (pattern s)
    /\ r_ret r = next_ret e 0 /\ r_freed r = true.
Proof.
  intros e s l f d t BA BH HF FF L Hp N0 I0 O1 Ht C Hd Ck.
  destruct (@allocated_slot s 0%nat BA ltac:(lia)) as [b0 Hb0].
  assert (Hh0 : holds_picture s b0)
    by (apply BH; right; eapply nth_some_in; eauto).
  assert (Hht : holds_picture s t) by (apply BH; left; exact Ht).
  assert (Hlen : (0 < List.length (frame s))%nat)
    by (eapply nth_some_length; eauto).
  enter_call N0 I0 Hp L C.
  replace (d =? 0) with false by (symmetry; apply Z.eqb_neq; lia).
  unfold flush_buffered.
  replace (d =? 1) with false by (symmetry; apply Z.eqb_neq; lia).
  cbn [andb].
  unfold build_frame.
  cbn [occupied frame temp set_pattern_pos set_init_len set_start_time].
  unfold is_set at 1.
  replace (occupied s =? 0) with false by (symmetry; now apply Z.eqb_neq).
  cbn [negb]. rewrite Hb0, Ht.
  cbn [temp set_occupied set_frame set_pattern_pos set_init_len set_start_time].
  rewrite Ht.
  set (c := set_pattern_pos _ pos').
  assert (G : same_geometry s c) by (repeat split).
  destruct (weave_picture_woven G FF Hh0 HF Hht) as [W K].
  set (b := weave_picture c b0 f t) in *.
  destruct (Z.eq_dec d 2) as [D2|D2].
  - subst d. change (2 <=? 2) with true. change (2 >=? 3) with false.
    cbv iota. change (0 =? 1) with false. cbn [andb].
    set (c1 := set_occupied (set_frame c (upd_nth (frame s) 0 (Some b))) 0).
    assert (G1 : same_geometry s c1) by (repeat split).
    destruct (copy_picture_same G1 Hht HF) as [Q1 K1].
    set (t1 := copy_picture c1 t f) in *.
    destruct (@finish_one e (set_occupied (set_temp c1 (Some t1)) 1)
                l f 0 b) as (r & F & Rc & Rd & Rr & Rf); [|exact Ck|].
    { cbn [frame set_frame set_occupied set_temp c1].
      now apply upd_nth_same. }
    exists r, (sent_frame (set_occupied (set_temp c1 (Some t1)) 1) l f b).
    split; [exact F|]. split; [apply sent_by_app; exact Rd|].
    split; [eapply woven_frame; [| |exact W]; reflexivity|].
    split; [reflexivity|].
    rewrite Rc. cbn. split; [|split; [intros; lia|]]; auto.
    intros _. repeat split. exists t1. split; [reflexivity | exact Q1].
  - replace (d <=? 2) with false by (symmetry; apply Z.leb_gt; lia).
    replace (d >=? 3) with true
      by (symmetry; rewrite Z.geb_leb; apply Z.leb_le; lia).
    cbn [occupied set_occupied]. unfold is_set. change (0 =? 0) with true.
    cbn [negb]. rewrite andb_false_r.
    set (c1 := set_occupied (set_frame c (upd_nth (frame s) 0 (Some b))) 0).
    destruct (@finish_one e c1 l f (d - 3) b)
      as (r & F & Rc & Rd & Rr & Rf); [|exact Ck|].
    { cbn [frame set_frame set_occupied c1]. now apply upd_nth_same. }
    exists r, (sent_frame c1 l f b).
    split; [exact F|]. split; [apply sent_by_app; exact Rd|].
    split; [eapply woven_frame; [| |exact W]; reflexivity|].
    split; [reflexivity|].
    rewrite Rc. cbn. rewrite to_uint_small by lia.
    split; [intros; lia|]. repeat split; auto.
Qed.

(** X13.  A call at a pattern entry of one field with no frame buffered
    sends the input frame as it is and buffers it as well, for its other
    field. *)
Theorem single_field_call : forall e s l f,
  buffers_allocated s -> buffers_hold s -> holds_picture s f ->
  strlen (pattern s) < 2 ^ 32 -> 0 <= pattern_pos s < strlen (pattern s) ->
  nskip_fields s = 0 -> init_len s = 0 -> occupied s = 0 ->
  char_at (pattern s) (pattern_pos s) = 49 ->
  clone_ok e 0 = true ->
  exists r o t',
    filter_frame e s l f = Some r
    /\ sent_by l (r_outlink r) = [o]
    /\ same_picture s o f /\ props o = props f
    /\ temp (r_ctx r) = Some t' /\ same_picture s t' f
    /\ occupied (r_ctx r) = 1 /\ nskip_fields (r_ctx r) = 0
    /\ pattern_pos (r_ctx r) = (pattern_pos s + 1) mod strlen (pattern s)
    /\ r_ret r = next_ret e 0 /\ r_freed r = true.
Proof.
  intros e s l f BA BH HF L Hp N0 I0 O0 C Ck.
  destruct (@allocated_slot s 0%nat BA ltac:(lia)) as [b0 Hb0].
  destruct (allocated_temp BA) as [t Ht].
  assert (Hh0 : holds_picture s b0)
    by (apply BH; right; eapply nth_some_in; eauto).
  assert (Hht : holds_picture s t) by (apply BH; left; exact Ht).
  assert (Hlen : (0 < List.length (frame s))%nat)
    by (eapply nth_some_length; eauto).
  change 49 with (48 + 1) in C.
  enter_call N0 I0 Hp L C.
  change (1 =? 0) with false. cbv iota.
  unfold flush_buffered.
  cbn [occupied set_pattern_pos set_init_len set_start_time].
  rewrite O0. unfold is_set at 1. change (0 =? 0) with true.
  cbn [negb]. rewrite andb_false_r.
  unfold build_frame.
  cbn [occupied frame temp set_pattern_pos set_init_len set_start_time].
  rewrite O0. unfold is_set at 1. change (0 =? 0) with true. cbn [negb].
  change (1 >=? 2) with false. change (1 =? 1) with true. cbv iota.
  rewrite Hb0.
  cbn [temp set_frame set_pattern_pos set_init_len set_start_time].
  rewrite Ht.
  change (1 - 1) with 0. change (0 =? 1) with false. cbn [andb].
  set (c := set_pattern_pos _ pos').
  assert (G : same_geometry s c) by (repeat split).
  destruct (copy_picture_same G Hh0 HF) as [Q K].
  set (b := copy_picture c b0 f) in *.
  set (c1 := set_frame c (upd_nth (frame s) 0 (Some b))).
  assert (G1 : same_geometry s c1) by (repeat split).
  destruct (copy_picture_same G1 Hht HF) as [Q1 K1].
  set (t1 := copy_picture c1 t f) in *.
  destruct (@finish_one e (set_occupied (set_temp c1 (Some t1)) 1)
              l f 0 b) as (r & F & Rc & Rd & Rr & Rf); [|exact Ck|].
  { cbn [frame set_frame set_occupied set_temp c1]. now apply upd_nth_same. }
  exists r, (sent_frame (set_occupied (set_temp c1 (Some t1)) 1) l f b), t1.
  split; [exact F|]. split; [apply sent_by_app; exact Rd|].
  split; [eapply same_picture_frame; [| |exact Q]; reflexivity|].
  split; [reflexivity|].
  rewrite Rc. cbn. repeat split; auto.
Qed.

(** The block [if (len == 1 && s->occupied)] when it applies. *)
Lemma flush_buffered_fires : forall s b0 t d pos,
  1 <= strlen (pattern s) -> 0 <= pos <= strlen (pattern s) ->
  occupied s <> 0 -> nth 0 (frame s) None = Some b0 -> temp s = Some t ->
  find_len (find_len_fuel (pattern s)) (pattern s) 0 (pattern_pos s)
  = Some (d, pos) ->
  exists s',
    flush_buffered s 1 0 = Some (s', d, 1%nat)
    /\ occupied s' = 0 /\ temp s' = temp s
    /\ frame s' = upd_nth (frame s) 0 (Some (copy_picture s b0 t))
    /\ pattern s' = pattern s
    /\ pattern_pos s' = pos mod strlen (pattern s)
    /\ same_geometry s s'
    /\ init_len s' = init_len s /\ nskip_fields s' = nskip_fields s.
Proof.
  intros s b0 t d pos L Hp O Hb Ht F. unfold flush_buffered.
  unfold is_set.
  replace (occupied s =? 0) with false by (symmetry; now apply Z.eqb_neq).
  change (1 =? 1) with true. cbn [negb andb].
  cbn [frame temp pattern pattern_pos set_occupied set_frame].
  rewrite Hb, Ht, F.
  eexists. split; [reflexivity|].
  cbn [occupied temp frame pattern pattern_pos set_occupied].
  match goal with
  | |- context [rewind (set_pattern_pos ?x ?p)] =>
      pose proof (@rewind_pos x p L Hp) as P;
      rewrite (rewind_eq (set_pattern_pos x p));
      rewrite P
  end.
  cbn. repeat split; auto.
Qed.

(** The block that builds the output frame when no frame is buffered and
    there are fields in hand. *)
Lemma build_frame_unbuffered : forall s f len out fo t,
  occupied s = 0 -> 1 <= len ->
  nth out (frame s) None = Some fo -> temp s = Some t ->
  exists s',
    build_frame s f len out
    = Some (s', (if len =? 1 then 0 else len - 2), S out)
    /\ frame s' = upd_nth (frame s) out (Some (copy_picture s fo f))
    /\ occupied s' = (if len =? 1 then 1 else 0)
    /\ temp s' = (if len =? 1 then Some (copy_picture s t f) else temp s)
    /\ pattern s' = pattern s /\ pattern_pos s' = pattern_pos s
    /\ same_geometry s s'
    /\ init_len s' = init_len s /\ nskip_fields s' = nskip_fields s.
Proof.
  intros s f len out fo t O Hl Hb Ht. unfold build_frame.
  unfold is_set. rewrite O. change (0 =? 0) with true. cbn [negb].
  rewrite Hb. cbn [temp set_frame]. rewrite Ht.
  destruct (len =? 1) eqn:E1.
  - apply Z.eqb_eq in E1. subst len. change (1 >=? 2) with false.
    cbv iota. eexists. split; [reflexivity|]. cbn. repeat split.
  - apply Z.eqb_neq in E1.
    replace (len >=? 2) with true
      by (symmetry; rewrite Z.geb_leb; apply Z.leb_le; lia).
    eexists. split; [reflexivity|]. cbn. repeat split; auto.
Qed.

(** X14.  A call at a pattern entry of one field with a frame buffered
    sends two frames when the next entry is not zero: first the buffered
    frame as it is, then the input frame as it is, both with the properties
    of the input frame.  The call uses up both entries; an entry of one
    field buffers the input frame again, a longer one leaves its fields
    beyond two to skip. *)
Theorem buffered_frame_goes_out_first : forall e s l f t d,
  buffers_allocated s -> buffers_hold s -> holds_picture s f ->
  strlen (pattern s) < 2 ^ 32 -> 0 <= pattern_pos s < strlen (pattern s) ->
  nskip_fields s = 0 -> init_len s = 0 ->
  occupied s <> 0 -> temp s = Some t ->
  char_at (pattern s) (pattern_pos s) = 49 ->
  char_at (pattern s) ((pattern_pos s + 1) mod strlen (pattern s)) = 48 + d ->
  1 <= d <= 9 ->
  clone_ok e 0 = true -> clone_ok e 1 = true ->
  exists r o1 o2,
    filter_frame e s l f = Some r
    /\ sent_by l (r_outlink r) = [o1; o2]
    /\ same_picture s o1 t /\ props o1 = props f
    /\ same_picture s o2 f /\ props o2 = props f
    /\ nskip_fields (r_ctx r) = (if d =? 1 then 0 else d - 2)
    /\ occupied (r_ctx r) = (if d =? 1 then 1 else 0)
    /\ (d = 1 -> exists t', temp (r_ctx r) = Some t' /\ same_picture s t' f)
    /\ pattern_pos (r_ctx r)
       = ((pattern_pos s + 1) mod strlen (pattern s) + 1)
         mod strlen (pattern s)
    /\ r_ret r = next_ret e 1 /\ r_freed r = true.
Proof.
  intros e s l f t d BA BH HF L Hp N0 I0 O1 Ht C C2 Hd Ck0 Ck1.
  destruct (@allocated_slot s 0%nat BA ltac:(lia)) as [b0 Hb0].
  destruct (@allocated_slot s 1%nat BA ltac:(lia)) as [b1 Hb1].
  assert (Hh0 : holds_picture s b0)
    by (apply BH; right; eapply nth_some_in; eauto).
  assert (Hh1 : holds_picture s b1)
    by (apply BH; right; eapply nth_some_in; eauto).
  assert (Hht : holds_picture s t) by (apply BH; left; exact Ht).
  assert (Hlen : (1 < List.length (frame s))%nat)
    by (eapply nth_some_length; eauto).
  change 49 with (48 + 1) in C.
  enter_call N0 I0 Hp L C.
  change (1 =? 0) with false. cbv iota.
  (* the state behind the first look-up *)
  match goal with |- context [flush_buffered ?x 1 0] => set (s1 := x) end.
  assert (E1 : occupied s1 = occupied s /\ frame s1 = frame s
               /\ temp s1 = temp s /\ pattern s1 = pattern s
               /\ pattern_pos s1 = pos' /\ same_geometry s s1)
    by (repeat split).
  clearbody s1. destruct E1 as (E1o & E1f & E1t & E1p & E1q & G1).
  assert (Hp' : 0 <= pos' < strlen (pattern s)).
  { rewrite P. apply Z.mod_pos_bound. lia. }
  rewrite <- P in C2.
  (* the buffered frame goes to frame[0] *)
  destruct (@flush_buffered_fires s1 b0 t d (pos' + 1))
    as (s2 & F2 & E2o & E2t & E2f & E2p & E2q & G2 & _);
    try (rewrite ?E1p, ?E1o, ?E1f, ?E1t, ?E1q; auto; lia).
  { rewrite E1p, E1q. apply find_len_digit; auto; lia. }
  rewrite F2. clear F2.
  destruct (copy_picture_same G1 Hh0 Hht) as [Q0 K0].
  set (a0 := copy_picture s1 b0 t) in *. clearbody a0.
  (* the input frame goes to frame[1] *)
  destruct (@build_frame_unbuffered s2 f d 1%nat b1 t)
    as (s3 & F3 & E3f & E3o & E3t & E3p & E3q & G3 & _);
    try (rewrite ?E2o, ?E2t, ?E2f, ?E1t; auto; lia).
  { rewrite E2f, E1f. rewrite upd_nth_other by lia. exact Hb1. }
  rewrite F3. clear F3.
  assert (G12 : same_geometry s s2)
    by (destruct G1 as (? & ? & ? & ?); destruct G2 as (? & ? & ? & ?);
        repeat split; congruence).
  destruct (copy_picture_same G12 Hh1 HF) as [Q1 K1].
  destruct (copy_picture_same G12 Hht HF) as [Q2 K2].
  set (a1 := copy_picture s2 b1 f) in *. clearbody a1.
  set (t2 := copy_picture s2 t f) in *. clearbody t2.
  assert (F0 : nth 0 (frame s3) None = Some a0).
  { rewrite E3f, E2f, E1f. rewrite upd_nth_other by lia.
    apply upd_nth_same. lia. }
  assert (F1 : nth 1 (frame s3) None = Some a1).
  { rewrite E3f, E2f, E1f. apply upd_nth_same.
    rewrite upd_nth_length. lia. }
  assert (Fin : forall s4 len4,
             frame s4 = frame s3 ->
             exists r o1 o2,
               finish e s4 l f len4 2 = Some r
               /\ r_ctx r = set_nskip_fields s4 (to_uint len4)
               /\ sent_by l (r_outlink r) = [o1; o2]
               /\ same_picture s o1 t /\ props o1 = props f
               /\ same_picture s o2 f /\ props o2 = props f
               /\ r_ret r = next_ret e 1 /\ r_freed r = true).
  { intros s4 len4 E4.
    destruct (@finish_two e s4 l f len4 a0 a1)
      as (r & l1 & F & Rc & _ & Rd & Rr & Rf);
      try (rewrite E4; assumption); try assumption.
    exists r, (sent_frame s4 l f a0), (sent_frame s4 l1 f a1).
    split; [exact F|]. split; [exact Rc|].
    split; [apply sent_by_app; exact Rd|].
    split; [eapply same_picture_frame; [| |exact Q0]; reflexivity|].
    split; [reflexivity|].
    split; [eapply same_picture_frame; [| |exact Q1]; reflexivity|].
    split; [reflexivity|]. split; assumption. }
  assert (Last : ((if d =? 1 then 0 else d - 2) =? 1) = true ->
                 is_set (occupied s3) = false).
  { intros H. rewrite E3o. destruct (d =? 1); [discriminate | reflexivity]. }
  assert (Pos : pattern_pos s3 = (pos' + 1) mod strlen (pattern s))
    by (rewrite E3q, E2q, E1p; reflexivity).
  rewrite P in Pos.
  destruct (((if d =? 1 then 0 else d - 2) =? 1) && is_set (occupied s3))
    eqn:A.
  { exfalso. apply andb_true_iff in A. destruct A as [A1 A2].
    rewrite (Last A1) in A2. discriminate. }
  destruct (Fin s3 (if d =? 1 then 0 else d - 2) eq_refl)
    as (r & o1 & o2 & F & Rc & Sent & R1 & R2 & R3 & R4 & R5 & R6).
  exists r, o1, o2.
  split; [exact F|]. split; [exact Sent|].
  split; [exact R1|]. split; [exact R2|].
  split; [exact R3|]. split; [exact R4|].
  rewrite Rc.
  cbn [nskip_fields occupied temp pattern_pos set_nskip_fields].
  split; [destruct (Z.eqb_spec d 1); rewrite to_uint_small by lia;
          reflexivity|].
  split; [exact E3o|].
  split.
  { intros D1. subst d. exists t2. rewrite E3t. change (1 =? 1) with true.
    split; [reflexivity | exact Q2]. }
  split; [exact Pos|]. split; assumption.
Qed.

(** X15.  A call that starts with fields to skip sends nothing, returns 0
    and leaves the output buffers and the cursor alone.  With one field to
    skip it buffers the input frame, for its other field; with two or more
    it only counts two fields off. *)
Theorem call_with_fields_to_skip : forall e s l f t,
  buffers_hold s -> holds_picture s f -> temp s = Some t ->
  1 <= nskip_fields s <= 7 ->
  exists r,
    filter_frame e s l f = Some r
    /\ r_outlink r = l /\ r_ret r = 0
    /\ frame (r_ctx r) = frame s /\ pattern_pos (r_ctx r) = pattern_pos s
    /\ (nskip_fields s = 1 ->
        nskip_fields (r_ctx r) = 0 /\ occupied (r_ctx r) = 1
        /\ exists t', temp (r_ctx r) = Some t' /\ same_picture s t' f)
    /\ (2 <= nskip_fields s ->
        nskip_fields (r_ctx r) = nskip_fields s - 2
        /\ occupied (r_ctx r) = occupied s /\ temp (r_ctx r) = Some t).
Proof.
  intros e s l f t BH HF Ht Hn.
  assert (Hht : holds_picture s t) by (apply BH; left; exact Ht).
  unfold filter_frame, capture_start_time.
  cbn [nskip_fields temp set_start_time].
  destruct (nskip_fields s >=? 2) eqn:N2.
  - rewrite Z.geb_leb in N2. apply Z.leb_le in N2.
    eexists. split; [reflexivity|]. cbn.
    rewrite to_uint_small by lia.
    repeat split; auto; lia.
  - rewrite Z.geb_leb in N2. apply Z.leb_gt in N2.
    replace (nskip_fields s >=? 1) with true
      by (symmetry; rewrite Z.geb_leb; apply Z.leb_le; lia).
    rewrite Ht.
    set (c := set_start_time s _).
    assert (G : same_geometry s c) by (repeat split).
    destruct (copy_picture_same G Hht HF) as [Q K].
    eexists. split; [reflexivity|]. cbn.
    rewrite to_uint_small by lia.
    split; [reflexivity|]. split; [reflexivity|]. split; [reflexivity|].
    split; [reflexivity|]. split; [|intros; lia].
    intros _. split; [lia|]. split; [reflexivity|].
    eexists. split; [reflexivity | exact Q].
Qed.

Lemma all_twos_char : forall p i,
  all_twos p = true -> 0 <= i < strlen p -> char_at p i = 50.
Proof.
  unfold char_at.
  induction p as [|c p IH]; cbn [all_twos strlen]; intros i D Hi; [lia|].
  destruct (char_code c =? 0) eqn:E; [lia|].
  apply andb_true_iff in D. destruct D as [D1 D2]. apply Z.eqb_eq in D1.
  destruct (Z.eq_dec i 0) as [->|N].
  - cbn. exact D1.
  - replace (Z.to_nat i) with (S (Z.to_nat (i - 1))) by lia.
    cbn [String.get]. apply IH; [exact D2 | lia].
Qed.

Lemma same_picture_geometry : forall s c a b,
  same_geometry s c -> same_picture c a b -> same_picture s a b.
Proof.
  unfold same_geometry, same_picture.
  intros s c a b (-> & -> & -> & _) H. exact H.
Qed.

Lemma same_geometry_trans : forall a b c,
  same_geometry a b -> same_geometry b c -> same_geometry a c.
Proof. unfold same_geometry. intros a b c H1 H2. intuition congruence. Qed.

(** A run through a pattern of '2's from a state between two frames. *)
Lemma passthrough_run : forall s0 inputs c l,
  all_twos (pattern s0) = true -> strlen (pattern s0) < 2 ^ 32 ->
  same_geometry s0 c -> pattern c = pattern s0 ->
  buffers_allocated c -> buffers_hold c ->
  nskip_fields c = 0 -> init_len c = 0 -> occupied c = 0 ->
  0 <= pattern_pos c < strlen (pattern c) ->
  (forall e f, In (e, f) inputs ->
     clone_ok e 0 = true /\ holds_picture s0 f) ->
  exists c' l' outs,
    run c l inputs = Some (c', l')
    /\ delivered l' = delivered l ++ outs
    /\ Forall2 (fun i o => same_picture s0 o (snd i)
                           /\ props o = props (snd i)) inputs outs.
Proof.
  intros s0 inputs. induction inputs as [|[e f] inputs IH];
    intros c l T L G Pt BA BH N0 I0 O0 Hp Hin; cbn [run].
  - exists c, l, []. rewrite app_nil_r. repeat split. constructor.
  - destruct (Hin e f ltac:(left; reflexivity)) as [Ck HF].
    assert (C : char_at (pattern c) (pattern_pos c) = 48 + 2).
    { rewrite Pt in *. now apply all_twos_char. }
    destruct (@input_frame_as_it_is e c l f 2 BA BH
                (holds_picture_geometry G HF) ltac:(rewrite Pt; exact L)
                Hp N0 I0 O0 C ltac:(lia) Ck)
      as (r & o & F & Rd & Q & Pr & N & O & _ & P & _ & _ & I & Pt' & G'
          & BA' & BH').
    rewrite F.
    destruct (IH (r_ctx r) (r_outlink r) T L
                (same_geometry_trans G G') ltac:(congruence) BA' BH'
                ltac:(lia) I O)
      as (c' & l' & outs & R & D & FA).
    { rewrite P, Pt'. apply Z.mod_pos_bound. lia. }
    { intros e' f' H'. apply Hin. right. exact H'. }
    exists c', l', (o :: outs). split; [exact R|].
    split; [rewrite D, Rd, <- app_assoc; reflexivity|].
    constructor; [|exact FA]. cbn [snd].
    split; [eapply same_picture_geometry; eauto | exact Pr].
Qed.

(** X16.  Through a pattern of entries '2' only, from its first frame on,
    the filter passes every frame through: whatever the number of input
    frames, there is one output frame per input frame, in the same order,
    with the picture and the properties of its input frame. *)
Theorem progressive_pattern_passes_frames_through : forall s0 l0 inputs,
  started s0 l0 -> start_frame s0 = 0 ->
  all_twos (pattern s0) = true -> strlen (pattern s0) < 2 ^ 32 ->
  buffers_hold s0 ->
  (forall e f, In (e, f) inputs ->
     clone_ok e 0 = true /\ holds_picture s0 f) ->
  exists outs,
    outputs s0 l0 inputs = Some outs
    /\ Forall2 (fun i o => same_picture s0 o (snd i)
                           /\ props o = props (snd i)) inputs outs.
Proof.
  intros s0 l0 inputs St Sf T L BH Hin.
  pose proof (started_inv St) as (BA & (L1 & _) & _ & _ & Dl).
  destruct (started_shape St Sf) as (t & b0 & b1 & Hs & _).
  assert (N0 : nskip_fields s0 = 0) by (rewrite Hs; reflexivity).
  assert (I0 : init_len s0 = 0) by (rewrite Hs; reflexivity).
  assert (O0 : occupied s0 = 0) by (rewrite Hs; reflexivity).
  assert (P0 : pattern_pos s0 = 0) by (rewrite Hs; reflexivity).
  destruct (@passthrough_run s0 inputs s0 l0 T L ltac:(repeat split)
              eq_refl BA BH N0 I0 O0 ltac:(lia) Hin)
    as (c' & l' & outs & R & D & FA).
  exists outs. unfold outputs. rewrite R, D, Dl. split; [reflexivity|exact FA].
Qed.

(** ** Witnesses of the single calls *)

(** X11, witness: the first frame of a stream through the pattern "23". *)
Lemma verbatim_call_witness :
  let s := Example.ctx_after 0 "23" 0 [] in
  let l := Example.link_after 0 "23" 0 [] in
  let f := Example.gray 10 0 in
  exists r o,
    filter_frame Example.env s l f = Some r
    /\ sent_by l (r_outlink r) = [o]
    /\ same_picture s o f /\ props o = props f
    /\ nskip_fields (r_ctx r) = 2 - 2
    /\ occupied (r_ctx r) = 0
    /\ temp (r_ctx r) = temp s
    /\ pattern_pos (r_ctx r) = (pattern_pos s + 1) mod strlen (pattern s)
    /\ r_ret r = next_ret Example.env 0 /\ r_freed r = true.
Proof.
  cbv zeta.
  apply (@verbatim_call Example.env (Example.ctx_after 0 "23" 0 [])
           (Example.link_after 0 "23" 0 []) (Example.gray 10 0) 2).
  - vm_compute. repeat split; discriminate.
  - apply buffers_fit_hold. vm_compute. reflexivity.
  - apply fits_holds. vm_compute. reflexivity.
  - vm_compute. reflexivity.
  - vm_compute. split; [discriminate | reflexivity].
  - vm_compute. reflexivity.
  - vm_compute. reflexivity.
  - vm_compute. reflexivity.
  - vm_compute. reflexivity.
  - lia.
  - reflexivity.
Defined.

(** X12, witness: the fourth frame of a stream through the pattern "23";
    the third frame is in the buffer. *)
Lemma woven_call_witness :
  let fs := [Example.gray 10 0; Example.gray 20 1; Example.gray 30 2] in
  let s := Example.ctx_after 0 "23" 0 fs in
  let l := Example.link_after 0 "23" 0 fs in
  let f := Example.gray 40 3 in
  let t := set_data (Example.gray 0 0) [[30; 31; 32; 33; 34; 35; 36; 37]] in
  exists r o,
    filter_frame Example.env s l f = Some r
    /\ sent_by l (r_outlink r) = [o]
    /\ woven s o f t /\ props o = props f
    /\ (2 = 2 ->
        occupied (r_ctx r) = 1 /\ nskip_fields (r_ctx r) = 0
        /\ exists t', temp (r_ctx r) = Some t' /\ same_picture s t' f)
    /\ (3 <= 2 ->
        occupied (r_ctx r) = 0 /\ nskip_fields (r_ctx r) = 2 - 3
        /\ temp (r_ctx r) = Some t)
    /\ pattern_pos (r_ctx r) = (pattern_pos s + 1) mod strlen (pattern s)
    /\ r_ret r = next_ret Example.env 0 /\ r_freed r = true.
Proof.
  cbv zeta.
  apply (@woven_call Example.env
           (Example.ctx_after 0 "23" 0
              [Example.gray 10 0; Example.gray 20 1; Example.gray 30 2])
           (Example.link_after 0 "23" 0
              [Example.gray 10 0; Example.gray 20 1; Example.gray 30 2])
           (Example.gray 40 3) 2
           (set_data (Example.gray 0 0) [[30; 31; 32; 33; 34; 35; 36; 37]])).
  - vm_compute. repeat split; discriminate.
  - apply buffers_fit_hold. vm_compute. reflexivity.
  - apply fits_holds. vm_compute. reflexivity.
  - vm_compute. split; discriminate.
  - vm_compute. reflexivity.
  - vm_compute. split; [discriminate | reflexivity].
  - vm_compute. reflexivity.
  - vm_compute. reflexivity.
  - vm_compute. discriminate.
  - vm_compute. reflexivity.
  - vm_compute. reflexivity.
  - lia.
  - reflexivity.
Defined.

(** X13, witness: the first frame of a stream through the pattern "12". *)
Lemma single_field_call_witness :
  let s := Example.ctx_after 0 "12" 0 [] in
  let l := Example.link_after 0 "12" 0 [] in
  let f := Example.gray 10 0 in
  exists r o t',
    filter_frame Example.env s l f = Some r
    /\ sent_by l (r_outlink r) = [o]
    /\ same_picture s o f /\ props o = props f
    /\ temp (r_ctx r) = Some t' /\ same_picture s t' f
    /\ occupied (r_ctx r) = 1 /\ nskip_fields (r_ctx r) = 0
    /\ pattern_pos (r_ctx r) = (pattern_pos s + 1) mod strlen (pattern s)
    /\ r_ret r = next_ret Example.env 0 /\ r_freed r = true.
Proof.
  cbv zeta.
  apply (@single_field_call Example.env (Example.ctx_after 0 "12" 0 [])
           (Example.link_after 0 "12" 0 []) (Example.gray 10 0)).
  - vm_compute. repeat split; discriminate.
  - apply buffers_fit_hold. vm_compute. reflexivity.
  - apply fits_holds. vm_compute. reflexivity.
  - vm_compute. reflexivity.
  - vm_compute. split; [discriminate | reflexivity].
  - vm_compute. reflexivity.
  - vm_compute. reflexivity.
  - vm_compute. reflexivity.
  - vm_compute. reflexivity.
  - reflexivity.
Defined.

(** X14, witness: the second frame of a stream through the pattern "11";
    the first frame is in the buffer. *)
Lemma buffered_frame_goes_out_first_witness :
  let s := Example.ctx_after 0 "11" 0 [Example.gray 10 0] in
  let l := Example.link_after 0 "11" 0 [Example.gray 10 0] in
  let f := Example.gray 20 1 in
  let t := set_data (Example.gray 0 0) [[10; 11; 12; 13; 14; 15; 16; 17]] in
  exists r o1 o2,
    filter_frame Example.env s l f = Some r
    /\ sent_by l (r_outlink r) = [o1; o2]
    /\ same_picture s o1 t /\ props o1 = props f
    /\ same_picture s o2 f /\ props o2 = props f
    /\ nskip_fields (r_ctx r) = (if 1 =? 1 then 0 else 1 - 2)
    /\ occupied (r_ctx r) = (if 1 =? 1 then 1 else 0)
    /\ (1 = 1 -> exists t', temp (r_ctx r) = Some t' /\ same_picture s t' f)
    /\ pattern_pos (r_ctx r)
       = ((pattern_pos s + 1) mod strlen (pattern s) + 1)
         mod strlen (pattern s)
    /\ r_ret r = next_ret Example.env 1 /\ r_freed r = true.
Proof.
  cbv zeta.
  apply (@buffered_frame_goes_out_first Example.env
           (Example.ctx_after 0 "11" 0 [Example.gray 10 0])
           (Example.link_after 0 "11" 0 [Example.gray 10 0])
           (Example.gray 20 1)
           (set_data (Example.gray 0 0) [[10; 11; 12; 13; 14; 15; 16; 17]])
           1).
  - vm_compute. repeat split; discriminate.
  - apply buffers_fit_hold. vm_compute. reflexivity.
  - apply fits_holds. vm_compute. reflexivity.
  - vm_compute. reflexivity.
  - vm_compute. split; [discriminate | reflexivity].
  - vm_compute. reflexivity.
  - vm_compute. reflexivity.
  - vm_compute. discriminate.
  - vm_compute. reflexivity.
  - vm_compute. reflexivity.
  - vm_compute. reflexivity.
  - lia.
  - reflexivity.
  - reflexivity.
Defined.

(** X15, witness: the third frame of a stream through the pattern "23", a
    call with one field to skip. *)
Lemma call_with_fields_to_skip_witness :
  let fs := [Example.gray 10 0; Example.gray 20 1] in
  let s := Example.ctx_after 0 "23" 0 fs in
  let l := Example.link_after 0 "23" 0 fs in
  let f := Example.gray 30 2 in
  let t := Example.gray 0 0 in
  exists r,
    filter_frame Example.env s l f = Some r
    /\ r_outlink r = l /\ r_ret r = 0
    /\ frame (r_ctx r) = frame s /\ pattern_pos (r_ctx r) = pattern_pos s
    /\ (nskip_fields s = 1 ->
        nskip_fields (r_ctx r) = 0 /\ occupied (r_ctx r) = 1
        /\ exists t', temp (r_ctx r) = Some t' /\ same_picture s t' f)
    /\ (2 <= nskip_fields s ->
        nskip_fields (r_ctx r) = nskip_fields s - 2
        /\ occupied (r_ctx r) = occupied s /\ temp (r_ctx r) = Some t).
Proof.
  cbv zeta.
  apply (@call_with_fields_to_skip Example.env
           (Example.ctx_after 0 "23" 0 [Example.gray 10 0; Example.gray 20 1])
           (Example.link_after 0 "23" 0 [Example.gray 10 0; Example.gray 20 1])
           (Example.gray 30 2) (Example.gray 0 0)).
  - apply buffers_fit_hold. vm_compute. reflexivity.
  - apply fits_holds. vm_compute. reflexivity.
  - vm_compute. reflexivity.
  - vm_compute. split; discriminate.
Defined.

(** X16, witness: three gray frames through the pattern "22". *)
Lemma progressive_pattern_passes_frames_through_witness :
  let s0 := Example.ctx_after 0 "22" 0 [] in
  let l0 := Example.link_after 0 "22" 0 [] in
  let inputs := [(Example.env, Example.gray 10 0);
                 (Example.env, Example.gray 20 1);
                 (Example.env, Example.gray 30 2)] in
  exists outs,
    outputs s0 l0 inputs = Some outs
    /\ Forall2 (fun i o => same_picture s0 o (snd i)
                           /\ props o = props (snd i)) inputs outs.
Proof.
  cbv zeta.
  apply progressive_pattern_passes_frames_through.
  - apply example_started with (ff := 0) (pat := "22"%string) (sf := 0);
      [lia | lia | vm_compute; reflexivity].
  - vm_compute. reflexivity.
  - vm_compute. reflexivity.
  - vm_compute. reflexivity.
  - apply buffers_fit_hold. vm_compute. reflexivity.
  - intros e f H. cbn [In] in H.
    destruct H as [H|[H|[H|[]]]]; inversion H; subst;
      (split; [reflexivity | apply fits_holds; vm_compute; reflexivity]).
Defined.

(** ** query_formats *)

Lemma land_bit : forall a k,
  0 <= k -> (Z.land a (Z.shiftl 1 k) =? 0) = negb (Z.testbit a k).
Proof.
  intros a k Hk. rewrite Z.shiftl_1_l.
  destruct (Z.testbit a k) eqn:T; cbn [negb].
  - apply Z.eqb_neq. intros E.
    assert (B : Z.testbit (Z.land a (2 ^ k)) k = true)
      by (rewrite Z.land_spec, T, Z.pow2_bits_true by lia; reflexivity).
    rewrite E, Z.bits_0 in B. discriminate.
  - apply Z.eqb_eq. apply Z.bits_inj'. intros n Hn.
    rewrite Z.land_spec, Z.bits_0, Z.pow2_bits_eqb by lia.
    destruct (Z.eqb_spec k n) as [->|]; [now rewrite T|].
    apply andb_false_r.
Qed.

Lemma packs_unconventionally_bits : forall flags,
  packs_unconventionally flags
  = Z.testbit flags 3 || Z.testbit flags 1 || Z.testbit flags 2.
Proof.
  intros flags. unfold packs_unconventionally, AV_PIX_FMT_FLAG_HWACCEL,
    AV_PIX_FMT_FLAG_PAL, AV_PIX_FMT_FLAG_BITSTREAM.
  rewrite !land_bit by lia. now rewrite !negb_involutive.
Qed.

Lemma formats_from_succ : forall fmt n,
  formats_from fmt (S n) = fmt :: formats_from (fmt + 1) n.
Proof.
  intros fmt n. unfold formats_from. cbn [seq map]. f_equal; [lia|].
  rewrite <- seq_shift, map_map. apply map_ext. intros i. lia.
Qed.

Lemma query_formats_from_S :
  forall desc_flags add_ret set_common_ret fuel fmt acc,
    query_formats_from desc_flags add_ret set_common_ret (S fuel) fmt acc
    = match desc_flags fmt with
      | None => Some (Some acc, set_common_ret acc)
      | Some flags =>
          if negb (packs_unconventionally flags) then
            let '(pix_fmts, ret) := ff_add_format add_ret acc fmt in
            if ret <? 0 then Some (None, ret)
            else query_formats_from desc_flags add_ret set_common_ret
                   fuel (fmt + 1) pix_fmts
          else query_formats_from desc_flags add_ret set_common_ret
                 fuel (fmt + 1) acc
      end.
Proof. reflexivity. Qed.

Lemma query_formats_from_spec :
  forall desc_flags add_ret set_common_ret n extra fmt acc,
    (forall k, fmt <= k < fmt + Z.of_nat n -> desc_flags k <> None) ->
    desc_flags (fmt + Z.of_nat n) = None ->
    (forall k, fmt <= k < fmt + Z.of_nat n -> conventional desc_flags k = true ->
       0 <= add_ret k) ->
    let offered :=
      acc ++ filter (conventional desc_flags) (formats_from fmt n) in
    query_formats_from desc_flags add_ret set_common_ret (S (n + extra))
                       fmt acc
    = Some (Some offered, set_common_ret offered).
Proof.
  intros desc_flags add_ret set_common_ret n extra.
  induction n as [|n IH]; intros fmt acc Hd Hn Ha; cbv zeta;
    rewrite query_formats_from_S.
  - rewrite Z.add_0_r in Hn. rewrite Hn.
    cbn. now rewrite app_nil_r.
  - cbn [Nat.add].
    destruct (desc_flags fmt) as [flags|] eqn:D;
      [|exfalso; apply (Hd fmt); [lia | exact D]].
    rewrite formats_from_succ. cbn [filter].
    assert (Cv : conventional desc_flags fmt
                 = negb (packs_unconventionally flags))
      by (unfold conventional; now rewrite D).
    rewrite Cv.
    assert (Hd' : forall k, fmt + 1 <= k < fmt + 1 + Z.of_nat n ->
                    desc_flags k <> None) by (intros; apply Hd; lia).
    assert (Hn' : desc_flags (fmt + 1 + Z.of_nat n) = None)
      by (rewrite <- Hn; f_equal; lia).
    assert (Ha' : forall k, fmt + 1 <= k < fmt + 1 + Z.of_nat n ->
                    conventional desc_flags k = true -> 0 <= add_ret k)
      by (intros; apply Ha; [lia | assumption]).
    destruct (negb (packs_unconventionally flags)) eqn:U.
    + unfold ff_add_format.
      assert (A : 0 <= add_ret fmt).
      { apply Ha; [lia|]. now rewrite Cv. }
      apply Z.ltb_ge in A. rewrite A. cbv iota beta. rewrite A.
      rewrite (IH (fmt + 1) (acc ++ [fmt]) Hd' Hn' Ha').
      rewrite <- app_assoc. reflexivity.
    + apply (IH (fmt + 1) acc Hd' Hn' Ha').
Qed.

(** X17.  [query_formats] on a table that has descriptors for the formats
    0 to [n - 1] and none for [n], when no [ff_add_format] fails: the loop
    ends, the list handed to [ff_set_common_formats] holds exactly the
    formats below [n] whose descriptor has none of the flags HWACCEL, PAL
    and BITSTREAM (bits 3, 1 and 2), in increasing order, and the function
    returns what [ff_set_common_formats] returns. *)
Theorem query_formats_offers_the_conventional_formats :
  forall desc_flags add_ret set_common_ret n extra,
    (forall k, 0 <= k < Z.of_nat n -> desc_flags k <> None) ->
    desc_flags (Z.of_nat n) = None ->
    (forall k, 0 <= k < Z.of_nat n -> conventional desc_flags k = true ->
       0 <= add_ret k) ->
    exists offered,
      query_formats desc_flags add_ret set_common_ret (S n + extra)
      = Some (Some offered, set_common_ret offered)
      /\ offered = filter (conventional desc_flags) (formats_from 0 n)
      /\ forall fmt,
           In fmt offered
           <-> 0 <= fmt < Z.of_nat n
               /\ exists flags,
                    desc_flags fmt = Some flags
                    /\ Z.testbit flags 3 = false
                    /\ Z.testbit flags 1 = false
                    /\ Z.testbit flags 2 = false.
Proof.
  intros desc_flags add_ret set_common_ret n extra Hd Hn Ha.
  exists (filter (conventional desc_flags) (formats_from 0 n)).
  split; [|split; [reflexivity|]].
  - unfold query_formats.
    apply (@query_formats_from_spec desc_flags add_ret set_common_ret
             n extra 0 []); auto.
  - intros fmt. rewrite filter_In. unfold formats_from. rewrite in_map_iff.
    unfold conventional. split.
    + intros ((i & <- & Hi) & C). apply in_seq in Hi.
      split; [lia|].
      destruct (desc_flags (0 + Z.of_nat i)) as [flags|]; [|discriminate].
      exists flags. split; [reflexivity|].
      rewrite packs_unconventionally_bits in C.
      apply negb_true_iff in C.
      apply orb_false_iff in C. destruct C as [C C2].
      apply orb_false_iff in C. destruct C as [C3 C1]. auto.
    + intros (Hf & flags & D & B3 & B1 & B2). split.
      * exists (Z.to_nat fmt). split; [lia|]. apply in_seq. lia.
      * rewrite D, packs_unconventionally_bits, B3, B1, B2. reflexivity.
Qed.

(** X18.  [query_formats] when an [ff_add_format] fails: the function
    returns the error of the first failure, at once, and
    [ff_set_common_formats] is not called. *)
Theorem query_formats_add_failure :
  forall desc_flags add_ret set_common_ret n extra,
    (forall k, 0 <= k <= Z.of_nat n -> desc_flags k <> None) ->
    (forall k, 0 <= k < Z.of_nat n -> conventional desc_flags k = true ->
       0 <= add_ret k) ->
    conventional desc_flags (Z.of_nat n) = true ->
    add_ret (Z.of_nat n) < 0 ->
    query_formats desc_flags add_ret set_common_ret (S n + extra)
    = Some (None, add_ret (Z.of_nat n)).
Proof.
  intros desc_flags add_ret set_common_ret n extra Hd Ha Hc Hf.
  unfold query_formats.
  assert (G : forall m fmt acc,
             fmt + Z.of_nat m = Z.of_nat n -> 0 <= fmt ->
             query_formats_from desc_flags add_ret set_common_ret
               (S (m + extra)) fmt acc
             = Some (None, add_ret (Z.of_nat n))).
  { induction m as [|m IH]; intros fmt acc E H0;
      rewrite query_formats_from_S.
    - assert (fmt = Z.of_nat n) by lia. subst fmt.
      unfold conventional in Hc.
      destruct (desc_flags (Z.of_nat n)) as [flags|]; [|discriminate].
      rewrite Hc. unfold ff_add_format.
      apply Z.ltb_lt in Hf. rewrite Hf. cbv iota beta. rewrite Hf.
      reflexivity.
    - cbn [Nat.add]. destruct (desc_flags fmt) as [flags|] eqn:D;
        [|exfalso; apply (Hd fmt); [lia | exact D]].
      destruct (negb (packs_unconventionally flags)) eqn:U.
      + unfold ff_add_format.
        assert (A : 0 <= add_ret fmt).
        { apply Ha; [lia|]. unfold conventional. now rewrite D. }
        apply Z.ltb_ge in A. rewrite A. cbv iota beta. rewrite A.
        apply IH; lia.
      + apply IH; lia. }
  apply (G n 0 []); lia.
Qed.

Lemma example_formats_described : forall k,
  0 <= k < 8 -> ExampleFormats.desc_flags k <> None.
Proof.
  intros k Hk.
  assert (E : k = 0 \/ k = 1 \/ k = 2 \/ k = 3 \/ k = 4 \/ k = 5 \/ k = 6
              \/ k = 7) by lia.
  repeat (destruct E as [E|E]; [subst k; discriminate|]).
  subst k. discriminate.
Qed.

(** X17, witness: the table of eight formats; the formats 0, 1, 2, 3 and 7
    are offered. *)
Lemma query_formats_offers_the_conventional_formats_witness :
  exists offered,
    query_formats ExampleFormats.desc_flags ExampleFormats.add_ok
                  ExampleFormats.set_common_ok (S 8 + 0)
    = Some (Some offered, ExampleFormats.set_common_ok offered)
    /\ offered = filter (conventional ExampleFormats.desc_flags)
                        (formats_from 0 8)
    /\ forall fmt,
         In fmt offered
         <-> 0 <= fmt < Z.of_nat 8
             /\ exists flags,
                  ExampleFormats.desc_flags fmt = Some flags
                  /\ Z.testbit flags 3 = false
                  /\ Z.testbit flags 1 = false
                  /\ Z.testbit flags 2 = false.
Proof.
  apply (@query_formats_offers_the_conventional_formats
           ExampleFormats.desc_flags ExampleFormats.add_ok
           ExampleFormats.set_common_ok 8 0).
  - intros k Hk. apply example_formats_described. lia.
  - reflexivity.
  - intros k _ _. unfold ExampleFormats.add_ok. lia.
Defined.

(** X18, witness: the table of eight formats when adding the format 3
    fails. *)
Lemma query_formats_add_failure_witness :
  query_formats ExampleFormats.desc_flags (ExampleFormats.add_fails_at 3)
                ExampleFormats.set_common_ok (S 3 + 0)
  = Some (None, ExampleFormats.add_fails_at 3 (Z.of_nat 3)).
Proof.
  apply (@query_formats_add_failure
           ExampleFormats.desc_flags (ExampleFormats.add_fails_at 3)
           ExampleFormats.set_common_ok 3 0).
  - intros k Hk. apply example_formats_described. lia.
  - intros k Hk _. unfold ExampleFormats.add_fails_at.
    replace (k =? 3) with false by (symmetry; apply Z.eqb_neq; lia). lia.
  - reflexivity.
  - reflexivity.
Defined.

(** ** What the engine never does *)

(** X19.  The adjustment [if (len == 1 && s->occupied)] behind the block
    that builds the output frame never applies: whenever that block leaves
    a frame buffered it leaves no field to skip, and whenever it leaves one
    field to skip it leaves the buffer empty. *)
Theorem final_adjustment_never_applies : forall s f len out s' len' out',
  build_frame s f len out = Some (s', len', out') ->
  (len' =? 1) && is_set (occupied s') = false.
Proof.
  intros s f len out s' len' out'. unfold build_frame. intros H.
  destruct (is_set (occupied s)) eqn:O.
  - destruct (nth out (frame s) None) as [fo|]; [|discriminate].
    destruct (temp s) as [t|]; [|discriminate].
    cbn [temp set_occupied set_frame] in H.
    destruct (len <=? 2) eqn:L2.
    + destruct (temp s) as [t'|]; [|discriminate].
      apply Z.leb_le in L2.
      replace (len >=? 3) with false in H
        by (symmetry; rewrite Z.geb_leb; apply Z.leb_gt; lia).
      inversion H; subst. reflexivity.
    + inversion H; subst. cbn. apply andb_false_r.
  - destruct (len >=? 2) eqn:G2.
    + destruct (nth out (frame s) None) as [fo|]; [|discriminate].
      inversion H; subst. cbn [occupied set_frame]. rewrite O.
      apply andb_false_r.
    + destruct (len =? 1) eqn:E1.
      * destruct (nth out (frame s) None) as [fo|]; [|discriminate].
        cbn [temp set_frame] in H.
        destruct (temp s) as [t|]; [|discriminate].
        inversion H; subst. apply Z.eqb_eq in E1. subst len. reflexivity.
      * inversion H; subst. rewrite E1. reflexivity.
Qed.

(** X19, witness: the block at the entry '3' of the pattern "23" for the
    second frame of a stream. *)
Lemma final_adjustment_never_applies_witness :
  exists s' len' out',
    build_frame (Example.ctx_after 0 "23" 0 [Example.gray 10 0])
                (Example.gray 20 1) 3 0 = Some (s', len', out')
    /\ (len' =? 1) && is_set (occupied s') = false.
Proof.
  eexists _, _, _. split; [vm_compute; reflexivity|].
  eapply (@final_adjustment_never_applies
            (Example.ctx_after 0 "23" 0 [Example.gray 10 0])
            (Example.gray 20 1) 3 0).
  vm_compute. reflexivity.
Defined.

(** X20.  What a call leaves in the context, and whether it releases the
    input frame, does not depend on what the framework does during the
    call: a clone that fails or an error of the next filter changes the
    return value and the frames sent, not the state.  The call has used up
    its pattern entries all the same. *)
Theorem state_is_independent_of_the_environment : forall s l e e' f r,
  reachable s l ->
  filter_frame e s l f = Some r ->
  exists r',
    filter_frame e' s l f = Some r'
    /\ r_ctx r' = r_ctx r /\ r_freed r' = r_freed r.
Proof.
  intros s l e e' f r R.
  apply reachable_inv in R. destruct R as [B _].
  unfold filter_frame.
  pose proof (capture_start_time_fields s f) as C. cbv zeta in C.
  destruct C as (_ & _ & _ & _ & _ & _ & _ & _ & _ & _ & _ & Cb).
  specialize (Cb B).
  set (c := capture_start_time s f) in *. clearbody c.
  assert (Fin : forall s4 len4 out,
             buffers_allocated s4 -> (out <= 2)%nat ->
             finish e s4 l f len4 out = Some r ->
             exists r',
               finish e' s4 l f len4 out = Some r'
               /\ r_ctx r' = r_ctx r /\ r_freed r' = r_freed r).
  { intros s4 len4 out B4 Ho H.
    destruct (@finish_total e' s4 l f len4 out B4 Ho) as [r' F'].
    exists r'. split; [exact F'|].
    pose proof (finish_ctx _ _ _ _ _ _ H) as E1.
    pose proof (finish_ctx _ _ _ _ _ _ F') as E2.
    apply finish_spec in H. apply finish_spec in F'.
    destruct H as (_ & _ & F1 & _). destruct F' as (_ & _ & F2 & _).
    split; congruence. }
  destruct (nskip_fields c >=? 2).
  { intros H. inversion H; subst. eexists. split; [reflexivity|].
    split; reflexivity. }
  destruct (nskip_fields c >=? 1).
  { destruct (temp c); [|discriminate].
    intros H. inversion H; subst. eexists. split; [reflexivity|].
    split; reflexivity. }
  destruct (nskip_fields c =? 0); [|apply Fin; [exact Cb | lia]].
  destruct (find_len _ _ _ _) as [[len pos]|]; [|discriminate].
  set (s1 := rewind (set_pattern_pos (set_init_len c 0) pos)).
  assert (S1 : stable c s1) by (unfold s1; stable_chain).
  destruct (len =? 0).
  { intros H. inversion H; subst. eexists. split; [reflexivity|].
    split; reflexivity. }
  destruct (flush_buffered s1 len 0) as [[[s2 len2] out2]|] eqn:FB;
    [|discriminate].
  apply flush_buffered_spec in FB. destruct FB as (S2 & O2 & _).
  destruct (build_frame s2 f len2 out2) as [[[s3 len3] out3]|] eqn:BF;
    [|discriminate].
  apply build_frame_spec in BF. destruct BF as (S3 & O3 & _).
  assert (B3 : buffers_allocated s3) by (apply S3, S2, S1, Cb).
  destruct ((len3 =? 1) && is_set (occupied s3)); apply Fin; auto; lia.
Qed.

(** X20, witness: the first frame of a stream through the pattern "23",
    with the framework of the examples and with one whose clones fail. *)
Lemma state_is_independent_of_the_environment_witness :
  let s := Example.ctx_after 0 "23" 0 [] in
  let l := Example.link_after 0 "23" 0 [] in
  let e' := {| clone_ok := fun _ => false; next_ret := fun _ => 0 |} in
  exists r,
    filter_frame Example.env s l (Example.gray 10 0) = Some r
    /\ exists r',
         filter_frame e' s l (Example.gray 10 0) = Some r'
         /\ r_ctx r' = r_ctx r /\ r_freed r' = r_freed r.
Proof.
  cbv zeta. eexists. split; [vm_compute; reflexivity|].
  apply (@state_is_independent_of_the_environment
           (Example.ctx_after 0 "23" 0 []) (Example.link_after 0 "23" 0 [])
           Example.env).
  - apply example_reachable; [lia | lia | vm_compute; discriminate].
  - vm_compute. reflexivity.
Defined.

Lemma copy_planes_keeps_props : forall n st ph dst src,
  pts (copy_planes n st ph dst src) = pts dst
  /\ props (copy_planes n st ph dst src) = props dst.
Proof.
  intros n st ph dst src. unfold copy_planes.
  generalize (seq 0 (Z.to_nat n)) as l. intros l. revert dst.
  induction l as [|i l IH]; intros dst; cbn [fold_left]; [split; reflexivity|].
  destruct (IH (set_data dst
                  (upd_nth (data dst) i
                     (av_image_copy_plane
                        (nth i (data dst) []) 0 (nth i (linesize dst) 0)
                        (nth i (data src) []) 0 (nth i (linesize src) 0)
                        (nth i st 0) (nth i ph 0))))) as [-> ->].
  split; reflexivity.
Qed.

(** X21.  A picture copy writes the picture and nothing else: the
    destination keeps its timestamp, its properties, its line sizes, the
    number and the sizes of its planes, the planes beyond [nb_planes], and
    every byte that is not in the first [stride] bytes of one of the
    [planeheight] rows of a plane (the padding of the rows and what lies
    behind the last row). *)
Theorem copy_picture_writes_the_picture_only : forall s dst src,
  holds_picture s dst -> holds_picture s src ->
  let res := copy_picture s dst src in
  pts res = pts dst /\ props res = props dst
  /\ linesize res = linesize dst
  /\ List.length (data res) = List.length (data dst)
  /\ (forall i,
        List.length (nth i (data res) []) = List.length (nth i (data dst) []))
  /\ (forall i, (Z.to_nat (nb_planes s) <= i)%nat ->
        nth i (data res) [] = nth i (data dst) [])
  /\ (forall i j, 0 <= j ->
        (forall r, 0 <= r < nth i (planeheight s) 0 ->
           ~ (r * nth i (linesize dst) 0 <= j
              < r * nth i (linesize dst) 0 + nth i (stride s) 0)) ->
        nth (Z.to_nat j) (nth i (data res) []) 0
        = nth (Z.to_nat j) (nth i (data dst) []) 0).
Proof.
  intros s dst src [Hdl Hd] [Hsl Hs]. cbv zeta.
  destruct (@copy_planes_keeps_props (nb_planes s) (stride s) (planeheight s)
              dst src) as [Pt Pr].
  destruct (@copy_picture_planes s dst src Hdl) as (RL & RD & RP).
  assert (Rows : forall i, (i < Z.to_nat (nb_planes s))%nat ->
            let res := nth i (data (copy_picture s dst src)) [] in
            List.length res = List.length (nth i (data dst) [])
            /\ forall j, 0 <= j ->
                 (forall k, 0 <= k < nth i (planeheight s) 0 ->
                    ~ (k * nth i (linesize dst) 0 <= j
                       < k * nth i (linesize dst) 0 + nth i (stride s) 0)) ->
                 nth (Z.to_nat j) res 0
                 = nth (Z.to_nat j) (nth i (data dst) []) 0).
  { intros i Hi. cbv zeta. rewrite RP.
    replace (i <? Z.to_nat (nb_planes s))%nat with true
      by (symmetry; apply Nat.ltb_lt; exact Hi).
    destruct (Hd i Hi) as [Hd1 Hd2]. destruct (Hs i Hi) as [Hs1 Hs2].
    unfold av_image_copy_plane.
    destruct (@copy_rows_spec (Z.to_nat (nth i (planeheight s) 0))
                (nth i (data dst) []) 0 (nth i (linesize dst) 0)
                (nth i (data src) []) 0 (nth i (linesize src) 0)
                (nth i (stride s) 0)) as (CL & _ & CU); try lia.
    - intros k Hk. nia.
    - intros k Hk. nia.
    - split; [exact CL|]. intros j Hj Hout. apply CU; [exact Hj|].
      intros k Hk. specialize (Hout k ltac:(lia)). lia. }
  split; [exact Pt|]. split; [exact Pr|]. split; [exact RL|].
  split; [exact RD|]. split; [|split].
  - intros i. destruct (Nat.ltb_spec i (Z.to_nat (nb_planes s))) as [Hi|Hi].
    + apply (Rows i Hi).
    + rewrite RP.
      replace (i <? Z.to_nat (nb_planes s))%nat with false
        by (symmetry; apply Nat.ltb_ge; exact Hi).
      reflexivity.
  - intros i Hi. rewrite RP.
    replace (i <? Z.to_nat (nb_planes s))%nat with false
      by (symmetry; apply Nat.ltb_ge; exact Hi).
    reflexivity.
  - intros i j Hj Hout.
    destruct (Nat.ltb_spec i (Z.to_nat (nb_planes s))) as [Hi|Hi].
    + apply (Rows i Hi); assumption.
    + rewrite RP.
      replace (i <? Z.to_nat (nb_planes s))%nat with false
        by (symmetry; apply Nat.ltb_ge; exact Hi).
      reflexivity.
Qed.

(** X22.  A call at a cursor behind which the pattern has zeros only (or
    nothing) drops its frame, whatever the digits before the cursor are: it
    sends nothing, returns 0, releases the input frame, and leaves the
    buffers as they are; the cursor goes back to the start of the
    pattern. *)
Theorem zeros_to_the_end_drop_the_frame : forall e s l f,
  all_digits (pattern s) = true -> strlen (pattern s) < 2 ^ 32 ->
  0 <= pattern_pos s <= strlen (pattern s) ->
  nskip_fields s = 0 -> init_len s = 0 ->
  (forall j, pattern_pos s <= j < strlen (pattern s) ->
     char_at (pattern s) j = 48) ->
  exists r,
    filter_frame e s l f = Some r
    /\ r_outlink r = l /\ r_ret r = 0 /\ r_freed r = true
    /\ pattern_pos (r_ctx r) = 0 /\ nskip_fields (r_ctx r) = 0
    /\ occupied (r_ctx r) = occupied s
    /\ temp (r_ctx r) = temp s /\ frame (r_ctx r) = frame s.
Proof.
  intros e s l f D L Hp N0 I0 Z.
  destruct (@find_len_fuel_enough (pattern s) 0 (pattern_pos s) L Hp)
    as [[len pos] F].
  pose proof (@find_len_search _ _ _ _ _ D Hp L F) as S.
  assert (E : len = 0 /\ pos = strlen (pattern s)).
  { destruct S as [(A & B & _) | (A & B & C & _)]; [auto|].
    exfalso. rewrite Z in C by lia. lia. }
  destruct E as [-> ->].
  unfold filter_frame, capture_start_time.
  cbn [nskip_fields init_len pattern pattern_pos set_init_len set_start_time].
  rewrite N0, I0.
  change (0 >=? 2) with false. change (0 >=? 1) with false.
  change (0 =? 0) with true. cbv iota.
  rewrite F. cbv iota beta.
  unfold rewind. cbn [pattern pattern_pos set_pattern_pos set_init_len
                      set_start_time].
  rewrite char_at_strlen. change (0 =? 0) with true. cbv iota.
  eexists. split; [reflexivity|]. cbn. repeat split; auto.
Qed.

(** X22, witness: the second frame of a stream through the pattern "20";
    the cursor is on the '0'. *)
Lemma zeros_to_the_end_drop_the_frame_witness :
  let s := Example.ctx_after 0 "20" 0 [Example.gray 10 0] in
  let l := Example.link_after 0 "20" 0 [Example.gray 10 0] in
  exists r,
    filter_frame Example.env s l (Example.gray 20 1) = Some r
    /\ r_outlink r = l /\ r_ret r = 0 /\ r_freed r = true
    /\ pattern_pos (r_ctx r) = 0 /\ nskip_fields (r_ctx r) = 0
    /\ occupied (r_ctx r) = occupied s
    /\ temp (r_ctx r) = temp s /\ frame (r_ctx r) = frame s.
Proof.
  cbv zeta.
  apply (@zeros_to_the_end_drop_the_frame Example.env
           (Example.ctx_after 0 "20" 0 [Example.gray 10 0])
           (Example.link_after 0 "20" 0 [Example.gray 10 0])
           (Example.gray 20 1)).
  - vm_compute. reflexivity.
  - vm_compute. reflexivity.
  - vm_compute. split; discriminate.
  - vm_compute. reflexivity.
  - vm_compute. reflexivity.
  - intros j Hj.
    assert (E : pattern_pos (Example.ctx_after 0 "20" 0 [Example.gray 10 0])
                = 1) by (vm_compute; reflexivity).
    assert (E2 : strlen (pattern (Example.ctx_after 0 "20" 0
                                    [Example.gray 10 0])) = 2)
      by (vm_compute; reflexivity).
    rewrite E, E2 in Hj. assert (j = 1) by lia. subst j.
    vm_compute. reflexivity.
Defined.

(** X21, witness: a copy into a frame with one byte of padding per row. *)
Lemma copy_picture_writes_the_picture_only_witness :
  let s := Example.ctx_after 0 "23" 0 [] in
  let dst := {| data := [[0; 0; 99; 0; 0; 99; 0; 0; 99; 0; 0; 99]];
                linesize := [3]; pts := 5; props := 7 |} in
  let src := Example.gray 10 0 in
  let res := copy_picture s dst src in
  pts res = pts dst /\ props res = props dst
  /\ linesize res = linesize dst
  /\ List.length (data res) = List.length (data dst)
  /\ (forall i,
        List.length (nth i (data res) []) = List.length (nth i (data dst) []))
  /\ (forall i, (Z.to_nat (nb_planes s) <= i)%nat ->
        nth i (data res) [] = nth i (data dst) [])
  /\ (forall i j, 0 <= j ->
        (forall r, 0 <= r < nth i (planeheight s) 0 ->
           ~ (r * nth i (linesize dst) 0 <= j
              < r * nth i (linesize dst) 0 + nth i (stride s) 0)) ->
        nth (Z.to_nat j) (nth i (data res) []) 0
        = nth (Z.to_nat j) (nth i (data dst) []) 0).
Proof.
  cbv zeta.
  apply (@copy_picture_writes_the_picture_only
           (Example.ctx_after 0 "23" 0 [])
           {| data := [[0; 0; 99; 0; 0; 99; 0; 0; 99; 0; 0; 99]];
              linesize := [3]; pts := 5; props := 7 |}
           (Example.gray 10 0)).
  - apply fits_holds. vm_compute. reflexivity.
  - apply fits_holds. vm_compute. reflexivity.
Defined.

(** ** The accounts of the engine *)

Lemma no_zero_char : forall p j,
  no_zero p = true -> 0 <= j < strlen p -> 49 <= char_at p j <= 57.
Proof.
  unfold char_at.
  induction p as [|c p IH]; cbn [no_zero strlen]; intros j D Hj; [lia|].
  destruct (char_code c =? 0) eqn:E; [lia|].
  apply andb_true_iff in D. destruct D as [D1 D2].
  apply andb_true_iff in D1. destruct D1 as [A B].
  apply Z.leb_le in A. apply Z.leb_le in B.
  destruct (Z.eq_dec j 0) as [->|N].
  - cbn. lia.
  - replace (Z.to_nat j) with (S (Z.to_nat (j - 1))) by lia.
    cbn [String.get]. apply IH; [exact D2 | lia].
Qed.

(** The start of a call that has no field to skip and no stray field: the
    entry under the cursor is taken and the cursor moves on. *)
Lemma filter_frame_takes_an_entry : forall e s l f d,
  nskip_fields s = 0 -> init_len s = 0 ->
  0 <= pattern_pos s < strlen (pattern s) -> strlen (pattern s) < 2 ^ 32 ->
  char_at (pattern s) (pattern_pos s) = 48 + d -> 1 <= d ->
  exists s1,
    occupied s1 = occupied s /\ frame s1 = frame s /\ temp s1 = temp s
    /\ pattern s1 = pattern s
    /\ pattern_pos s1 = (pattern_pos s + 1) mod strlen (pattern s)
    /\ init_len s1 = 0 /\ nskip_fields s1 = 0
    /\ same_geometry s s1
    /\ filter_frame e s l f
       = match flush_buffered s1 d 0 with
         | None => None
         | Some (s2, len, out) =>
             match build_frame s2 f len out with
             | None => None
             | Some (s3, len, out) =>
                 if (len =? 1) && is_set (occupied s3) then
                   finish e (set_occupied s3 0) l f (len - 1) out
                 else finish e s3 l f len out
             end
         end.
Proof.
  intros e s l f d N0 I0 Hp L C Hd.
  enter_call N0 I0 Hp L C.
  replace (d =? 0) with false by (symmetry; apply Z.eqb_neq; lia).
  match goal with |- context [flush_buffered ?x d 0] => exists x end.
  split; [reflexivity|]. split; [reflexivity|]. split; [reflexivity|].
  split; [reflexivity|]. split; [exact P|].
  split; [reflexivity|]. split; [exact N0|].
  split; [repeat split | reflexivity].
Qed.

Lemma between_calls_intro : forall g s3 f len,
  same_geometry g s3 -> pattern s3 = pattern g ->
  buffers_allocated s3 ->
  (forall b, temp s3 = Some b \/ In (Some b) (frame s3) ->
     holds_picture g b) ->
  init_len s3 = 0 -> 0 <= pattern_pos s3 < strlen (pattern g) ->
  0 <= len <= 7 ->
  (occupied s3 = 0 \/ occupied s3 = 1) -> (len <> 0 -> occupied s3 = 0) ->
  (occupied s3 = 1 -> exists t, temp s3 = Some t /\ same_picture g t f) ->
  between_calls g (set_nskip_fields s3 (to_uint len)) f.
Proof.
  intros g s3 f len G Pt BA BH I0 Hp Hl Ho Hno Hocc.
  unfold between_calls.
  cbn [pattern temp frame init_len pattern_pos nskip_fields occupied
       set_nskip_fields].
  rewrite to_uint_small by lia.
  split; [exact G|]. split; [exact Pt|]. split; [exact BA|].
  split; [exact BH|]. split; [exact I0|]. split; [exact Hp|].
  split; [exact Hl|]. split; [exact Ho|]. split; [exact Hno | exact Hocc].
Qed.

Lemma same_geometry_capture : forall g s v,
  same_geometry g s -> same_geometry g (set_start_time s v).
Proof. intros g s v (A & B & C & D). repeat split; assumption. Qed.

Lemma fields_from_one : forall p i,
  0 <= i < strlen p -> fields_from p i 1 = char_at p i - 48.
Proof.
  intros p i Hi. cbn [fields_from]. unfold entry.
  rewrite Z.mod_small by lia. lia.
Qed.

(** A call with two or more fields to skip. *)
Lemma step_skip_many : forall e g s l f prev,
  between_calls g s prev -> 2 <= nskip_fields s ->
  exists r new,
    filter_frame e s l f = Some r
    /\ delivered (r_outlink r) = delivered l ++ new
    /\ call_accounts g s prev f (r_ctx r) new.
Proof.
  intros e g s l f prev (G & Pt & BA & BH & I0 & Hp & Hn & Ho & Hno & Hocc) N.
  assert (O0 : occupied s = 0) by (apply Hno; lia).
  unfold filter_frame, capture_start_time.
  cbn [nskip_fields set_start_time].
  replace (nskip_fields s >=? 2) with true
    by (symmetry; rewrite Z.geb_leb; apply Z.leb_le; lia).
  eexists. exists []. split; [reflexivity|].
  cbn [r_ctx r_outlink].
  split; [now rewrite app_nil_r|].
  unfold call_accounts. cbn [List.length Z.of_nat fields_from].
  split.
  { apply between_calls_intro.
    - now apply same_geometry_capture.
    - exact Pt.
    - exact BA.
    - exact BH.
    - exact I0.
    - exact Hp.
    - lia.
    - exact Ho.
    - intros _. exact O0.
    - intros H. cbn in H. rewrite O0 in H. discriminate. }
  cbn [pattern_pos nskip_fields occupied set_nskip_fields set_start_time].
  rewrite to_uint_small by lia.
  split; [rewrite Z.add_0_r, Z.mod_small by lia; reflexivity|].
  split; [lia | constructor].
Qed.

(** A call with one field to skip. *)
Lemma step_skip_one : forall e g s l f prev,
  between_calls g s prev -> holds_picture g f -> nskip_fields s = 1 ->
  exists r new,
    filter_frame e s l f = Some r
    /\ delivered (r_outlink r) = delivered l ++ new
    /\ call_accounts g s prev f (r_ctx r) new.
Proof.
  intros e g s l f prev (G & Pt & BA & BH & I0 & Hp & Hn & Ho & Hno & Hocc)
         HF N.
  assert (O0 : occupied s = 0) by (apply Hno; lia).
  destruct (allocated_temp BA) as [t Ht].
  assert (Hht : holds_picture g t) by (apply BH; left; exact Ht).
  unfold filter_frame, capture_start_time.
  cbn [nskip_fields temp set_start_time]. rewrite N.
  change (1 >=? 2) with false. change (1 >=? 1) with true. cbv iota.
  rewrite Ht.
  set (c := set_start_time s _).
  assert (Gc : same_geometry g c) by (now apply same_geometry_capture).
  destruct (copy_picture_same Gc Hht HF) as [Q K].
  set (t1 := copy_picture c t f) in *. clearbody t1.
  eexists. exists []. split; [reflexivity|].
  cbn [r_ctx r_outlink].
  split; [now rewrite app_nil_r|].
  unfold call_accounts. cbn [List.length Z.of_nat fields_from].
  assert (Nc : nskip_fields (set_occupied (set_temp c (Some t1)) 1) = 1)
    by exact N.
  rewrite Nc. change (1 - 1) with 0.
  split.
  { apply between_calls_intro.
    - destruct Gc as (? & ? & ? & ?). repeat split; assumption.
    - exact Pt.
    - destruct BA as (B1 & B2 & B3). repeat split; cbn; auto. discriminate.
    - intros b Hb. cbn in Hb. destruct Hb as [Hb|Hb].
      + inversion Hb; subst. exact K.
      + apply BH. right. exact Hb.
    - exact I0.
    - exact Hp.
    - lia.
    - right. reflexivity.
    - intros H. lia.
    - intros _. exists t1. split; [reflexivity | exact Q]. }
  cbn [pattern_pos nskip_fields occupied set_nskip_fields set_occupied
       set_temp]. subst c. cbn [pattern_pos nskip_fields set_start_time].
  rewrite to_uint_small by lia. rewrite N, O0.
  split; [rewrite Z.add_0_r, Z.mod_small by lia; reflexivity|].
  split; [lia | constructor].
Qed.

(** The block that builds the output frame when a frame is buffered and
    the entry has two fields or more. *)
Lemma build_frame_buffered : forall s f len out fo t,
  occupied s <> 0 -> 2 <= len ->
  nth out (frame s) None = Some fo -> temp s = Some t ->
  exists s',
    build_frame s f len out
    = Some (s', (if len =? 2 then 0 else len - 3), S out)
    /\ frame s' = upd_nth (frame s) out (Some (weave_picture s fo f t))
    /\ occupied s' = (if len =? 2 then 1 else 0)
    /\ temp s' = (if len =? 2 then Some (copy_picture s t f) else temp s)
    /\ pattern s' = pattern s /\ pattern_pos s' = pattern_pos s
    /\ same_geometry s s'
    /\ init_len s' = init_len s /\ nskip_fields s' = nskip_fields s.
Proof.
  intros s f len out fo t O Hl Hb Ht. unfold build_frame.
  unfold is_set.
  replace (occupied s =? 0) with false by (symmetry; now apply Z.eqb_neq).
  cbn [negb]. rewrite Hb, Ht.
  cbn [temp set_occupied set_frame]. rewrite Ht.
  destruct (Z.eqb_spec len 2) as [E|E].
  - subst len. change (2 <=? 2) with true. change (2 >=? 3) with false.
    cbv iota. eexists. split; [reflexivity|]. cbn. repeat split.
  - replace (len <=? 2) with false by (symmetry; apply Z.leb_gt; lia).
    replace (len >=? 3) with true
      by (symmetry; rewrite Z.geb_leb; apply Z.leb_le; lia).
    eexists. split; [reflexivity|]. cbn. repeat split; auto.
Qed.

Lemma flush_buffered_idle : forall s len out,
  len <> 1 \/ occupied s = 0 -> flush_buffered s len out = Some (s, len, out).
Proof.
  intros s len out H. unfold flush_buffered, is_set.
  destruct H as [H|H].
  - replace (len =? 1) with false by (symmetry; now apply Z.eqb_neq).
    reflexivity.
  - rewrite H. change (0 =? 0) with true. cbn [negb].
    now rewrite andb_false_r.
Qed.

Lemma same_picture_trans : forall g a b c,
  same_picture g a b -> same_picture g b c -> same_picture g a c.
Proof.
  unfold same_picture. intros g a b c H1 H2 i r col Hi Hr Hc.
  rewrite (H1 i r col Hi Hr Hc). now apply H2.
Qed.

Lemma buffers_allocated_frames : forall s t a0 a1,
  temp s = Some t -> nth 0 (frame s) None = Some a0 ->
  nth 1 (frame s) None = Some a1 -> buffers_allocated s.
Proof.
  intros s t a0 a1 H1 H2 H3. unfold buffers_allocated.
  rewrite H1, H2, H3. repeat split; discriminate.
Qed.

(** A call at an entry with no frame buffered. *)
Lemma step_plain : forall e g s l f prev,
  between_calls g s prev ->
  no_zero (pattern g) = true -> strlen (pattern g) < 2 ^ 32 ->
  holds_picture g f -> clone_ok e 0 = true ->
  nskip_fields s = 0 -> occupied s = 0 ->
  exists r new,
    filter_frame e s l f = Some r
    /\ delivered (r_outlink r) = delivered l ++ new
    /\ call_accounts g s prev f (r_ctx r) new.
Proof.
  intros e g s l f prev (G & Pt & BA & BH & I0 & Hp & Hn & Ho & Hno & Hocc)
         NZ L HF Ck N0 O0.
  pose proof (no_zero_char _ NZ Hp) as Dg.
  set (d := char_at (pattern g) (pattern_pos s) - 48) in *.
  assert (C : char_at (pattern s) (pattern_pos s) = 48 + d)
    by (rewrite Pt; unfold d; lia).
  assert (Hd : 1 <= d <= 9) by (unfold d; lia).
  clearbody d.
  destruct (@allocated_slot s 0%nat BA ltac:(lia)) as [b0 Hb0].
  destruct (@allocated_slot s 1%nat BA ltac:(lia)) as [b1 Hb1].
  destruct (allocated_temp BA) as [t Ht].
  assert (Hh0 : holds_picture g b0)
    by (apply BH; right; eapply nth_some_in; eauto).
  assert (Hht : holds_picture g t) by (apply BH; left; exact Ht).
  assert (Hlen : (1 < List.length (frame s))%nat)
    by (eapply nth_some_length; eauto).
  destruct (@filter_frame_takes_an_entry e s l f d N0 I0
              ltac:(rewrite Pt; exact Hp) ltac:(rewrite Pt; exact L)
              C ltac:(lia))
    as (s1 & E1o & E1f & E1t & E1p & E1q & E1i & E1n & G1 & F).
  rewrite F. clear F. rewrite Pt in E1q.
  rewrite (@flush_buffered_idle s1 d 0)
    by (right; rewrite E1o; exact O0).
  destruct (@build_frame_unbuffered s1 f d 0%nat b0 t)
    as (s3 & F3 & E3f & E3o & E3t & E3p & E3q & G3 & E3i & E3n);
    try (rewrite ?E1o, ?E1f, ?E1t; assumption); try lia.
  rewrite F3. clear F3.
  assert (G01 : same_geometry g s1) by (eapply same_geometry_trans; eauto).
  assert (G03 : same_geometry g s3) by (eapply same_geometry_trans; eauto).
  destruct (copy_picture_same G01 Hh0 HF) as [Q K].
  destruct (copy_picture_same G01 Hht HF) as [Q2 K2].
  set (b := copy_picture s1 b0 f) in *. clearbody b.
  set (t2 := copy_picture s1 t f) in *. clearbody t2.
  assert (F0 : nth 0 (frame s3) None = Some b).
  { rewrite E3f, E1f. apply upd_nth_same. lia. }
  assert (F1 : nth 1 (frame s3) None = Some b1).
  { rewrite E3f, E1f. rewrite upd_nth_other by lia. exact Hb1. }
  assert (T3 : exists t3, temp s3 = Some t3 /\ holds_picture g t3
                          /\ (d = 1 -> same_picture g t3 f)).
  { rewrite E3t. destruct (Z.eqb_spec d 1) as [E|E].
    - exists t2. auto.
    - exists t. rewrite E1t. split; [exact Ht|]. split; [exact Hht|].
      intros; lia. }
  destruct T3 as (t3 & Ht3 & Hh3 & Q3).
  replace (((if d =? 1 then 0 else d - 2) =? 1) && is_set (occupied s3))
    with false.
  2:{ rewrite E3o. destruct (Z.eqb_spec d 1); [reflexivity|].
      unfold is_set. cbn. now rewrite andb_false_r. }
  destruct (@finish_one e s3 l f (if d =? 1 then 0 else d - 2) b F0 Ck)
    as (r & F & Rc & Rd & Rr & Rf).
  exists r, [sent_frame s3 l f b].
  split; [exact F|]. split; [exact Rd|].
  unfold call_accounts. rewrite Rc. cbn [List.length Z.of_nat].
  split.
  { apply between_calls_intro.
    - exact G03.
    - rewrite E3p, E1p. exact Pt.
    - eapply buffers_allocated_frames; eauto.
    - intros x [Hx|Hx].
      + rewrite Ht3 in Hx. inversion Hx; subst. exact Hh3.
      + rewrite E3f, E1f in Hx. apply in_upd_nth in Hx.
        destruct Hx as [Hx|Hx]; [inversion Hx; subst; exact K|].
        apply BH. right. exact Hx.
    - rewrite E3i. exact E1i.
    - rewrite E3q, E1q. apply Z.mod_pos_bound. lia.
    - destruct (Z.eqb_spec d 1); lia.
    - rewrite E3o. destruct (d =? 1); auto.
    - rewrite E3o. destruct (Z.eqb_spec d 1); [lia | reflexivity].
    - rewrite E3o. intros H1.
      destruct (Z.eqb_spec d 1) as [E|E]; [|discriminate].
      exists t3. split; [exact Ht3 | apply Q3; exact E]. }
  cbn [pattern_pos nskip_fields occupied set_nskip_fields].
  split; [rewrite E3q, E1q; reflexivity|].
  split.
  { rewrite fields_from_one by exact Hp.
    rewrite E3o, N0, O0.
    replace (char_at (pattern g) (pattern_pos s) - 48) with d
      by (rewrite <- Pt, C; lia).
    destruct (Z.eqb_spec d 1); rewrite to_uint_small by lia; lia. }
  constructor; [|constructor].
  split; [reflexivity|]. left.
  eapply same_picture_frame; [| |exact Q]; reflexivity.
Qed.

(** A call at an entry of two fields or more with a frame buffered. *)
Lemma step_woven : forall e g s l f prev,
  between_calls g s prev ->
  no_zero (pattern g) = true -> strlen (pattern g) < 2 ^ 32 ->
  0 <= first_field g <= 1 ->
  holds_picture g f -> clone_ok e 0 = true ->
  nskip_fields s = 0 -> occupied s = 1 ->
  char_at (pattern g) (pattern_pos s) <> 49 ->
  exists r new,
    filter_frame e s l f = Some r
    /\ delivered (r_outlink r) = delivered l ++ new
    /\ call_accounts g s prev f (r_ctx r) new.
Proof.
  intros e g s l f prev (G & Pt & BA & BH & I0 & Hp & Hn & Ho & Hno & Hocc)
         NZ L FF HF Ck N0 O1 D1.
  pose proof (no_zero_char _ NZ Hp) as Dg.
  set (d := char_at (pattern g) (pattern_pos s) - 48) in *.
  assert (C : char_at (pattern s) (pattern_pos s) = 48 + d)
    by (rewrite Pt; unfold d; lia).
  assert (Hd : 2 <= d <= 9) by (unfold d; lia).
  assert (Dd : char_at (pattern g) (pattern_pos s) - 48 = d) by reflexivity.
  clearbody d.
  destruct (@allocated_slot s 0%nat BA ltac:(lia)) as [b0 Hb0].
  destruct (@allocated_slot s 1%nat BA ltac:(lia)) as [b1 Hb1].
  destruct (Hocc O1) as (t & Ht & Qt).
  assert (Hh0 : holds_picture g b0)
    by (apply BH; right; eapply nth_some_in; eauto).
  assert (Hht : holds_picture g t) by (apply BH; left; exact Ht).
  assert (Hlen : (1 < List.length (frame s))%nat)
    by (eapply nth_some_length; eauto).
  destruct (@filter_frame_takes_an_entry e s l f d N0 I0
              ltac:(rewrite Pt; exact Hp) ltac:(rewrite Pt; exact L)
              C ltac:(lia))
    as (s1 & E1o & E1f & E1t & E1p & E1q & E1i & E1n & G1 & F).
  rewrite F. clear F. rewrite Pt in E1q.
  rewrite (@flush_buffered_idle s1 d 0) by (left; lia).
  destruct (@build_frame_buffered s1 f d 0%nat b0 t)
    as (s3 & F3 & E3f & E3o & E3t & E3p & E3q & G3 & E3i & E3n);
    try (rewrite ?E1o, ?E1f, ?E1t; assumption); try lia.
  rewrite F3. clear F3.
  assert (G01 : same_geometry g s1) by (eapply same_geometry_trans; eauto).
  assert (G03 : same_geometry g s3) by (eapply same_geometry_trans; eauto).
  destruct (weave_picture_woven G01 FF Hh0 HF Hht) as [W K].
  destruct (copy_picture_same G01 Hht HF) as [Q2 K2].
  set (b := weave_picture s1 b0 f t) in *. clearbody b.
  set (t2 := copy_picture s1 t f) in *. clearbody t2.
  assert (F0 : nth 0 (frame s3) None = Some b).
  { rewrite E3f, E1f. apply upd_nth_same. lia. }
  assert (F1 : nth 1 (frame s3) None = Some b1).
  { rewrite E3f, E1f. rewrite upd_nth_other by lia. exact Hb1. }
  assert (T3 : exists t3, temp s3 = Some t3 /\ holds_picture g t3
                          /\ (d = 2 -> same_picture g t3 f)).
  { rewrite E3t. destruct (Z.eqb_spec d 2) as [E|E].
    - exists t2. auto.
    - exists t. rewrite E1t. split; [exact Ht|]. split; [exact Hht|].
      intros; lia. }
  destruct T3 as (t3 & Ht3 & Hh3 & Q3).
  replace (((if d =? 2 then 0 else d - 3) =? 1) && is_set (occupied s3))
    with false.
  2:{ rewrite E3o. destruct (Z.eqb_spec d 2); [reflexivity|].
      unfold is_set. cbn. now rewrite andb_false_r. }
  destruct (@finish_one e s3 l f (if d =? 2 then 0 else d - 3) b F0 Ck)
    as (r & F & Rc & Rd & Rr & Rf).
  exists r, [sent_frame s3 l f b].
  split; [exact F|]. split; [exact Rd|].
  unfold call_accounts. rewrite Rc. cbn [List.length Z.of_nat].
  split.
  { apply between_calls_intro.
    - exact G03.
    - rewrite E3p, E1p. exact Pt.
    - eapply buffers_allocated_frames; eauto.
    - intros x [Hx|Hx].
      + rewrite Ht3 in Hx. inversion Hx; subst. exact Hh3.
      + rewrite E3f, E1f in Hx. apply in_upd_nth in Hx.
        destruct Hx as [Hx|Hx]; [inversion Hx; subst; exact K|].
        apply BH. right. exact Hx.
    - rewrite E3i. exact E1i.
    - rewrite E3q, E1q. apply Z.mod_pos_bound. lia.
    - destruct (Z.eqb_spec d 2); lia.
    - rewrite E3o. destruct (d =? 2); auto.
    - rewrite E3o. destruct (Z.eqb_spec d 2); [lia | reflexivity].
    - rewrite E3o. intros H1.
      destruct (Z.eqb_spec d 2) as [E|E]; [|discriminate].
      exists t3. split; [exact Ht3 | apply Q3; exact E]. }
  cbn [pattern_pos nskip_fields occupied set_nskip_fields].
  split; [rewrite E3q, E1q; reflexivity|].
  split.
  { rewrite fields_from_one by exact Hp.
    rewrite E3o, N0, O1, Dd.
    destruct (Z.eqb_spec d 2); rewrite to_uint_small by lia; lia. }
  constructor; [|constructor].
  split; [reflexivity|]. right. split; [exact O1|]. right.
  eapply woven_frame; [| |eapply woven_same; [exact W | exact Qt]];
    reflexivity.
Qed.

(** A call at an entry of one field with a frame buffered. *)
Lemma step_flush : forall e g s l f prev,
  between_calls g s prev ->
  no_zero (pattern g) = true -> strlen (pattern g) < 2 ^ 32 ->
  holds_picture g f -> clone_ok e 0 = true -> clone_ok e 1 = true ->
  nskip_fields s = 0 -> occupied s = 1 ->
  char_at (pattern g) (pattern_pos s) = 49 ->
  exists r new,
    filter_frame e s l f = Some r
    /\ delivered (r_outlink r) = delivered l ++ new
    /\ call_accounts g s prev f (r_ctx r) new.
Proof.
  intros e g s l f prev (G & Pt & BA & BH & I0 & Hp & Hn & Ho & Hno & Hocc)
         NZ L HF Ck0 Ck1 N0 O1 D1.
  assert (Lp : 0 < strlen (pattern g)) by lia.
  set (q := (pattern_pos s + 1) mod strlen (pattern g)).
  assert (Hq : 0 <= q < strlen (pattern g))
    by (apply Z.mod_pos_bound; exact Lp).
  pose proof (no_zero_char _ NZ Hq) as Dg.
  set (d := char_at (pattern g) q - 48) in *.
  assert (Dd : char_at (pattern g) q - 48 = d) by reflexivity.
  assert (Hd : 1 <= d <= 9) by (unfold d; lia).
  clearbody d.
  destruct (@allocated_slot s 0%nat BA ltac:(lia)) as [b0 Hb0].
  destruct (@allocated_slot s 1%nat BA ltac:(lia)) as [b1 Hb1].
  destruct (Hocc O1) as (t & Ht & Qt).
  assert (Hh0 : holds_picture g b0)
    by (apply BH; right; eapply nth_some_in; eauto).
  assert (Hh1 : holds_picture g b1)
    by (apply BH; right; eapply nth_some_in; eauto).
  assert (Hht : holds_picture g t) by (apply BH; left; exact Ht).
  assert (Hlen : (1 < List.length (frame s))%nat)
    by (eapply nth_some_length; eauto).
  destruct (@filter_frame_takes_an_entry e s l f 1 N0 I0
              ltac:(rewrite Pt; exact Hp) ltac:(rewrite Pt; exact L)
              ltac:(rewrite Pt, D1; reflexivity) ltac:(lia))
    as (s1 & E1o & E1f & E1t & E1p & E1q & E1i & E1n & G1 & F).
  rewrite F. clear F. rewrite Pt in E1q. fold q in E1q.
  destruct (@flush_buffered_fires s1 b0 t d (q + 1))
    as (s2 & F2 & E2o & E2t & E2f & E2p & E2q & G2 & E2i & E2n);
    try (rewrite ?E1p, ?Pt, ?E1o, ?E1f, ?E1t; auto; lia).
  { rewrite E1p, Pt, E1q. apply find_len_digit; try lia. }
  rewrite F2. clear F2. rewrite E1p, Pt in E2q.
  assert (G01 : same_geometry g s1) by (eapply same_geometry_trans; eauto).
  assert (G02 : same_geometry g s2) by (eapply same_geometry_trans; eauto).
  destruct (copy_picture_same G01 Hh0 Hht) as [Q0 K0].
  set (a0 := copy_picture s1 b0 t) in *. clearbody a0.
  destruct (@build_frame_unbuffered s2 f d 1%nat b1 t)
    as (s3 & F3 & E3f & E3o & E3t & E3p & E3q & G3 & E3i & E3n);
    try (rewrite ?E2o, ?E2t, ?E1t; auto; lia).
  { rewrite E2f, E1f. rewrite upd_nth_other by lia. exact Hb1. }
  rewrite F3. clear F3.
  assert (G03 : same_geometry g s3) by (eapply same_geometry_trans; eauto).
  destruct (copy_picture_same G02 Hh1 HF) as [Q1 K1].
  destruct (copy_picture_same G02 Hht HF) as [Q2 K2].
  set (a1 := copy_picture s2 b1 f) in *. clearbody a1.
  set (t2 := copy_picture s2 t f) in *. clearbody t2.
  assert (F0 : nth 0 (frame s3) None = Some a0).
  { rewrite E3f, E2f, E1f. rewrite upd_nth_other by lia.
    apply upd_nth_same. lia. }
  assert (F1 : nth 1 (frame s3) None = Some a1).
  { rewrite E3f, E2f, E1f. apply upd_nth_same.
    rewrite upd_nth_length. lia. }
  assert (T3 : exists t3, temp s3 = Some t3 /\ holds_picture g t3
                          /\ (d = 1 -> same_picture g t3 f)).
  { rewrite E3t. destruct (Z.eqb_spec d 1) as [E|E].
    - exists t2. auto.
    - exists t. rewrite E2t, E1t. split; [exact Ht|]. split; [exact Hht|].
      intros; lia. }
  destruct T3 as (t3 & Ht3 & Hh3 & Q3).
  replace (((if d =? 1 then 0 else d - 2) =? 1) && is_set (occupied s3))
    with false.
  2:{ rewrite E3o. destruct (Z.eqb_spec d 1); [reflexivity|].
      unfold is_set. cbn. now rewrite andb_false_r. }
  destruct (@finish_two e s3 l f (if d =? 1 then 0 else d - 2) a0 a1
              F0 F1 Ck0 Ck1)
    as (r & l1 & F & Rc & _ & Rd & Rr & Rf).
  exists r, [sent_frame s3 l f a0; sent_frame s3 l1 f a1].
  split; [exact F|]. split; [exact Rd|].
  unfold call_accounts. rewrite Rc. cbn [List.length Z.of_nat].
  split.
  { apply between_calls_intro.
    - exact G03.
    - rewrite E3p, E2p, E1p. exact Pt.
    - eapply buffers_allocated_frames; eauto.
    - intros x [Hx|Hx].
      + rewrite Ht3 in Hx. inversion Hx; subst. exact Hh3.
      + rewrite E3f, E2f, E1f in Hx. apply in_upd_nth in Hx.
        destruct Hx as [Hx|Hx]; [inversion Hx; subst; exact K1|].
        apply in_upd_nth in Hx.
        destruct Hx as [Hx|Hx]; [inversion Hx; subst; exact K0|].
        apply BH. right. exact Hx.
    - rewrite E3i, E2i. exact E1i.
    - rewrite E3q, E2q. apply Z.mod_pos_bound. lia.
    - destruct (Z.eqb_spec d 1); lia.
    - rewrite E3o. destruct (d =? 1); auto.
    - rewrite E3o. destruct (Z.eqb_spec d 1); [lia | reflexivity].
    - rewrite E3o. intros H1.
      destruct (Z.eqb_spec d 1) as [E|E]; [|discriminate].
      exists t3. split; [exact Ht3 | apply Q3; exact E]. }
  cbn [pattern_pos nskip_fields occupied set_nskip_fields].
  split.
  { rewrite E3q, E2q. unfold q.
    rewrite Z.add_mod_idemp_l by lia. f_equal. lia. }
  split.
  { cbn [fields_from]. unfold entry.
    rewrite (Z.mod_small (pattern_pos s)) by lia. fold q.
    rewrite D1, Dd, E3o, N0, O1.
    destruct (Z.eqb_spec d 1); rewrite to_uint_small by lia; lia. }
  constructor; [|constructor; [|constructor]].
  - split; [reflexivity|]. right. split; [exact O1|]. left.
    eapply same_picture_frame; [reflexivity | reflexivity |].
    eapply same_picture_trans; [exact Q0 | exact Qt].
  - split; [reflexivity|]. left.
    eapply same_picture_frame; [| |exact Q1]; reflexivity.
Qed.

(** One call from the state between two calls: it returns, and the
    accounts hold. *)
Lemma call_step : forall e g s l f prev,
  between_calls g s prev ->
  no_zero (pattern g) = true -> strlen (pattern g) < 2 ^ 32 ->
  0 <= first_field g <= 1 ->
  holds_picture g f -> clone_ok e 0 = true -> clone_ok e 1 = true ->
  exists r new,
    filter_frame e s l f = Some r
    /\ delivered (r_outlink r) = delivered l ++ new
    /\ call_accounts g s prev f (r_ctx r) new.
Proof.
  intros e g s l f prev B NZ L FF HF Ck0 Ck1.
  pose proof B as (_ & _ & _ & _ & _ & _ & Hn & Ho & _).
  destruct (Z_le_gt_dec 2 (nskip_fields s)) as [N2|N2];
    [now apply step_skip_many|].
  destruct (Z.eq_dec (nskip_fields s) 1) as [N1|N1];
    [now apply step_skip_one|].
  assert (N0 : nskip_fields s = 0) by lia.
  destruct Ho as [O0|O1]; [now apply step_plain|].
  destruct (Z.eq_dec (char_at (pattern g) (pattern_pos s)) 49) as [D|D].
  - now apply step_flush.
  - now apply step_woven.
Qed.

Lemma fields_from_mod : forall p k i j,
  i mod strlen p = j mod strlen p -> fields_from p i k = fields_from p j k.
Proof.
  intros p. induction k as [|k IH]; intros i j E; cbn [fields_from];
    [reflexivity|].
  unfold entry. rewrite E. f_equal. apply IH.
  destruct (Z.eq_dec (strlen p) 0) as [Z0|NZ].
  - rewrite Z0 in *. rewrite !Z.mod_0_r in *. lia.
  - rewrite <- (Z.add_mod_idemp_l i), <- (Z.add_mod_idemp_l j) by exact NZ.
    now rewrite E.
Qed.

Lemma fields_from_app : forall p a b i,
  fields_from p i (a + b)
  = fields_from p i a + fields_from p (i + Z.of_nat a) b.
Proof.
  intros p. induction a as [|a IH]; intros b i.
  - cbn [Nat.add fields_from Z.of_nat]. rewrite Z.add_0_r. lia.
  - cbn [Nat.add fields_from]. rewrite IH.
    replace (i + 1 + Z.of_nat a) with (i + Z.of_nat (S a)) by lia. lia.
Qed.

Lemma from_inputs_more : forall g fs more o,
  from_inputs g fs o -> from_inputs g (fs ++ more) o.
Proof.
  intros g fs more o (i & f & Hi & H).
  exists i, f. split.
  - rewrite nth_error_app1; [exact Hi|]. apply nth_error_Some. congruence.
  - destruct H as [H|(f' & Hf' & W)]; [left; exact H|].
    right. exists f'. split; [|exact W].
    rewrite nth_error_app1; [exact Hf'|]. apply nth_error_Some. congruence.
Qed.

Lemma nth_error_last : forall (A : Type) (l : list A) d,
  l <> [] -> nth_error l (List.length l - 1) = Some (last l d).
Proof.
  induction l as [|a l IH]; intros d N; [congruence|].
  destruct l as [|b l]; [reflexivity|].
  replace (List.length (a :: b :: l) - 1)%nat
    with (S (List.length (b :: l) - 1)) by (cbn [List.length]; lia).
  cbn [nth_error]. rewrite (IH d) by discriminate. reflexivity.
Qed.

(** The accounts hold along a run. *)
Lemma run_accounts : forall g inputs done s l,
  no_zero (pattern g) = true -> strlen (pattern g) < 2 ^ 32 ->
  0 <= first_field g <= 1 ->
  (forall e f, In (e, f) inputs ->
     clone_ok e 0 = true /\ clone_ok e 1 = true /\ holds_picture g f) ->
  between_calls g s (last (map snd done) no_frame) ->
  stream_accounts g done s l ->
  exists s' l',
    run s l inputs = Some (s', l')
    /\ between_calls g s' (last (map snd (done ++ inputs)) no_frame)
    /\ stream_accounts g (done ++ inputs) s' l'.
Proof.
  intros g inputs. induction inputs as [|[e f] inputs IH];
    intros done s l NZ L FF Hin B A; cbn [run].
  - exists s, l. rewrite app_nil_r. auto.
  - destruct (Hin e f ltac:(left; reflexivity)) as (Ck0 & Ck1 & HF).
    destruct (@call_step e g s l f _ B NZ L FF HF Ck0 Ck1)
      as (r & new & F & Rd & B' & Pos & Fl & Fa).
    rewrite F.
    pose proof B as (_ & _ & _ & _ & _ & Hp & _).
    destruct A as (A1 & A2 & A3 & A4).
    assert (Lp : strlen (pattern g) <> 0) by lia.
    destruct (IH (done ++ [(e, f)]) (r_ctx r) (r_outlink r) NZ L FF)
      as (s' & l' & R & B'' & A'').
    + intros e' f' H'. apply Hin. right. exact H'.
    + rewrite map_app. cbn [map snd]. rewrite last_last. exact B'.
    + unfold stream_accounts. rewrite Rd, !length_app.
      split; [|split; [|split]].
      * rewrite fields_from_app, Z.add_0_l. cbn [List.length].
        rewrite (@fields_from_mod (pattern g) (List.length new)
                   (Z.of_nat (List.length (delivered l))) (pattern_pos s))
          by (rewrite A2, Z.mod_mod by exact Lp; reflexivity).
        rewrite Fl. lia.
      * rewrite Pos, A2, Nat2Z.inj_add.
        now rewrite Z.add_mod_idemp_l by exact Lp.
      * intros _. destruct done; discriminate.
      * apply Forall_app. split.
        -- eapply Forall_impl; [|exact A4]. intros o Ho.
           rewrite map_app. now apply from_inputs_more.
        -- eapply Forall_impl; [|exact Fa]. intros o (_ & Ho).
           rewrite map_app. cbn [map snd].
           assert (Here : nth_error (map snd done ++ [f])
                            (List.length (map snd done)) = Some f).
           { rewrite nth_error_app2 by lia. now rewrite Nat.sub_diag. }
           destruct Ho as [Ho|(O1 & Ho)].
           ++ exists (List.length (map snd done)), f.
              split; [exact Here | left; exact Ho].
           ++ assert (Dn : map snd done <> [])
                by (specialize (A3 O1); destruct done;
                    [congruence | discriminate]).
              assert (Ln : (0 < List.length (map snd done))%nat)
                by (destruct (map snd done); [congruence | cbn; lia]).
              exists (List.length (map snd done) - 1)%nat,
                (last (map snd done) no_frame).
              split.
              { rewrite nth_error_app1 by lia.
                now apply nth_error_last. }
              destruct Ho as [Ho|Ho]; [left; exact Ho|].
              right. exists f. split; [|exact Ho].
              replace (S (List.length (map snd done) - 1))
                with (List.length (map snd done)) by lia.
              exact Here.
    + exists s', l'. rewrite <- app_assoc in B'', A''. cbn [app] in B'', A''.
      auto.
Qed.

Lemma started_between_calls : forall s0 l0,
  started s0 l0 -> start_frame s0 = 0 -> buffers_hold s0 ->
  between_calls s0 s0 no_frame /\ stream_accounts s0 [] s0 l0
  /\ 0 <= first_field s0 <= 1.
Proof.
  intros s0 l0 St Sf BH.
  pose proof (started_inv St) as (BA & (L1 & _) & _ & _ & Dl).
  destruct (started_shape St Sf) as (t & b0 & b1 & Hs & FF & _).
  assert (N0 : nskip_fields s0 = 0) by (rewrite Hs; reflexivity).
  assert (I0 : init_len s0 = 0) by (rewrite Hs; reflexivity).
  assert (O0 : occupied s0 = 0) by (rewrite Hs; reflexivity).
  assert (P0 : pattern_pos s0 = 0) by (rewrite Hs; reflexivity).
  split; [|split; [|exact FF]].
  - unfold between_calls. rewrite N0, I0, O0, P0.
    split; [repeat split|]. split; [reflexivity|]. split; [exact BA|].
    split; [exact BH|]. split; [reflexivity|]. split; [lia|].
    split; [lia|]. split; [left; reflexivity|].
    split; [intros; reflexivity | intros; discriminate].
  - unfold stream_accounts. rewrite Dl, N0, O0, P0.
    cbn [List.length fields_from Z.of_nat].
    split; [reflexivity|]. split; [now rewrite Z.mod_0_l by lia|].
    split; [intros; discriminate | constructor].
Qed.

(** X23.  The engine keeps accounts of the fields.  Through a pattern of
    the digits 1 to 9, from its first frame on, every run returns, and
    after it: one pattern entry has been passed per frame sent (the cursor
    is the number of frames sent, modulo the length of the pattern), and
    the fields of these entries are the fields of the input frames, two
    each, plus the fields left to skip, less the one field buffered.  No
    field is lost and none is made up. *)
Theorem fields_are_accounted_for : forall s0 l0 inputs,
  started s0 l0 -> start_frame s0 = 0 ->
  no_zero (pattern s0) = true -> strlen (pattern s0) < 2 ^ 32 ->
  buffers_hold s0 ->
  (forall e f, In (e, f) inputs ->
     clone_ok e 0 = true /\ clone_ok e 1 = true /\ holds_picture s0 f) ->
  exists s l,
    run s0 l0 inputs = Some (s, l)
    /\ fields_from (pattern s0) 0 (List.length (delivered l))
       = 2 * Z.of_nat (List.length inputs) + nskip_fields s - occupied s
    /\ pattern_pos s
       = Z.of_nat (List.length (delivered l)) mod strlen (pattern s0)
    /\ 0 <= nskip_fields s <= 7
    /\ (occupied s = 0 \/ occupied s = 1)
    /\ (nskip_fields s <> 0 -> occupied s = 0).
Proof.
  intros s0 l0 inputs St Sf NZ L BH Hin.
  destruct (started_between_calls St Sf BH) as (B & A & FF).
  destruct (@run_accounts s0 inputs [] s0 l0 NZ L FF Hin B A)
    as (s & l & R & B' & A').
  exists s, l. split; [exact R|].
  cbn [app] in A'. destruct A' as (A1 & A2 & _).
  destruct B' as (_ & _ & _ & _ & _ & _ & Hn & Ho & Hno & _).
  split; [lia|]. split; [exact A2|]. auto.
Qed.

(** X24.  Where the output frames come from.  Through a pattern of the
    digits 1 to 9, from its first frame on, every frame the filter sends
    shows one of the input frames, or the first field of an input frame
    woven with the second field of the input frame right before it: it
    never shows anything else, and never mixes frames that are not
    neighbours. *)
Theorem outputs_are_made_of_the_inputs : forall s0 l0 inputs,
  started s0 l0 -> start_frame s0 = 0 ->
  no_zero (pattern s0) = true -> strlen (pattern s0) < 2 ^ 32 ->
  buffers_hold s0 ->
  (forall e f, In (e, f) inputs ->
     clone_ok e 0 = true /\ clone_ok e 1 = true /\ holds_picture s0 f) ->
  exists outs,
    outputs s0 l0 inputs = Some outs
    /\ Forall (from_inputs s0 (map snd inputs)) outs.
Proof.
  intros s0 l0 inputs St Sf NZ L BH Hin.
  destruct (started_between_calls St Sf BH) as (B & A & FF).
  destruct (@run_accounts s0 inputs [] s0 l0 NZ L FF Hin B A)
    as (s & l & R & B' & A').
  exists (delivered l). unfold outputs. rewrite R. split; [reflexivity|].
  cbn [app] in A'. apply A'.
Qed.

Lemma example_inputs_fit : forall pat (fs : list AVFrame) e f,
  nb_planes (Example.ctx_after 0 pat 0 []) = 1 ->
  planeheight (Example.ctx_after 0 pat 0 []) = [4; 4; 4; 4] ->
  stride (Example.ctx_after 0 pat 0 []) = [2; 0; 0; 0] ->
  In (e, f) (map (fun f => (Example.env, f)) fs) ->
  (forall f, In f fs -> exists b t, f = Example.gray b t) ->
  clone_ok e 0 = true /\ clone_ok e 1 = true
  /\ holds_picture (Example.ctx_after 0 pat 0 []) f.
Proof.
  intros pat fs e f Hn Hp Hs Hin Hg.
  apply in_map_iff in Hin. destruct Hin as (x & Hx & Hin).
  inversion Hx; subst. destruct (Hg f Hin) as (b & t & ->).
  split; [reflexivity|]. split; [reflexivity|].
  apply fits_holds. unfold fits. rewrite Hn, Hp, Hs. reflexivity.
Qed.

(** X23, witness: five gray frames through the pattern "23": four frames
    are sent, and the four entries 2, 3, 2, 3 have the ten fields of the
    five frames. *)
Lemma fields_are_accounted_for_witness :
  let s0 := Example.ctx_after 0 "23" 0 [] in
  let l0 := Example.link_after 0 "23" 0 [] in
  let inputs :=
    map (fun f => (Example.env, f))
        [Example.gray 10 0; Example.gray 20 1; Example.gray 30 2;
         Example.gray 40 3; Example.gray 50 4] in
  exists s l,
    run s0 l0 inputs = Some (s, l)
    /\ fields_from (pattern s0) 0 (List.length (delivered l))
       = 2 * Z.of_nat (List.length inputs) + nskip_fields s - occupied s
    /\ pattern_pos s
       = Z.of_nat (List.length (delivered l)) mod strlen (pattern s0)
    /\ 0 <= nskip_fields s <= 7
    /\ (occupied s = 0 \/ occupied s = 1)
    /\ (nskip_fields s <> 0 -> occupied s = 0).
Proof.
  cbv zeta.
  apply fields_are_accounted_for.
  - apply example_started with (ff := 0) (pat := "23"%string) (sf := 0);
      [lia | lia | vm_compute; reflexivity].
  - vm_compute. reflexivity.
  - vm_compute. reflexivity.
  - vm_compute. reflexivity.
  - apply buffers_fit_hold. vm_compute. reflexivity.
  - intros e f H.
    apply (@example_inputs_fit "23"
             [Example.gray 10 0; Example.gray 20 1; Example.gray 30 2;
              Example.gray 40 3; Example.gray 50 4] e f);
      try (vm_compute; reflexivity); [exact H|].
    intros x Hx. cbn [In] in Hx.
    repeat (destruct Hx as [Hx|Hx]; [subst x; eexists _, _; reflexivity|]).
    contradiction.
Defined.

(** X24, witness: five gray frames through the pattern "23". *)
Lemma outputs_are_made_of_the_inputs_witness :
  let s0 := Example.ctx_after 0 "23" 0 [] in
  let l0 := Example.link_after 0 "23" 0 [] in
  let inputs :=
    map (fun f => (Example.env, f))
        [Example.gray 10 0; Example.gray 20 1; Example.gray 30 2;
         Example.gray 40 3; Example.gray 50 4] in
  exists outs,
    outputs s0 l0 inputs = Some outs
    /\ Forall (from_inputs s0 (map snd inputs)) outs.
Proof.
  cbv zeta.
  apply outputs_are_made_of_the_inputs.
  - apply example_started with (ff := 0) (pat := "23"%string) (sf := 0);
      [lia | lia | vm_compute; reflexivity].
  - vm_compute. reflexivity.
  - vm_compute. reflexivity.
  - vm_compute. reflexivity.
  - apply buffers_fit_hold. vm_compute. reflexivity.
  - intros e f H.
    apply (@example_inputs_fit "23"
             [Example.gray 10 0; Example.gray 20 1; Example.gray 30 2;
              Example.gray 40 3; Example.gray 50 4] e f);
      try (vm_compute; reflexivity); [exact H|].
    intros x Hx. cbn [In] in Hx.
    repeat (destruct Hx as [Hx|Hx]; [subst x; eexists _, _; reflexivity|]).
    contradiction.
Defined.

(** ** The first call behind a cut *)

(** The start of a call that has stray fields in hand: no entry is taken,
    the cursor stays, but for the rewind. *)
Lemma filter_frame_uses_the_stray_fields : forall e s l f,
  nskip_fields s = 0 -> init_len s <> 0 ->
  1 <= strlen (pattern s) -> 0 <= pattern_pos s <= strlen (pattern s) ->
  exists s1,
    occupied s1 = occupied s /\ frame s1 = frame s /\ temp s1 = temp s
    /\ pattern s1 = pattern s
    /\ pattern_pos s1 = pattern_pos s mod strlen (pattern s)
    /\ init_len s1 = 0 /\ nskip_fields s1 = 0
    /\ same_geometry s s1
    /\ filter_frame e s l f
       = match flush_buffered s1 (init_len s) 0 with
         | None => None
         | Some (s2, len, out) =>
             match build_frame s2 f len out with
             | None => None
             | Some (s3, len, out) =>
                 if (len =? 1) && is_set (occupied s3) then
                   finish e (set_occupied s3 0) l f (len - 1) out
                 else finish e s3 l f len out
             end
         end.
Proof.
  intros e s l f N0 I1 L Hp.
  unfold filter_frame, capture_start_time.
  cbn [nskip_fields init_len pattern pattern_pos set_init_len set_start_time].
  rewrite N0.
  change (0 >=? 2) with false. change (0 >=? 1) with false.
  change (0 =? 0) with true. cbv iota.
  unfold find_len_fuel. cbn [find_len].
  assert (I0 : (init_len s =? 0) = false) by now apply Z.eqb_neq.
  rewrite I0. cbn [andb]. cbv iota beta. rewrite ?I0. cbv iota.
  match goal with
  | |- context [rewind (set_pattern_pos ?x ?p)] =>
      pose proof (@rewind_pos x p L Hp) as P;
      cbn [pattern set_init_len set_start_time] in P;
      rewrite (rewind_eq (set_pattern_pos x p));
      set (pos' := pattern_pos (rewind (set_pattern_pos x p))) in *;
      clearbody pos'
  end.
  match goal with
  | |- context [flush_buffered ?x (init_len s) 0] => exists x
  end.
  split; [reflexivity|]. split; [reflexivity|]. split; [reflexivity|].
  split; [reflexivity|]. split; [exact P|].
  split; [reflexivity|]. split; [exact N0|].
  split; [repeat split | ].
  rewrite ?I0. reflexivity.
Qed.

(** X25.  The first call behind a cut, with the stray fields that [init]
    has left in [init_len] and no frame buffered: it takes no pattern
    entry, sends the input frame as it is, and uses the stray fields up.
    With one stray field it buffers the input frame as well; with more it
    leaves the fields beyond two to skip.  The cursor stays where [init]
    has put it, or goes back to the start when that is the end of the
    pattern. *)
Theorem first_call_behind_a_cut : forall e s l f,
  buffers_allocated s -> buffers_hold s -> holds_picture s f ->
  1 <= strlen (pattern s) -> 0 <= pattern_pos s <= strlen (pattern s) ->
  nskip_fields s = 0 -> 1 <= init_len s <= 8 -> occupied s = 0 ->
  clone_ok e 0 = true ->
  exists r o,
    filter_frame e s l f = Some r
    /\ sent_by l (r_outlink r) = [o]
    /\ same_picture s o f /\ props o = props f
    /\ init_len (r_ctx r) = 0
    /\ nskip_fields (r_ctx r)
       = (if init_len s =? 1 then 0 else init_len s - 2)
    /\ occupied (r_ctx r) = (if init_len s =? 1 then 1 else 0)
    /\ (init_len s = 1 ->
        exists t', temp (r_ctx r) = Some t' /\ same_picture s t' f)
    /\ pattern_pos (r_ctx r) = pattern_pos s mod strlen (pattern s)
    /\ r_ret r = next_ret e 0 /\ r_freed r = true.
Proof.
  intros e s l f BA BH HF L Hp N0 Hk O0 Ck.
  destruct (@allocated_slot s 0%nat BA ltac:(lia)) as [b0 Hb0].
  destruct (allocated_temp BA) as [t Ht].
  assert (Hh0 : holds_picture s b0)
    by (apply BH; right; eapply nth_some_in; eauto).
  assert (Hht : holds_picture s t) by (apply BH; left; exact Ht).
  assert (Hlen : (0 < List.length (frame s))%nat)
    by (eapply nth_some_length; eauto).
  destruct (@filter_frame_uses_the_stray_fields e s l f N0 ltac:(lia) L Hp)
    as (s1 & E1o & E1f & E1t & E1p & E1q & E1i & E1n & G1 & F).
  rewrite F. clear F.
  set (k := init_len s) in *.
  rewrite (@flush_buffered_idle s1 k 0) by (right; rewrite E1o; exact O0).
  destruct (@build_frame_unbuffered s1 f k 0%nat b0 t)
    as (s3 & F3 & E3f & E3o & E3t & E3p & E3q & G3 & E3i & E3n);
    try (rewrite ?E1o, ?E1f, ?E1t; assumption); try lia.
  rewrite F3. clear F3.
  destruct (copy_picture_same G1 Hh0 HF) as [Q K].
  destruct (copy_picture_same G1 Hht HF) as [Q2 K2].
  set (b := copy_picture s1 b0 f) in *. clearbody b.
  set (t2 := copy_picture s1 t f) in *. clearbody t2.
  assert (F0 : nth 0 (frame s3) None = Some b).
  { rewrite E3f, E1f. apply upd_nth_same. lia. }
  replace (((if k =? 1 then 0 else k - 2) =? 1) && is_set (occupied s3))
    with false.
  2:{ rewrite E3o. destruct (Z.eqb_spec k 1); [reflexivity|].
      unfold is_set. cbn. now rewrite andb_false_r. }
  destruct (@finish_one e s3 l f (if k =? 1 then 0 else k - 2) b F0 Ck)
    as (r & F & Rc & Rd & Rr & Rf).
  exists r, (sent_frame s3 l f b).
  split; [exact F|]. split; [apply sent_by_app; exact Rd|].
  split; [eapply same_picture_frame; [| |exact Q]; reflexivity|].
  split; [reflexivity|].
  rewrite Rc.
  cbn [init_len nskip_fields occupied temp pattern_pos set_nskip_fields].
  split; [rewrite E3i; exact E1i|].
  split; [destruct (Z.eqb_spec k 1); rewrite to_uint_small by lia;
          reflexivity|].
  split; [exact E3o|].
  split.
  { intros K1. exists t2. rewrite E3t, K1. change (1 =? 1) with true.
    split; [reflexivity | exact Q2]. }
  split; [rewrite E3q; exact E1q|]. split; assumption.
Qed.

(** X25, witness: the first frame of a stream through the pattern "2332"
    with the start frame 3: [init] has left two stray fields. *)
Lemma first_call_behind_a_cut_witness :
  let s := Example.ctx_after 0 "2332" 3 [] in
  let l := Example.link_after 0 "2332" 3 [] in
  let f := Example.gray 10 0 in
  exists r o,
    filter_frame Example.env s l f = Some r
    /\ sent_by l (r_outlink r) = [o]
    /\ same_picture s o f /\ props o = props f
    /\ init_len (r_ctx r) = 0
    /\ nskip_fields (r_ctx r)
       = (if init_len s =? 1 then 0 else init_len s - 2)
    /\ occupied (r_ctx r) = (if init_len s =? 1 then 1 else 0)
    /\ (init_len s = 1 ->
        exists t', temp (r_ctx r) = Some t' /\ same_picture s t' f)
    /\ pattern_pos (r_ctx r) = pattern_pos s mod strlen (pattern s)
    /\ r_ret r = next_ret Example.env 0 /\ r_freed r = true.
Proof.
  cbv zeta.
  apply (@first_call_behind_a_cut Example.env
           (Example.ctx_after 0 "2332" 3 [])
           (Example.link_after 0 "2332" 3 []) (Example.gray 10 0)).
  - vm_compute. repeat split; discriminate.
  - apply buffers_fit_hold. vm_compute. reflexivity.
  - apply fits_holds. vm_compute. reflexivity.
  - vm_compute. discriminate.
  - vm_compute. split; discriminate.
  - vm_compute. reflexivity.
  - vm_compute. split; discriminate.
  - vm_compute. reflexivity.
  - reflexivity.
Defined.
